(** * News_Analyzer: the comparative analysis engine

    A shallow embedding of [compare_articles], [generate_impact_analysis],
    [get_overall_sentiment] and [generate_final_sentiment_text] of
    [communication/utils.py], and the properties of the specification
    stated over it; then of the functions around the engine in the same
    file ([sanitize_text], [search_news_articles], [fetch_news_feeds],
    [summarize_text], [analyze_sentiment], [extract_topics]), with the
    libraries they call as parameters.

    The Python functions work on dynamically typed values, read every
    field through [dict.get] with a default, and wrap their bodies in
    [try: ... except Exception].  The embedding keeps all three: a
    universe of Python values, [get] with defaults, and an exception
    monad whose handler is placed where the source places [except].

    - Values are [None], integers, strings, lists and dictionaries with
      string keys; a string is a sequence of 8-bit characters.
    - [float] is IEEE 754 binary64, as the Standard Library specifies
      it ([SpecFloat]); the literals [0.3], [0.4], [0.6] are the
      binary64 numbers Python reads them as.
    - The order in which a set is iterated is a parameter ([SetOrder]).
    - [logging.error] writes to the log and changes no result; it is
      left out.
    - The limits of an interpreter are left out: the depth of
      recursion, memory, the number of digits [str] converts of an
      integer.

    Part one holds the definitions: values, the engine, the article
    records of the data model, the notions the specification uses, the
    functions around the engine.  Part two holds the properties. *)

From Stdlib Require Import ZArith List String Ascii Bool Lia Permutation Sorted.
From Stdlib Require Import Numbers.DecimalString.
From Stdlib Require Import Floats.PrimFloat Floats.SpecFloat Floats.FloatOps.
Import ListNotations.

Set Warnings "-register-all,-inexact-float".

Local Open Scope string_scope.
Local Open Scope list_scope.

(** ** Python values *)

(** The fragment of Python's values the engine can be handed by its
    callers once the request has been decoded: [None], integers, strings,
    lists and dictionaries with string keys.  A dictionary is the list of
    its items in insertion order; [dict_lookup] reads the first binding
    of a key. *)
Inductive pyval : Type :=
| PNone
| PInt (z : Z)
| PStr (s : string)
| PList (l : list pyval)
| PDict (d : list (string * pyval)).

(** The exceptions the modelled operations raise.  All of them derive
    from [Exception], so every [except Exception] catches each of them. *)
Inductive exn : Type :=
| AttributeError
| TypeError
| IndexError
| ZeroDivisionError
| OverflowError.

(** ** The exception monad *)

Module Exc.

Definition M (A : Type) : Type := (exn + A)%type.

Definition ret {A} (a : A) : M A := inr a.
Definition raise {A} (e : exn) : M A := inl e.

Definition bind {A B} (m : M A) (k : A -> M B) : M B :=
  match m with
  | inl e => inl e
  | inr a => k a
  end.

(** [try: m  except Exception: h] *)
Definition try_except {A} (m : M A) (h : exn -> A) : A :=
  match m with
  | inl e => h e
  | inr a => a
  end.

Fixpoint mapM {A B} (f : A -> M B) (l : list A) : M (list B) :=
  match l with
  | [] => ret []
  | a :: l' =>
      bind (f a) (fun b => bind (mapM f l') (fun bs => ret (b :: bs)))
  end.

Fixpoint foldM {A S} (f : S -> A -> M S) (s : S) (l : list A) : M S :=
  match l with
  | [] => ret s
  | a :: l' => bind (f s a) (fun s' => foldM f s' l')
  end.

End Exc.

Notation "x <- m ;; k" := (Exc.bind m (fun x => k))
  (at level 61, m at next level, right associativity).

Import Exc.

(** ** Strings *)

(** Python's [sep.join(parts)] on strings. *)
Fixpoint join (sep : string) (parts : list string) : string :=
  match parts with
  | [] => ""
  | [p] => p
  | p :: rest => (p ++ sep ++ join sep rest)%string
  end.

(** [c.lower()] of a character.  Strings are sequences of 8-bit
    characters here, the first 256 code points: the capital letters
    among them are [A] to [Z] and the accented capitals 192 to 222
    without the multiplication sign 215, and the small letter of each
    is 32 above it. *)
Definition lower_char (c : ascii) : ascii :=
  let n := nat_of_ascii c in
  if (Nat.leb 65 n && Nat.leb n 90)
     || (Nat.leb 192 n && Nat.leb n 222 && negb (Nat.eqb n 215))
  then ascii_of_nat (n + 32) else c.

(** [str.lower()] *)
Fixpoint lower (s : string) : string :=
  match s with
  | EmptyString => EmptyString
  | String c s' => String (lower_char c) (lower s')
  end.

(** [str(z)] of an integer: decimal digits, with a minus sign. *)
Definition str_of_Z (z : Z) : string :=
  NilZero.string_of_int (Z.to_int z).

Fixpoint string_mem (c : ascii) (s : string) : bool :=
  match s with
  | EmptyString => false
  | String c' s' => if Ascii.eqb c c' then true else string_mem c s'
  end.

Definition hex_digit (n : nat) : ascii :=
  if Nat.ltb n 10 then ascii_of_nat (48 + n) else ascii_of_nat (87 + n).

Definition repr_char (quote : ascii) (c : ascii) : string :=
  let n := nat_of_ascii c in
  if orb (Ascii.eqb c quote) (Ascii.eqb c "\"%char)
  then String "\"%char (String c EmptyString)
  else if Nat.eqb n 10 then "\n"
  else if Nat.eqb n 13 then "\r"
  else if Nat.eqb n 9 then "\t"
  else if Nat.ltb n 32 || (Nat.leb 127 n && Nat.leb n 160) || Nat.eqb n 173
  then String "\"%char (String "x"%char
         (String (hex_digit (n / 16)) (String (hex_digit (n mod 16)) EmptyString)))
  else String c EmptyString.

Fixpoint repr_chars (quote : ascii) (s : string) : string :=
  match s with
  | EmptyString => EmptyString
  | String c s' => (repr_char quote c ++ repr_chars quote s')%string
  end.

(** [repr(s)] of a string: single quotes, unless the string holds a
    single quote and no double quote. *)
Definition repr_str (s : string) : string :=
  let dquote := ascii_of_nat 34 in
  let quote : ascii :=
    if andb (string_mem "'"%char s) (negb (string_mem dquote s))
    then dquote else "'"%char in
  (String quote (repr_chars quote s) ++ String quote EmptyString)%string.

(** ** Dictionaries *)

Section Dict.
Context {A : Type}.

Fixpoint dict_lookup (k : string) (d : list (string * A)) : option A :=
  match d with
  | [] => None
  | (k', v) :: d' => if String.eqb k k' then Some v else dict_lookup k d'
  end.

Definition str_mem (k : string) (ks : list string) : bool :=
  existsb (String.eqb k) ks.

(** The items of the dictionary a list denotes: a repeated key keeps
    its first binding. *)
Fixpoint dict_items_from (seen : list string) (d : list (string * A))
  : list (string * A) :=
  match d with
  | [] => []
  | (k, v) :: d' =>
      if str_mem k seen then dict_items_from seen d'
      else (k, v) :: dict_items_from (k :: seen) d'
  end.

Definition dict_items (d : list (string * A)) : list (string * A) :=
  dict_items_from [] d.

Definition dict_keys (d : list (string * A)) : list string :=
  map fst (dict_items d).

Definition dict_values (d : list (string * A)) : list A :=
  map snd (dict_items d).
End Dict.

(** ** Operations on values *)

(** [repr(v)] *)
Fixpoint py_repr (v : pyval) : string :=
  match v with
  | PNone => "None"
  | PInt z => str_of_Z z
  | PStr s => repr_str s
  | PList l => ("[" ++ join ", " (map py_repr l) ++ "]")%string
  | PDict d =>
      ("{" ++ join ", "
         ((fix items (d : list (string * pyval)) (seen : list string)
             {struct d} : list string :=
             match d with
             | [] => []
             | (k, v) :: d' =>
                 if str_mem k seen then items d' seen
                 else (repr_str k ++ ": " ++ py_repr v)%string
                        :: items d' (k :: seen)
             end) d []) ++ "}")%string
  end.

(** [str(v)], which is what an f-string field [{v}] renders. *)
Definition py_str (v : pyval) : string :=
  match v with
  | PStr s => s
  | _ => py_repr v
  end.

(** [bool(v)] *)
Definition py_truthy (v : pyval) : bool :=
  match v with
  | PNone => false
  | PInt z => negb (Z.eqb z 0)
  | PStr s => negb (String.eqb s "")
  | PList l => match l with [] => false | _ => true end
  | PDict d => match d with [] => false | _ => true end
  end.

(** [a == b]: structural on lists, as finite maps on dictionaries. *)
Fixpoint py_eq (a b : pyval) {struct a} : bool :=
  match a, b with
  | PNone, PNone => true
  | PInt x, PInt y => Z.eqb x y
  | PStr s, PStr t => String.eqb s t
  | PList l, PList m =>
      (fix list_eq (l m : list pyval) {struct l} : bool :=
         match l, m with
         | [], [] => true
         | x :: l', y :: m' => py_eq x y && list_eq l' m'
         | _, _ => false
         end) l m
  | PDict d, PDict e =>
      Nat.eqb (List.length (dict_keys d)) (List.length (dict_keys e))
      && (fix sub (d : list (string * pyval)) (seen : list string)
            {struct d} : bool :=
            match d with
            | [] => true
            | (k, v) :: d' =>
                (if str_mem k seen then true
                 else match dict_lookup k e with
                      | Some w => py_eq v w
                      | None => false
                      end)
                && sub d' (k :: seen)
            end) d []
  | _, _ => false
  end.

(** [list(v.keys())] of a dictionary *)
Definition py_keys (v : pyval) : list string :=
  match v with
  | PDict d => dict_keys d
  | _ => []
  end.

(** [v.get(k, default)]: only a dictionary has the method. *)
Definition py_get (v : pyval) (k : string) (default : pyval) : M pyval :=
  match v with
  | PDict d =>
      ret (match dict_lookup k d with Some x => x | None => default end)
  | _ => raise AttributeError
  end.

(** [for x in v] *)
Fixpoint chars (s : string) : list string :=
  match s with
  | EmptyString => []
  | String c s' => String c EmptyString :: chars s'
  end.

Definition py_iter (v : pyval) : M (list pyval) :=
  match v with
  | PList l => ret l
  | PStr s => ret (map PStr (chars s))
  | PDict d => ret (map PStr (dict_keys d))
  | PNone | PInt _ => raise TypeError
  end.

(** [k in v] for a string [k] *)
Definition py_in (k : string) (v : pyval) : M bool :=
  match v with
  | PDict d => ret (match dict_lookup k d with Some _ => true | None => false end)
  | PList l => ret (existsb (py_eq (PStr k)) l)
  | PStr s => ret (match String.index 0 k s with Some _ => true | None => false end)
  | PNone | PInt _ => raise TypeError
  end.

(** [v[:n]]; a dictionary cannot be subscripted with a slice. *)
Definition py_slice_to (n : nat) (v : pyval) : M pyval :=
  match v with
  | PList l => ret (PList (firstn n l))
  | PStr s => ret (PStr (String.substring 0 n s))
  | PNone | PInt _ | PDict _ => raise TypeError
  end.

Definition as_str (v : pyval) : M string :=
  match v with
  | PStr s => ret s
  | _ => raise TypeError
  end.

(** [sep.join(v)]: every item of the iterable must be a string. *)
Definition py_join (sep : string) (v : pyval) : M string :=
  items <- py_iter v ;;
  parts <- mapM as_str items ;;
  ret (join sep parts).

(** [v.lower()]: a method of strings only. *)
Definition py_lower (v : pyval) : M string :=
  match v with
  | PStr s => ret (lower s)
  | _ => raise AttributeError
  end.

(** ** Sets *)

(** The values that can be members of a set. *)
Inductive hashable : Type :=
| HNone
| HInt (z : Z)
| HStr (s : string).

Definition hashable_eqb (a b : hashable) : bool :=
  match a, b with
  | HNone, HNone => true
  | HInt x, HInt y => Z.eqb x y
  | HStr s, HStr t => String.eqb s t
  | _, _ => false
  end.

Definition to_hashable (v : pyval) : M hashable :=
  match v with
  | PNone => ret HNone
  | PInt z => ret (HInt z)
  | PStr s => ret (HStr s)
  | PList _ | PDict _ => raise TypeError
  end.

Definition of_hashable (h : hashable) : pyval :=
  match h with
  | HNone => PNone
  | HInt z => PInt z
  | HStr s => PStr s
  end.

(** A set is the duplicate-free list of its members, in the order in
    which they were first added. *)
Definition pyset : Type := list hashable.

Definition set_mem (x : hashable) (s : pyset) : bool :=
  existsb (hashable_eqb x) s.

Definition set_add (s : pyset) (x : hashable) : pyset :=
  if set_mem x s then s else s ++ [x].

Definition set_of_list (l : list hashable) : pyset :=
  fold_left set_add l [].

(** [set(v)] *)
Definition py_set (v : pyval) : M pyset :=
  items <- py_iter v ;;
  hs <- mapM to_hashable items ;;
  ret (set_of_list hs).

(** [s & t] and [s - t] *)
Definition set_inter (s t : pyset) : pyset :=
  filter (fun x => set_mem x t) s.

Definition set_diff (s t : pyset) : pyset :=
  filter (fun x => negb (set_mem x t)) s.

(** [set.intersection] unpacked over a list of sets. *)
Definition set_intersection (sets : list pyset) : pyset :=
  match sets with
  | [] => []
  | s :: rest => fold_left set_inter rest s
  end.

(** Python does not fix the order in which a set is iterated: it follows
    the hash table, and the hash of a string changes from one process to
    the next.  The engine is therefore parameterised by the iteration
    order, of which only this is known: it enumerates the members of the
    set, each once. *)
Class SetOrder : Type := {
  set_iter : pyset -> list hashable;
  set_iter_perm : forall s, Permutation (set_iter s) s
}.

(** Two orders: members as they were added, and the reverse. *)
Definition insertion_order : SetOrder :=
  {| set_iter := fun s => s;
     set_iter_perm := fun s => Permutation_refl s |}.

Definition reversed_order : SetOrder :=
  {| set_iter := @rev hashable;
     set_iter_perm := fun s => Permutation_sym (Permutation_rev s) |}.

(** ** Numbers *)

(** A Python [float] is an IEEE 754 binary64 number; [spec_float] is the
    Standard Library's specification of them, which the kernel's
    primitive floats implement.  A literal of the source is the
    binary64 number nearest to it. *)
Definition py_float : Type := spec_float.

Definition float_0_3 : py_float := Eval vm_compute in Prim2SF 0.3%float.
Definition float_0_4 : py_float := Eval vm_compute in Prim2SF 0.4%float.
Definition float_0_6 : py_float := Eval vm_compute in Prim2SF 0.6%float.

(** The integer [z] as an unrounded binary number. *)
Definition raw_of_Z (z : Z) : spec_float :=
  match z with
  | Z0 => S754_zero false
  | Zpos p => S754_finite false p 0
  | Zneg p => S754_finite true p 0
  end.

Definition is_infinite (f : py_float) : bool :=
  match f with
  | S754_infinity _ => true
  | _ => false
  end.

(** [float(z)]: the nearest binary64 number, ties to even. *)
Definition float_of_int (z : Z) : M py_float :=
  let f := binary_normalize prec emax z 0 false in
  if is_infinite f then raise OverflowError else ret f.

(** [a / b] on integers: the exact quotient, rounded once. *)
Definition int_truediv (a b : Z) : M py_float :=
  if Z.eqb b 0 then raise ZeroDivisionError
  else
    let q := SFdiv prec emax (raw_of_Z a) (raw_of_Z b) in
    if is_infinite q then raise OverflowError else ret q.

(** [n * x] for an integer [n] and a float [x]. *)
Definition int_mul_float (n : Z) (x : py_float) : M py_float :=
  f <- float_of_int n ;;
  ret (SFmul prec emax f x).

(** [x > y] on floats. *)
Definition float_gt (x y : py_float) : bool := SFltb y x.

(** An integer and a float are compared by value, without rounding the
    integer. *)
Definition float_compare_int (f : py_float) (z : Z) : option comparison :=
  match f with
  | S754_nan => None
  | S754_infinity s => Some (if s then Lt else Gt)
  | S754_zero _ => Some (0 ?= z)%Z
  | S754_finite s m e =>
      let v := if s then Zneg m else Zpos m in
      Some (if (0 <=? e)%Z then (v * 2 ^ e ?= z)%Z
            else (v ?= z * 2 ^ (- e))%Z)
  end.

(** [x > z] and [z >= x] *)
Definition float_gt_int (x : py_float) (z : Z) : bool :=
  match float_compare_int x z with
  | Some Gt => true
  | _ => false
  end.

Definition int_ge_float (z : Z) (x : py_float) : bool :=
  match float_compare_int x z with
  | Some Lt | Some Eq => true
  | _ => false
  end.

(** A number that is an [int] or a [float], as [max(2, n * 0.3)] is. *)
Inductive pynum : Type :=
| NInt (z : Z)
| NFloat (x : py_float).

(** [max(a, x)]: the first argument, unless the second is greater. *)
Definition py_max (a : Z) (x : py_float) : pynum :=
  if float_gt_int x a then NFloat x else NInt a.

(** [count >= threshold] *)
Definition int_ge (count : Z) (threshold : pynum) : bool :=
  match threshold with
  | NInt z => (z <=? count)%Z
  | NFloat x => int_ge_float count x
  end.

(** [math.ceil(x)] of a finite float. *)
Definition float_ceil (x : py_float) : Z :=
  match x with
  | S754_finite s m e =>
      let v := if s then Zneg m else Zpos m in
      if (0 <=? e)%Z then (v * 2 ^ e)%Z
      else (- ((- v) / 2 ^ (- e)))%Z
  | _ => 0%Z
  end.

(** [a / b]: both operands are integers wherever the engine divides. *)
Definition py_truediv (a b : pyval) : M py_float :=
  match a, b with
  | PInt x, PInt y => int_truediv x y
  | _, _ => raise TypeError
  end.

(** [sum(v.values())]: [values] is a method of dictionaries, and the
    items are added to the integer 0. *)
Definition py_sum_values (v : pyval) : M Z :=
  match v with
  | PDict d =>
      foldM (fun (acc : Z) (x : pyval) =>
               match x with
               | PInt z => ret (acc + z)%Z
               | _ => raise TypeError
               end) 0%Z (dict_values d)
  | _ => raise AttributeError
  end.

(** [l[i]] on a list *)
Definition py_index (l : list pyval) (i : nat) : M pyval :=
  match nth_error l i with
  | Some v => ret v
  | None => raise IndexError
  end.

(** [range(a, b)] *)
Definition range (a b : nat) : list nat := seq a (b - a).

(** ** The result of the comparative analysis *)

Record CoverageDifference : Type := {
  Comparison : string;
  Impact : string
}.

Record SentimentDistribution : Type := {
  Positive : Z;
  Negative : Z;
  Neutral : Z
}.

Record TopicOverlap : Type := {
  Common_Topics : list hashable;
  Unique_Topics : list (list hashable)
}.

Record Analysis : Type := {
  Sentiment_Distribution : SentimentDistribution;
  Coverage_Differences : list CoverageDifference;
  Topic_Overlap : TopicOverlap
}.

(** The dictionary [compare_articles] returns when it is given nothing
    and when it fails. *)
Definition default_analysis : Analysis :=
  {| Sentiment_Distribution := {| Positive := 0; Negative := 0; Neutral := 0 |};
     Coverage_Differences := [];
     Topic_Overlap := {| Common_Topics := []; Unique_Topics := [] |} |}.

(** The result as the Python dictionary it is, for the functions that
    read it back. *)
Definition distribution_to_py (d : SentimentDistribution) : pyval :=
  PDict [("Positive", PInt (Positive d));
         ("Negative", PInt (Negative d));
         ("Neutral", PInt (Neutral d))].

Definition difference_to_py (c : CoverageDifference) : pyval :=
  PDict [("Comparison", PStr (Comparison c)); ("Impact", PStr (Impact c))].

Definition overlap_to_py (t : TopicOverlap) : pyval :=
  PDict [("Common Topics", PList (map of_hashable (Common_Topics t)));
         ("Unique Topics",
           PList (map (fun u => PList (map of_hashable u)) (Unique_Topics t)))].

Definition analysis_to_py (r : Analysis) : pyval :=
  PDict [("Sentiment Distribution", distribution_to_py (Sentiment_Distribution r));
         ("Coverage Differences",
           PList (map difference_to_py (Coverage_Differences r)));
         ("Topic Overlap", overlap_to_py (Topic_Overlap r))].

(** ** The engine *)

(** [a.get('sentiment', {}).get('label', default)]; without a default
    the inner [get] returns [None]. *)
Definition sentiment_label (a : pyval) (default : pyval) : M pyval :=
  s <- py_get a "sentiment" (PDict []) ;;
  py_get s "label" default.

(** *** [generate_impact_analysis] *)

Definition generate_impact_analysis_body (article1 article2 : pyval) : M string :=
  sentiment1 <- sentiment_label article1 (PStr "Unknown") ;;
  sentiment2 <- sentiment_label article2 (PStr "Unknown") ;;
  if py_eq sentiment1 sentiment2 then
    ret "Both articles share similar sentiment, reinforcing the same perception."
  else if py_eq sentiment1 (PStr "Positive") && py_eq sentiment2 (PStr "Negative") then
    ret ("The conflicting sentiment between these articles may create market uncertainty. "
         ++ "Investors might need to evaluate both perspectives before making decisions.")%string
  else if py_eq sentiment1 (PStr "Negative") && py_eq sentiment2 (PStr "Positive") then
    ret ("The contrasting views present a complex picture. "
         ++ "This divergence suggests the company's situation has multiple interpretations.")%string
  else if existsb (fun x => py_eq x (PStr "Neutral")) [sentiment1; sentiment2] then
    let other := if py_eq sentiment2 (PStr "Neutral") then sentiment1 else sentiment2 in
    l <- py_lower other ;;
    ret ("The " ++ l
         ++ " sentiment in one article is counterbalanced by a neutral perspective in the other.")%string
  else
    ret "The articles present different aspects of the company's situation.".

Definition generate_impact_analysis (article1 article2 : pyval) : string :=
  try_except (generate_impact_analysis_body article1 article2)
             (fun _ => "Impact analysis not available.").

(** *** [get_overall_sentiment] *)

Definition get_overall_sentiment_body (analysis_data : pyval) : M string :=
  sentiment_dist <- py_get analysis_data "Sentiment Distribution" (PDict []) ;;
  total <- py_sum_values sentiment_dist ;;
  if Z.eqb total 0 then ret "Neutral"
  else
    positive <- py_get sentiment_dist "Positive" (PInt 0) ;;
    positive_ratio <- py_truediv positive (PInt total) ;;
    negative <- py_get sentiment_dist "Negative" (PInt 0) ;;
    negative_ratio <- py_truediv negative (PInt total) ;;
    if float_gt positive_ratio float_0_6 then ret "Very Positive"
    else if float_gt positive_ratio float_0_4 then ret "Moderately Positive"
    else if float_gt negative_ratio float_0_6 then ret "Very Negative"
    else if float_gt negative_ratio float_0_4 then ret "Moderately Negative"
    else ret "Mixed or Neutral".

Definition get_overall_sentiment (analysis_data : pyval) : string :=
  if negb (py_truthy analysis_data) then "Neutral"
  else try_except (get_overall_sentiment_body analysis_data) (fun _ => "Neutral").

(** *** [generate_final_sentiment_text] *)

Definition inconclusive (company_name : pyval) : string :=
  ("Analysis of " ++ py_str company_name
   ++ "'s recent news coverage is inconclusive.")%string.

Definition generate_final_sentiment_text_body
    (company_name : pyval) (overall : string) (analysis_data : pyval) : M string :=
  let name := py_str company_name in
  sentiment_dist <- py_get analysis_data "Sentiment Distribution" (PDict []) ;;
  total <- py_sum_values sentiment_dist ;;
  if Z.eqb total 0 then
    ret ("No reliable sentiment data available for " ++ name ++ ".")%string
  else if String.eqb overall "Very Positive" then
    ret (name ++ "'s latest news coverage is overwhelmingly positive. "
         ++ "The company is receiving favorable attention which may indicate strong performance.")%string
  else if String.eqb overall "Moderately Positive" then
    ret (name ++ "'s recent news coverage leans positive. "
         ++ "The company appears to be performing well despite some challenges.")%string
  else if String.eqb overall "Very Negative" then
    ret (name ++ "'s latest news coverage is predominantly negative. "
         ++ "The company may be facing significant challenges that could impact its performance.")%string
  else if String.eqb overall "Moderately Negative" then
    ret (name ++ "'s recent news coverage tends to be negative. "
         ++ "The company appears to be facing some challenges that warrant attention.")%string
  else
    ret (name ++ "'s recent news coverage shows mixed sentiment. "
         ++ "The company has both positive developments and challenges to navigate.")%string.

Definition generate_final_sentiment_text
    (company_name : pyval) (analysis_data : pyval) : string :=
  let overall := get_overall_sentiment analysis_data in
  try_except (generate_final_sentiment_text_body company_name overall analysis_data)
             (fun _ => inconclusive company_name).

(** *** [compare_articles] *)

(** [topic_counts[topic] = topic_counts.get(topic, 0) + 1] on a
    dictionary keyed by topics, kept in insertion order. *)
Fixpoint count_topic (topic : hashable) (topic_counts : list (hashable * Z))
  : list (hashable * Z) :=
  match topic_counts with
  | [] => [(topic, 0 + 1)%Z]
  | (t, c) :: rest =>
      if hashable_eqb topic t then (t, c + 1)%Z :: rest
      else (t, c) :: count_topic topic rest
  end.

(** [sum(1 for a in articles if a.get('sentiment', {}).get('label') == name)] *)
Definition count_label (articles : list pyval) (name : string) : M Z :=
  foldM (fun (n : Z) (a : pyval) =>
           l <- sentiment_label a PNone ;;
           ret (if py_eq l (PStr name) then n + 1 else n)%Z)
        0%Z articles.

(** [[set(a.get('topics', [])) for a in articles if 'topics' in a]] *)
Fixpoint topic_sets (articles : list pyval) : M (list pyset) :=
  match articles with
  | [] => ret []
  | a :: rest =>
      has_topics <- py_in "topics" a ;;
      if has_topics : bool then
        t <- py_get a "topics" (PList []) ;;
        s <- py_set t ;;
        more <- topic_sets rest ;;
        ret (s :: more)
      else topic_sets rest
  end.

(** The entry appended for the pair [(i, j)], if their labels differ. *)
Definition coverage_difference (articles : list pyval) (i j : nat)
  : M (option CoverageDifference) :=
  article_i <- py_index articles i ;;
  article_j <- py_index articles j ;;
  label_i <- sentiment_label article_i PNone ;;
  label_j <- sentiment_label article_j PNone ;;
  if negb (py_eq label_i label_j) then
    all_i <- py_get article_i "topics" (PList []) ;;
    topics_i <- py_slice_to 3 all_i ;;
    all_j <- py_get article_j "topics" (PList []) ;;
    topics_j <- py_slice_to 3 all_j ;;
    title_i <- py_get article_i "title"
                 (PStr ("Article " ++ str_of_Z (Z.of_nat i + 1))) ;;
    shown_i <- sentiment_label article_i (PStr "Unknown") ;;
    about_i <- (if py_truthy topics_i then py_join ", " topics_i
                else ret "the subject") ;;
    title_j <- py_get article_j "title"
                 (PStr ("Article " ++ str_of_Z (Z.of_nat j + 1))) ;;
    shown_j <- sentiment_label article_j (PStr "Unknown") ;;
    about_j <- (if py_truthy topics_j then py_join ", " topics_j
                else ret "the subject") ;;
    let comparison :=
      ("Article '" ++ py_str title_i ++ "' has "
       ++ py_str shown_i ++ " sentiment about "
       ++ about_i ++ ", while "
       ++ "Article '" ++ py_str title_j ++ "' has "
       ++ py_str shown_j ++ " sentiment about "
       ++ about_j ++ ".")%string in
    let impact := generate_impact_analysis article_i article_j in
    ret (Some {| Comparison := comparison; Impact := impact |})
  else ret None.

(** The two nested [for] loops, appending to [coverage_differences]. *)
Definition coverage_loop (articles : list pyval) : M (list CoverageDifference) :=
  let n := List.length articles in
  foldM (fun coverage_differences i =>
           foldM (fun coverage_differences j =>
                    d <- coverage_difference articles i j ;;
                    ret (match d with
                         | Some c => coverage_differences ++ [c]
                         | None => coverage_differences
                         end))
                 coverage_differences (range (i + 1) (Nat.min (i + 3) n)))
        [] (range 0 n).

Section Engine.
Context {order : SetOrder}.

(** The frequency table of the fallback: one visit per member of each
    topic set. *)
Definition count_topics (all_topics : list pyset) : list (hashable * Z) :=
  fold_left (fun topic_counts topic_set =>
               fold_left (fun topic_counts topic => count_topic topic topic_counts)
                         (set_iter topic_set) topic_counts)
            all_topics [].

Definition compare_articles_body (articles : list pyval) : M Analysis :=
  positive <- count_label articles "Positive" ;;
  negative <- count_label articles "Negative" ;;
  neutral <- count_label articles "Neutral" ;;
  let sentiment_distribution :=
    {| Positive := positive; Negative := negative; Neutral := neutral |} in
  all_topics <- topic_sets articles ;;
  let common_topics :=
    match all_topics with
    | [] => []
    | _ => set_intersection all_topics
    end in
  common_topics <-
    (match common_topics, all_topics with
     | [], _ :: _ =>
         let topic_counts := count_topics all_topics in
         scaled <- int_mul_float (Z.of_nat (List.length all_topics)) float_0_3 ;;
         let threshold := py_max 2 scaled in
         ret (set_of_list
                (map fst (filter (fun tc => int_ge (snd tc) threshold)
                                 topic_counts)))
     | _, _ => ret common_topics
     end) ;;
  coverage_differences <- coverage_loop articles ;;
  let unique_topics :=
    map (fun topic_set => set_iter (set_diff topic_set common_topics))
        all_topics in
  ret {| Sentiment_Distribution := sentiment_distribution;
         Coverage_Differences := firstn 5 coverage_differences;
         Topic_Overlap := {| Common_Topics := set_iter common_topics;
                             Unique_Topics := unique_topics |} |}.

(** [articles] is whatever the caller passes: a falsy value gives the
    default at once; anything else is iterated by the first statement
    of the [try] block, and only a list of dictionaries gets past
    it. *)
Definition compare_articles (articles : pyval) : Analysis :=
  if negb (py_truthy articles) then default_analysis
  else
    try_except (items <- py_iter articles ;; compare_articles_body items)
               (fun _ => default_analysis).

End Engine.

(** ** Article records *)

(** The records of the specification's data model: every field may be
    absent, a field that is present has its documented type, and any
    other field ([date], [source], [url], [summary], [score], ...) is
    carried along in [article_rest] and [sentiment_rest]. *)
Record SentimentRecord : Type := {
  label : option string;
  sentiment_rest : list (string * pyval)
}.

Record ArticleRecord : Type := {
  title : option string;
  sentiment : option SentimentRecord;
  topics : option (list string);
  article_rest : list (string * pyval)
}.

Definition field (k : string) (v : option pyval) : list (string * pyval) :=
  match v with
  | Some x => [(k, x)]
  | None => []
  end.

Definition without (ks : list string) (d : list (string * pyval))
  : list (string * pyval) :=
  filter (fun kv => negb (str_mem (fst kv) ks)) d.

Definition sentiment_to_py (s : SentimentRecord) : pyval :=
  PDict (field "label" (option_map PStr (label s))
         ++ without ["label"] (sentiment_rest s)).

(** The dictionary an article record stands for. *)
Definition to_py (a : ArticleRecord) : pyval :=
  PDict (field "title" (option_map PStr (title a))
         ++ field "sentiment" (option_map sentiment_to_py (sentiment a))
         ++ field "topics" (option_map (fun ts => PList (map PStr ts)) (topics a))
         ++ without ["title"; "sentiment"; "topics"] (article_rest a)).

Definition batch (articles : list ArticleRecord) : pyval :=
  PList (map to_py articles).

(** The label of a record, if it has one. *)
Definition label_of (a : ArticleRecord) : option string :=
  match sentiment a with
  | Some s => label s
  | None => None
  end.

(** What the comparison at the head of the pair loop reads: [None] for
    an absent label. *)
Definition compared_label (a : ArticleRecord) : pyval :=
  match label_of a with
  | Some l => PStr l
  | None => PNone
  end.

(** What is displayed, and what [generate_impact_analysis] decides on:
    ["Unknown"] for an absent label. *)
Definition shown_label (a : ArticleRecord) : string :=
  match label_of a with
  | Some l => l
  | None => "Unknown"
  end.

Definition has_topics (a : ArticleRecord) : bool :=
  match topics a with
  | Some _ => true
  | None => false
  end.

Definition topics_of (a : ArticleRecord) : list string :=
  match topics a with
  | Some ts => ts
  | None => []
  end.

Definition empty_article : ArticleRecord :=
  {| title := None; sentiment := None; topics := None; article_rest := [] |}.

(** A Python list holds at most [sys.maxsize] items.  The properties of
    batches are stated for lists that do: the fallback of the Topic
    Overlap Resolver turns the number of topic sets into a float, which
    raises [OverflowError] beyond the range of binary64. *)
Definition max_size : Z := 2 ^ 63 - 1.

Definition fits (articles : list ArticleRecord) : Prop :=
  (Z.of_nat (List.length articles) <= max_size)%Z.

(** ** The specification's notions *)

(** *** Sentiment Aggregator *)

(** The label is exactly [name]: [String.eqb] compares character by
    character. *)
Definition has_label (name : string) (a : ArticleRecord) : bool :=
  match label_of a with
  | Some l => String.eqb l name
  | None => false
  end.

Definition counted (a : ArticleRecord) : bool :=
  has_label "Positive" a || has_label "Negative" a || has_label "Neutral" a.

Definition count_of (name : string) (articles : list ArticleRecord) : Z :=
  Z.of_nat (List.length (filter (has_label name) articles)).

Definition total (d : SentimentDistribution) : Z :=
  (Positive d + Negative d + Neutral d)%Z.

(** *** Coverage Difference Generator *)

Definition label_eqb (x y : option string) : bool :=
  match x, y with
  | Some s, Some t => String.eqb s t
  | None, None => true
  | _, _ => false
  end.

(** The pairs [(i, j)] of the look-ahead window over [n] articles:
    [i] from 0 to [n - 1], [j] among [i + 1] and [i + 2], [j < n]. *)
Definition window_pairs (n : nat) : list (nat * nat) :=
  flat_map (fun i => map (pair i) (filter (fun j => Nat.ltb j n) [i + 1; i + 2]))
           (seq 0 n).

Definition article_at (articles : list ArticleRecord) (i : nat) : ArticleRecord :=
  nth i articles empty_article.

(** The window's pairs whose labels differ. *)
Definition divergent_pairs (articles : list ArticleRecord) : list (nat * nat) :=
  filter (fun p => negb (label_eqb (label_of (article_at articles (fst p)))
                                   (label_of (article_at articles (snd p)))))
         (window_pairs (List.length articles)).

(** Index order on pairs. *)
Definition pair_lt (p q : nat * nat) : Prop :=
  fst p < fst q \/ (fst p = fst q /\ snd p < snd q).

(** The title, or the positional name of the article at index [i]. *)
Definition title_or (a : ArticleRecord) (i : nat) : string :=
  match title a with
  | Some t => t
  | None => ("Article " ++ str_of_Z (Z.of_nat i + 1))%string
  end.

(** Up to the first three topics, joined by a comma. *)
Definition about (a : ArticleRecord) : string :=
  match firstn 3 (topics_of a) with
  | [] => "the subject"
  | ts => join ", " ts
  end.

Definition comparison_text (i j : nat) (a b : ArticleRecord) : string :=
  ("Article '" ++ title_or a i ++ "' has " ++ shown_label a
   ++ " sentiment about " ++ about a ++ ", while "
   ++ "Article '" ++ title_or b j ++ "' has " ++ shown_label b
   ++ " sentiment about " ++ about b ++ ".")%string.

(** The CoverageDifference of the pair [(i, j)]. *)
Definition difference_at (articles : list ArticleRecord) (p : nat * nat)
  : CoverageDifference :=
  let a := article_at articles (fst p) in
  let b := article_at articles (snd p) in
  {| Comparison := comparison_text (fst p) (snd p) a b;
     Impact := generate_impact_analysis (to_py a) (to_py b) |}.

(** *** Impact Analyzer: the decision table, first match wins *)

Definition shared_perception : string :=
  "Both articles share similar sentiment, reinforcing the same perception.".

Definition market_uncertainty : string :=
  ("The conflicting sentiment between these articles may create market uncertainty. "
   ++ "Investors might need to evaluate both perspectives before making decisions.")%string.

Definition multiple_interpretations : string :=
  ("The contrasting views present a complex picture. "
   ++ "This divergence suggests the company's situation has multiple interpretations.")%string.

(** Lower case, letter by letter: the capital letters of the 8-bit
    characters, each with its small letter. *)
Definition small_letters : list (nat * nat) :=
  [(65, 97); (66, 98); (67, 99); (68, 100); (69, 101); (70, 102); (71, 103);
   (72, 104); (73, 105); (74, 106); (75, 107); (76, 108); (77, 109);
   (78, 110); (79, 111); (80, 112); (81, 113); (82, 114); (83, 115);
   (84, 116); (85, 117); (86, 118); (87, 119); (88, 120); (89, 121);
   (90, 122);
   (192, 224); (193, 225); (194, 226); (195, 227); (196, 228); (197, 229);
   (198, 230); (199, 231); (200, 232); (201, 233); (202, 234); (203, 235);
   (204, 236); (205, 237); (206, 238); (207, 239); (208, 240); (209, 241);
   (210, 242); (211, 243); (212, 244); (213, 245); (214, 246);
   (216, 248); (217, 249); (218, 250); (219, 251); (220, 252); (221, 253);
   (222, 254)].

Definition lowercase_char (c : ascii) : ascii :=
  match find (fun p => Nat.eqb (fst p) (nat_of_ascii c)) small_letters with
  | Some p => ascii_of_nat (snd p)
  | None => c
  end.

Fixpoint lowercase (s : string) : string :=
  match s with
  | EmptyString => EmptyString
  | String c s' => String (lowercase_char c) (lowercase s')
  end.

Definition counterbalance (other : string) : string :=
  ("The " ++ lowercase other
   ++ " sentiment in one article is counterbalanced by a neutral perspective in the other.")%string.

Definition generic_fallback : string :=
  "The articles present different aspects of the company's situation.".

Definition impact_table (label1 label2 : string) : string :=
  if String.eqb label1 label2 then shared_perception
  else if String.eqb label1 "Positive" && String.eqb label2 "Negative"
  then market_uncertainty
  else if String.eqb label1 "Negative" && String.eqb label2 "Positive"
  then multiple_interpretations
  else if String.eqb label2 "Neutral" then counterbalance label1
  else if String.eqb label1 "Neutral" then counterbalance label2
  else generic_fallback.

(** *** Topic Overlap Resolver *)

(** The topic-bearing articles, in input order. *)
Definition topic_bearing (articles : list ArticleRecord) : list ArticleRecord :=
  filter has_topics articles.

Definition number_of_topic_sets (articles : list ArticleRecord) : Z :=
  Z.of_nat (List.length (topic_bearing articles)).

Definition mentions (t : string) (a : ArticleRecord) : bool :=
  existsb (String.eqb t) (topics_of a).

(** In how many topic sets [t] occurs. *)
Definition frequency (t : string) (articles : list ArticleRecord) : Z :=
  Z.of_nat (List.length (filter (mentions t) (topic_bearing articles))).

(** [n * 0.3], as Python computes it. *)
Definition scaled_count (n : Z) : py_float :=
  SFmul prec emax (binary_normalize prec emax n 0 false) float_0_3.

(** [max(2, ceil(0.3 * n))] *)
Definition spec_threshold (n : Z) : Z :=
  Z.max 2 (float_ceil (scaled_count n)).

(** The same with the product taken in the rationals: the ceiling of
    [3 n / 10]. *)
Definition exact_threshold (n : Z) : Z :=
  Z.max 2 ((3 * n + 9) / 10).

(** The topic set of an article, and the topics all sets share. *)
Definition topic_set_of (a : ArticleRecord) : pyset :=
  set_of_list (map HStr (topics_of a)).

Definition all_topics_of (articles : list ArticleRecord) : list pyset :=
  map topic_set_of (topic_bearing articles).

(** [in_order sub full]: [sub] lists some of the items of [full], in the
    order in which they occur in [full]. *)
Inductive in_order {A : Type} : list A -> list A -> Prop :=
| in_order_nil : in_order [] []
| in_order_skip x sub full : in_order sub full -> in_order sub (x :: full)
| in_order_keep x sub full : in_order sub full -> in_order (x :: sub) (x :: full).

(** *** Overall Sentiment Classifier *)

Definition verdict_of_ratios (positive_ratio negative_ratio : py_float) : string :=
  if float_gt positive_ratio float_0_6 then "Very Positive"
  else if float_gt positive_ratio float_0_4 then "Moderately Positive"
  else if float_gt negative_ratio float_0_6 then "Very Negative"
  else if float_gt negative_ratio float_0_4 then "Moderately Negative"
  else "Mixed or Neutral".

(** The same table with the ratios taken in the rationals:
    [p / t > 6 / 10] is [10 p > 6 t]. *)
Definition exact_verdict (positive negative sum : Z) : string :=
  if (6 * sum <? 10 * positive)%Z then "Very Positive"
  else if (4 * sum <? 10 * positive)%Z then "Moderately Positive"
  else if (6 * sum <? 10 * negative)%Z then "Very Negative"
  else if (4 * sum <? 10 * negative)%Z then "Moderately Negative"
  else "Mixed or Neutral".

Definition verdicts : list string :=
  ["Very Positive"; "Moderately Positive"; "Very Negative";
   "Moderately Negative"; "Mixed or Neutral"].

(** ** Sample batches *)

Definition article (t l : option string) (ts : option (list string))
  : ArticleRecord :=
  {| title := t;
     sentiment :=
       option_map (fun l => {| label := Some l;
                               sentiment_rest := [("score", PInt 0)] |}) l;
     topics := ts;
     article_rest := [("url", PStr "https://example.com/a")] |}.

(** An article without a sentiment field next to one labelled
    ["Unknown"]. *)
Definition absent_then_unknown : list ArticleRecord :=
  [article None None (Some ["X"; "a"]);
   article (Some "Second") (Some "Unknown") (Some ["X"; "b"; "c"; "d"])].

(** Seven articles whose labels alternate: every pair of the window
    with [j = i + 1] diverges. *)
Definition alternating : list ArticleRecord :=
  [article None (Some "Positive") (Some ["A"; "B"]);
   article None (Some "Negative") (Some ["A"; "C"]);
   article None (Some "Positive") None;
   article None (Some "Negative") (Some []);
   article None (Some "Positive") (Some ["A"]);
   article None (Some "Neutral") (Some ["D"; "A"]);
   article None None (Some ["A"; "E"])].

(** Two articles that share the topic ["X"]. *)
Definition sharing_X : list ArticleRecord :=
  [article None (Some "Neutral") (Some ["X"; "A"; "B"]);
   article None (Some "Neutral") (Some ["X"])].

(** Five topic sets with no common member; ["X"] is in three. *)
Definition five_topic_sets : list ArticleRecord :=
  [article None (Some "Neutral") (Some ["X"; "a"]);
   article None (Some "Neutral") (Some ["X"; "b"]);
   article None (Some "Neutral") None;
   article None (Some "Neutral") (Some ["c"]);
   article None (Some "Neutral") (Some ["X"; "d"]);
   article None (Some "Neutral") (Some ["e"])].

(** A label that is present and is none of the three. *)
Definition one_unknown : list ArticleRecord :=
  [article None (Some "Unknown") None].


(** ** Auxiliary notions of the proofs *)

(** A float that is zero or finite, of magnitude below [2 ^ K]. *)
Definition bounded_float (K : Z) (f : spec_float) : Prop :=
  match f with
  | S754_zero _ => True
  | S754_finite _ m e => (Zdigits2 (Zpos m) + e <= K /\ e <= 971)%Z
  | _ => False
  end.

(** The members [set_of_list] adds to [acc] when it goes through [l]. *)
Fixpoint fresh (acc : pyset) (l : list hashable) : list hashable :=
  match l with
  | [] => []
  | x :: l' =>
      if set_mem x acc then fresh acc l' else x :: fresh (acc ++ [x]) l'
  end.

(** In how many of the sets [h] is. *)
Definition count_in (h : hashable) (sets : list pyset) : Z :=
  Z.of_nat (List.length (filter (set_mem h) sets)).

(** The count a frequency table holds for [h], 0 when it has none. *)
Fixpoint count_for (h : hashable) (topic_counts : list (hashable * Z)) : Z :=
  match topic_counts with
  | [] => 0
  | (t, c) :: rest => if hashable_eqb h t then c else count_for h rest
  end.

(** A frequency table is well formed: no topic twice, no count below 1. *)
Definition table_ok (topic_counts : list (hashable * Z)) : Prop :=
  NoDup (map fst topic_counts) /\ Forall (fun p => (0 < snd p)%Z) topic_counts.

(** [start], [start + 1], ..., [len] integers. *)
Fixpoint zrange (start : Z) (len : nat) : list Z :=
  match len with
  | O => []
  | S len' => start :: zrange (start + 1) len'
  end.

(** The binary64 threshold and the rational one agree on [0 .. k]. *)
Definition thresholds_agree_upto (k : Z) : bool :=
  forallb (fun n => Z.eqb (spec_threshold n) (exact_threshold n))
          (zrange 0 (Z.to_nat (k + 1))).

(** [p / t > x], false when the division raises. *)
Definition ratio_gt (x : py_float) (p t : Z) : bool :=
  match int_truediv p t with
  | inr q => float_gt q x
  | inl _ => false
  end.

(** The binary64 comparisons of a ratio with 0.6 and 0.4 and the
    rational ones agree for [0 <= p <= t], [1 <= t <= k]. *)
Definition ratios_agree_upto (k : Z) : bool :=
  forallb (fun t =>
             forallb (fun p =>
                        Bool.eqb (ratio_gt float_0_6 p t) (6 * t <? 10 * p)%Z
                        && Bool.eqb (ratio_gt float_0_4 p t) (4 * t <? 10 * p)%Z)
                     (zrange 0 (Z.to_nat (t + 1))))
          (zrange 1 (Z.to_nat k)).


(** [fits] of a batch that is written out. *)
Ltac fits_now := unfold fits, max_size; simpl; lia.

(** One step through a [bind] that is known to return. *)
Ltac step_bind H :=
  match type of H with
  | bind ?m _ = _ =>
      let E := fresh "E" in
      destruct m eqn:E; cbn [bind] in H; [discriminate|]
  end.

Section Reference.
Context {order : SetOrder}.

(** What [compare_articles] computes on a batch of article records,
    without the detour through Python values. *)
Definition fallback_topics (all_topics : list pyset) : pyset :=
  set_of_list
    (map fst
       (filter (fun tc =>
                  int_ge (snd tc)
                         (py_max 2 (scaled_count (Z.of_nat (List.length all_topics)))))
               (count_topics all_topics))).

Definition common_of (articles : list ArticleRecord) : pyset :=
  match all_topics_of articles with
  | [] => []
  | all_topics =>
      match set_intersection all_topics with
      | [] => fallback_topics all_topics
      | common => common
      end
  end.

Definition analysis_of (articles : list ArticleRecord) : Analysis :=
  {| Sentiment_Distribution :=
       {| Positive := count_of "Positive" articles;
          Negative := count_of "Negative" articles;
          Neutral := count_of "Neutral" articles |};
     Coverage_Differences :=
       firstn 5 (map (difference_at articles) (divergent_pairs articles));
     Topic_Overlap :=
       {| Common_Topics := set_iter (common_of articles);
          Unique_Topics :=
            map (fun topic_set => set_iter (set_diff topic_set (common_of articles)))
                (all_topics_of articles) |} |}.

End Reference.

(** ** The functions around the engine *)

(** The other functions of [communication/utils.py] call libraries:
    feedparser, the transformer pipelines, VADER, spaCy, TF-IDF, NLTK.
    What a library returns, or that it raises, is a parameter of the
    function that calls it; everything the function itself does with
    the answer is modelled. *)

(** ** Text clean-up: [sanitize_text] *)

(** The white space of Python among the 8-bit characters, for
    [str.isspace], [str.strip] and the regular expression [\s] alike:
    tab to carriage return, the separators 28 to 31, the space, NEL
    and the no-break space. *)
Definition is_space (c : ascii) : bool :=
  let n := nat_of_ascii c in
  (Nat.leb 9 n && Nat.leb n 13) || (Nat.leb 28 n && Nat.leb n 32)
  || Nat.eqb n 133 || Nat.eqb n 160.

(** [re.sub(r'\s+', ' ', s)]: every maximal run of white space is
    replaced by one space.  [in_run] tells that the character before
    was white space, whose run has been replaced already. *)
Fixpoint collapse_from (in_run : bool) (s : string) : string :=
  match s with
  | EmptyString => EmptyString
  | String c s' =>
      if is_space c then
        if in_run then collapse_from true s'
        else String " " (collapse_from true s')
      else String c (collapse_from false s')
  end.

Definition re_sub_spaces (s : string) : string := collapse_from false s.

Fixpoint lstrip (s : string) : string :=
  match s with
  | EmptyString => EmptyString
  | String c s' => if is_space c then lstrip s' else s
  end.

Fixpoint rstrip (s : string) : string :=
  match s with
  | EmptyString => EmptyString
  | String c s' =>
      match rstrip s' with
      | EmptyString => if is_space c then EmptyString else String c EmptyString
      | r => String c r
      end
  end.

(** [s.strip()] *)
Definition strip (s : string) : string := rstrip (lstrip s).

(** A falsy argument ([None], the empty string, 0, an empty list) gives
    the empty string; [re.sub] accepts a string only. *)
Definition sanitize_text (text : pyval) : M string :=
  if negb (py_truthy text) then ret ""
  else
    match text with
    | PStr s => ret (strip (re_sub_spaces s))
    | _ => raise TypeError
    end.

(** [s.split()]: the maximal runs of characters that are not white
    space.  [word] is the run being read. *)
Fixpoint split_from (word : string) (s : string) : list string :=
  match s with
  | EmptyString =>
      match word with
      | EmptyString => []
      | _ => [word]
      end
  | String c s' =>
      if is_space c then
        match word with
        | EmptyString => split_from EmptyString s'
        | _ => word :: split_from EmptyString s'
        end
      else split_from (word ++ String c EmptyString) s'
  end.

Definition py_split (s : string) : list string := split_from EmptyString s.

(** The characters of a string that are not white space, in order. *)
Fixpoint visible (s : string) : string :=
  match s with
  | EmptyString => EmptyString
  | String c s' => if is_space c then visible s' else String c (visible s')
  end.

(** The strings of a list, one after the other. *)
Fixpoint string_concat (l : list string) : string :=
  match l with
  | [] => ""
  | x :: l' => (x ++ string_concat l')%string
  end.

Fixpoint has_space (s : string) : bool :=
  match s with
  | EmptyString => false
  | String c s' => is_space c || has_space s'
  end.

(** ** Lengths and slices *)

(** [len(v)] *)
Definition py_len (v : pyval) : M nat :=
  match v with
  | PStr s => ret (String.length s)
  | PList l => ret (List.length l)
  | PDict d => ret (List.length (dict_keys d))
  | PNone | PInt _ => raise TypeError
  end.

(** [v[a:b]] for [0 <= a <= b]; past the end a slice is cut short. *)
Definition py_slice (a b : nat) (v : pyval) : M pyval :=
  match v with
  | PList l => ret (PList (firstn (b - a) (skipn a l)))
  | PStr s => ret (PStr (String.substring a (b - a) s))
  | PNone | PInt _ | PDict _ => raise TypeError
  end.

(** [l[:k]] on a list for an integer [k] of either sign: a negative
    bound counts from the end. *)
Definition slice_to {A} (k : Z) (l : list A) : list A :=
  if (k <? 0)%Z then firstn (Z.to_nat (Z.of_nat (List.length l) + k)) l
  else firstn (Z.to_nat k) l.

(** [range(0, n, step)] *)
Definition range_step (n step : nat) : list nat :=
  map (fun k => k * step) (seq 0 ((n + step - 1) / step)).

(** ** The news feeds: [fetch_news_feeds], [search_news_articles] *)

(** An entry of a parsed feed; [feedparser] leaves out the attributes
    the feed does not give. *)
Record FeedEntry : Type := {
  entry_title : option string;
  entry_link : option string;
  entry_published : option string
}.

(** [NEWS_SOURCES]: the name of a source and what
    [url_template.format(query=q)] gives for it. *)
Definition NEWS_SOURCES : list (string * (string -> string)) :=
  [("google_news",
    fun query => ("https://news.google.com/rss/search?q=" ++ query)%string);
   ("bing_news",
    fun query =>
      ("https://www.bing.com/news/search?q=" ++ query ++ "&format=rss")%string)].

Section Feeds.

(** What the function is given by the libraries: [urllib.parse.quote],
    the entries [feedparser.parse] reads at a URL (either may raise),
    and today's date as [datetime.now().strftime('%Y-%m-%d')] gives it
    when entry [k] of source [i] is read. *)
Variable quote : pyval -> M string.
Variable parse_entries : string -> M (list FeedEntry).
Variable today : nat -> nat -> string.

(** [entry.title] and [entry.link] raise when the attribute is
    missing. *)
Definition entry_attr (a : option string) : M pyval :=
  match a with
  | Some s => ret (PStr s)
  | None => raise AttributeError
  end.

(** The dictionary appended for an entry. *)
Definition article_of_entry (i k : nat) (entry : FeedEntry) : M pyval :=
  t <- entry_attr (entry_title entry) ;;
  l <- entry_attr (entry_link entry) ;;
  let published :=
    match entry_published entry with
    | Some p => p
    | None => today i k
    end in
  ret (PDict [("title", t); ("url", l); ("published", PStr published)]).

(** The inner [for]: what [articles] holds when the loop ends, normally
    or by the exception of an entry. *)
Fixpoint append_entries (i k : nat) (entries : list FeedEntry)
    (articles : list pyval) : list pyval :=
  match entries with
  | [] => articles
  | entry :: rest =>
      match article_of_entry i k entry with
      | inr a => append_entries i (S k) rest (articles ++ [a])
      | inl _ => articles
      end
  end.

(** One round of the outer [for]: the [try] block on source [i], whose
    handler only writes to the log. *)
Definition read_source (i : nat) (url_template : string -> string)
    (query : pyval) (num_results : Z) (articles : list pyval) : list pyval :=
  match (q <- quote query ;;
         entries <- parse_entries (url_template q) ;;
         ret (slice_to (num_results / 2) entries)) with
  | inr entries => append_entries i 0 entries articles
  | inl _ => articles
  end.

Fixpoint read_sources (i : nat) (sources : list (string * (string -> string)))
    (query : pyval) (num_results : Z) (articles : list pyval) : list pyval :=
  match sources with
  | [] => articles
  | (_, url_template) :: rest =>
      read_sources (S i) rest query num_results
                   (read_source i url_template query num_results articles)
  end.

Definition fetch_news_feeds (query : pyval) (num_results : Z) : list pyval :=
  read_sources 0 NEWS_SOURCES query num_results [].

Definition search_news_articles (company_name : pyval) (num_articles : Z)
  : list pyval :=
  let articles := fetch_news_feeds company_name num_articles in
  slice_to num_articles articles.

(** The articles of a list of entries, the [k]-th of source [i]
    first; an entry that is not complete has none. *)
Fixpoint articles_of (i k : nat) (entries : list FeedEntry) : M (list pyval) :=
  match entries with
  | [] => ret []
  | entry :: rest =>
      a <- article_of_entry i k entry ;;
      more <- articles_of i (S k) rest ;;
      ret (a :: more)
  end.

End Feeds.

(** An entry that has both a title and a link. *)
Definition complete_entry (entry : FeedEntry) : bool :=
  match entry_title entry, entry_link entry with
  | Some _, Some _ => true
  | _, _ => false
  end.

(** The entries before the first that is not complete. *)
Fixpoint readable (entries : list FeedEntry) : list FeedEntry :=
  match entries with
  | [] => []
  | entry :: rest => if complete_entry entry then entry :: readable rest else []
  end.

(** ** Summaries: [summarize_text] *)

Section Summaries.

(** What the function is given by the libraries: loading the
    summarization pipeline, the [summary_text] of the first result of
    the [k]-th call of the summarizer on a text with a [max_length] and
    a [min_length], and [nltk.sent_tokenize].  Each may raise. *)
Variable load_summarizer : M unit.
Variable summarizer : nat -> pyval -> Z -> Z -> M pyval.
Variable sent_tokenize : pyval -> M (list string).

(** [[text[i:i+1024] for i in range(0, len(text), 1024)]] *)
Definition text_chunks (text : pyval) : M (list pyval) :=
  n <- py_len text ;;
  mapM (fun i => py_slice i (i + 1024) text) (range_step n 1024).

(** The [for] over [chunks[:3]], from the [k]-th call on. *)
Fixpoint summarize_chunks (k : nat) (chunks : list pyval) (max_length : Z)
  : M (list pyval) :=
  match chunks with
  | [] => ret []
  | chunk :: rest =>
      summary <- summarizer k chunk max_length 30 ;;
      summaries <- summarize_chunks (S k) rest max_length ;;
      ret (summary :: summaries)
  end.

(** The [try] block. *)
Definition summarize_text_body (text : pyval) (max_length : Z) : M pyval :=
  _ <- load_summarizer ;;
  n <- py_len text ;;
  if Nat.ltb 1024 n then
    chunks <- text_chunks text ;;
    let first := firstn 3 chunks in
    summaries <-
      summarize_chunks 0 first (max_length / Z.of_nat (List.length first)) ;;
    s <- py_join " " (PList summaries) ;;
    ret (PStr s)
  else summarizer 0 text max_length 50.

(** The handler: the first three sentences, or the text when it has
    none. *)
Definition summarize_text_fallback (text : pyval) : M pyval :=
  sentences <- sent_tokenize text ;;
  ret (match sentences with
       | [] => text
       | _ => PStr (join " " (firstn 3 sentences))
       end).

Definition summarize_text (text : pyval) (max_length : Z) : M pyval :=
  if negb (py_truthy text) then ret text
  else
    n <- py_len text ;;
    if Nat.ltb n 100 then ret text
    else
      match summarize_text_body text max_length with
      | inr summary => ret summary
      | inl _ => summarize_text_fallback text
      end.

End Summaries.

(** The chunks of a string of more than 1024 characters that are
    summarized: [text[0:1024]], [text[1024:2048]], and [text[2048:3072]]
    when the text has more than 2048 characters. *)
Definition first_chunks (s : string) : list string :=
  [String.substring 0 1024 s; String.substring 1024 1024 s]
  ++ (if Nat.ltb 2048 (String.length s) then [String.substring 2048 1024 s]
      else []).

(** ** Sentiment of a text: [analyze_sentiment] *)

Definition float_0_1 : py_float := Eval vm_compute in Prim2SF 0.1%float.
Definition float_0_05 : py_float := Eval vm_compute in Prim2SF 0.05%float.
Definition float_0_0 : py_float := S754_zero false.

(** [x < y] on floats, and the unary minus. *)
Definition float_lt (x y : py_float) : bool := SFltb x y.
Definition float_neg (x : py_float) : py_float := SFopp x.

(** The dictionary [analyze_sentiment] returns: [label] and [score],
    and the two scores of the hybrid path. *)
Record SentimentResult : Type := {
  result_label : string;
  result_score : py_float;
  result_vader_score : option py_float;
  result_transformer_score : option py_float
}.

Definition neutral_result : SentimentResult :=
  {| result_label := "Neutral"; result_score := float_0_0;
     result_vader_score := None; result_transformer_score := None |}.

Section Sentiment.

(** What the function is given by the libraries: the [compound] score
    of VADER at its [k]-th use (0 in the [try] block, 1 in the
    handler), and the [label] and [score] of the first result of the
    transformer classifier.  Each may raise. *)
Variable vader_compound : nat -> pyval -> M py_float.
Variable classifier : pyval -> M (string * py_float).

(** The [try] block. *)
Definition analyze_sentiment_body (text : pyval) : M SentimentResult :=
  compound <- vader_compound 0 text ;;
  shortened_text <- py_slice_to 512 text ;;
  transformer_result <- classifier shortened_text ;;
  let transformer_score := snd transformer_result in
  let transformer_score :=
    if String.eqb (fst transformer_result) "NEGATIVE"
    then float_neg transformer_score else transformer_score in
  let final_score :=
    SFadd prec emax (SFmul prec emax float_0_4 compound)
                    (SFmul prec emax float_0_6 transformer_score) in
  let label :=
    if float_gt final_score float_0_1 then "Positive"
    else if float_lt final_score (float_neg float_0_1) then "Negative"
    else "Neutral" in
  ret {| result_label := label; result_score := final_score;
         result_vader_score := Some compound;
         result_transformer_score := Some transformer_score |}.

(** The handler, with its own handler inside. *)
Definition analyze_sentiment_fallback (text : pyval) : SentimentResult :=
  try_except
    (compound <- vader_compound 1 text ;;
     let label :=
       if float_gt compound float_0_05 then "Positive"
       else if float_lt compound (float_neg float_0_05) then "Negative"
       else "Neutral" in
     ret {| result_label := label; result_score := compound;
            result_vader_score := None; result_transformer_score := None |})
    (fun _ => neutral_result).

Definition analyze_sentiment (text : pyval) : SentimentResult :=
  if negb (py_truthy text) then neutral_result
  else
    match analyze_sentiment_body text with
    | inr result => result
    | inl _ => analyze_sentiment_fallback text
    end.

End Sentiment.

(** The article record a result labels. *)
Definition labelled_by (r : SentimentResult) : ArticleRecord :=
  {| title := None;
     sentiment := Some {| label := Some (result_label r); sentiment_rest := [] |};
     topics := None; article_rest := [] |}.

(** ** Topics of a text: [extract_topics] *)

(** The order in which [sorted(..., key=score, reverse=True)] returns
    the items: some rearrangement of them (by falling score; Python
    fixes no order when a score is not a number). *)
Class ScoreOrder : Type := {
  sorted_by_score : list (string * py_float) -> list (string * py_float);
  sorted_by_score_perm : forall l, Permutation (sorted_by_score l) l
}.

(** Insertion of an item that came before the others: it goes behind
    the items of a greater score and before the first item whose score
    is not greater, so that items of equal score keep their order. *)
Fixpoint insert_by_score (x : string * py_float) (l : list (string * py_float))
  : list (string * py_float) :=
  match l with
  | [] => [x]
  | y :: l' =>
      if float_lt (snd x) (snd y) then y :: insert_by_score x l' else x :: l
  end.

(** Falling scores, items of equal score in their order: [sorted] is
    stable, also with [reverse=True]. *)
Definition falling_scores : ScoreOrder :=
  {| sorted_by_score := fun l => fold_right insert_by_score [] l;
     sorted_by_score_perm :=
       fun l =>
         list_ind (fun l => Permutation (fold_right insert_by_score [] l) l)
           (perm_nil _)
           (fun x l IH =>
              perm_trans
                (list_ind
                   (fun m => Permutation (insert_by_score x m) (x :: m))
                   (Permutation_refl _)
                   (fun y m IHm =>
                      match float_lt (snd x) (snd y) as b
                        return Permutation
                                 (if b then y :: insert_by_score x m
                                  else x :: y :: m)
                                 (x :: y :: m)
                      with
                      | true =>
                          perm_trans (perm_skip y IHm) (perm_swap x y m)
                      | false => Permutation_refl _
                      end)
                   (fold_right insert_by_score [] l))
                (perm_skip x IH))
           l |}.

(** [d[k] = v] on a dictionary kept as the list of its items. *)
Fixpoint dict_set {A} (k : string) (v : A) (d : list (string * A))
  : list (string * A) :=
  match d with
  | [] => [(k, v)]
  | (k', v') :: d' =>
      if String.eqb k k' then (k', v) :: d' else (k', v') :: dict_set k v d'
  end.

Definition entity_labels : list string :=
  ["ORG"; "PRODUCT"; "PERSON"; "GPE"; "LOC"; "MONEY"; "PERCENT"].

Definition not_enough_content : list pyval := [PStr "Not enough content"].
Definition topic_extraction_failed : list pyval := [PStr "Topic extraction failed"].

Section Topics.
Context {order : SetOrder} {scores_order : ScoreOrder}.

(** What the function is given by the libraries: the text and the
    label of each entity spaCy finds, the set-up of the stop words and
    of the vectorizer, and the feature names and the scores TF-IDF
    computes.  Each may raise. *)
Variable nlp_ents : pyval -> M (list (string * string)).
Variable tfidf_setup : M unit.
Variable tfidf : pyval -> M (list string * list py_float).

(** [{feature_names[i]: scores[i] for i in range(len(feature_names))}] *)
Fixpoint word_scores_from (word_scores : list (string * py_float))
    (feature_names : list string) (scores : list py_float)
  : M (list (string * py_float)) :=
  match feature_names, scores with
  | [], _ => ret word_scores
  | _ :: _, [] => raise IndexError
  | name :: names, score :: scores' =>
      word_scores_from (dict_set name score word_scores) names scores'
  end.

(** The inner [try] block and its bare [except]. *)
Definition keywords_of (text : pyval) (num_topics : Z) : list string :=
  try_except
    (features <- tfidf text ;;
     word_scores <- word_scores_from [] (fst features) (snd features) ;;
     let sorted_words := sorted_by_score word_scores in
     ret (map fst (slice_to num_topics sorted_words)))
    (fun _ => []).

(** The outer [try] block. *)
Definition extract_topics_body (text : pyval) (num_topics : Z)
  : M (list pyval) :=
  shortened <- py_slice_to 5000 text ;;
  ents <- nlp_ents shortened ;;
  let entities :=
    map fst (filter (fun ent => str_mem (snd ent) entity_labels) ents) in
  _ <- tfidf_setup ;;
  let keywords := keywords_of text num_topics in
  let combined :=
    map of_hashable (set_iter (set_of_list (map HStr (entities ++ keywords)))) in
  ret (slice_to num_topics combined).

Definition extract_topics (text : pyval) (num_topics : Z) : M (list pyval) :=
  if negb (py_truthy text) then ret not_enough_content
  else
    n <- py_len text ;;
    if Nat.ltb n 100 then ret not_enough_content
    else
      ret (try_except (extract_topics_body text num_topics)
                      (fun _ => topic_extraction_failed)).

End Topics.

(** ** Further notions of the properties *)

(** The narrative [generate_final_sentiment_text] has for a verdict. *)
Definition narrative (name verdict : string) : string :=
  if String.eqb verdict "Very Positive" then
    (name ++ "'s latest news coverage is overwhelmingly positive. "
     ++ "The company is receiving favorable attention which may indicate strong performance.")%string
  else if String.eqb verdict "Moderately Positive" then
    (name ++ "'s recent news coverage leans positive. "
     ++ "The company appears to be performing well despite some challenges.")%string
  else if String.eqb verdict "Very Negative" then
    (name ++ "'s latest news coverage is predominantly negative. "
     ++ "The company may be facing significant challenges that could impact its performance.")%string
  else if String.eqb verdict "Moderately Negative" then
    (name ++ "'s recent news coverage tends to be negative. "
     ++ "The company appears to be facing some challenges that warrant attention.")%string
  else
    (name ++ "'s recent news coverage shows mixed sentiment. "
     ++ "The company has both positive developments and challenges to navigate.")%string.

Definition no_reliable_data (name : string) : string :=
  ("No reliable sentiment data available for " ++ name ++ ".")%string.

(** What [compare_articles] reads of an article record. *)
Definition read_part (a : ArticleRecord) : option string * option string * option (list string) :=
  (title a, label_of a, topics a).

(** ** Sample libraries and texts *)

(** A feed of four entries, the third without a title. *)
Definition sample_entries : list FeedEntry :=
  [{| entry_title := Some "Acme rises";
      entry_link := Some "https://example.org/1";
      entry_published := Some "2024-05-01" |};
   {| entry_title := Some "Acme falls";
      entry_link := Some "https://example.org/2";
      entry_published := None |};
   {| entry_title := None;
      entry_link := Some "https://example.org/3";
      entry_published := None |};
   {| entry_title := Some "Acme again";
      entry_link := Some "https://example.org/4";
      entry_published := None |}].

Definition sample_parse (url : string) : M (list FeedEntry) := ret sample_entries.

Definition sample_today (i k : nat) : string := "2024-05-02".

(** [n] copies of a string, one after the other. *)
Fixpoint replicate (n : nat) (s : string) : string :=
  match n with
  | O => ""
  | S n' => (s ++ replicate n' s)%string
  end.

(** A summarizer that answers with the first eight characters. *)
Definition sample_summarizer (k : nat) (text : pyval) (max_length min_length : Z)
  : M pyval :=
  py_slice_to 8 text.

Definition sample_sent_tokenize (text : pyval) : M (list string) := ret [].

Definition sample_ents (text : pyval) : M (list (string * string)) :=
  ret [("Acme", "ORG"); ("Monday", "DATE"); ("Paris", "GPE")].

Definition sample_tfidf (text : pyval) : M (list string * list py_float) :=
  ret (["growth"; "market"; "Acme"], [float_0_3; float_0_6; float_0_4]).

(** Two articles, one of them with topics. *)
Definition single_topic_set : list ArticleRecord :=
  [article (Some "First") (Some "Neutral") (Some ["X"; "Y"]);
   article None (Some "Positive") None].

(** [sharing_X] with other fields beside the title, the label and the
    topics. *)
Definition sharing_X_bare : list ArticleRecord :=
  [{| title := None;
      sentiment := Some {| label := Some "Neutral"; sentiment_rest := [] |};
      topics := Some ["X"; "A"; "B"];
      article_rest := [("source", PStr "example.org")] |};
   {| title := None;
      sentiment := Some {| label := Some "Neutral"; sentiment_rest := [] |};
      topics := Some ["X"];
      article_rest := [] |}].

(** * Properties *)

(** ** Binary64 arithmetic does not overflow on the engine's numbers *)

Section FloatBounds.
Local Open Scope Z_scope.

Lemma fexp_eq x : fexp prec emax x = Z.max (x - 53) (-1074).
Proof. reflexivity. Qed.

Lemma digits2_pos_size p : digits2_pos p = Pos.size p.
Proof. induction p; simpl; congruence. Qed.

Lemma Zdigits2_nonneg z : 0 <= Zdigits2 z.
Proof. destruct z; simpl; lia. Qed.

Lemma Zdigits2_gt z : 0 <= z -> z < 2 ^ Zdigits2 z.
Proof.
  destruct z as [|p|p]; simpl Zdigits2; intros H; [reflexivity| |lia].
  rewrite digits2_pos_size.
  change 2 with (Zpos 2). rewrite <- Pos2Z.inj_pow.
  apply Pos2Z.pos_lt_pos, Pos.size_gt.
Qed.

Lemma Zdigits2_le z k : 0 <= z < 2 ^ k -> 0 <= k -> Zdigits2 z <= k.
Proof.
  destruct z as [|p|p]; simpl Zdigits2; intros [H0 H] Hk; [exact Hk| |lia].
  rewrite digits2_pos_size.
  assert (L : 2 ^ Zpos (Pos.size p) <= 2 * Zpos p).
  { change 2 with (Zpos 2) at 1. rewrite <- Pos2Z.inj_pow.
    change (2 * Zpos p) with (Zpos p~0). apply Pos2Z.pos_le_pos, Pos.size_le. }
  assert (L2 : 2 ^ Zpos (Pos.size p) < 2 ^ (k + 1)).
  { rewrite Z.pow_add_r by lia. lia. }
  apply Z.pow_lt_mono_r_iff in L2; lia.
Qed.

Lemma shr_record_of_loc_m m l : shr_m (shr_record_of_loc m l) = m.
Proof. destruct l as [|[]]; reflexivity. Qed.

Lemma shr_1_m mrs : 0 <= shr_m mrs -> shr_m (shr_1 mrs) = shr_m mrs / 2.
Proof.
  destruct mrs as [m r s]; simpl shr_m at 1 2; intros H.
  destruct m as [|[p|p|]|p]; simpl; try reflexivity; try lia.
  - apply Z.div_unique with 1; lia.
  - apply Z.div_unique with 0; lia.
Qed.

Lemma pow2_xI p : 2 ^ Zpos p~1 = 2 * (2 ^ Zpos p * 2 ^ Zpos p).
Proof.
  replace (Zpos p~1) with (1 + Zpos p + Zpos p) by lia.
  rewrite !Z.pow_add_r by lia. change (2 ^ 1) with 2. ring.
Qed.

Lemma pow2_xO p : 2 ^ Zpos p~0 = 2 ^ Zpos p * 2 ^ Zpos p.
Proof.
  replace (Zpos p~0) with (Zpos p + Zpos p) by lia.
  rewrite Z.pow_add_r by lia. reflexivity.
Qed.

Lemma iter_shr_1_m p :
  forall mrs, 0 <= shr_m mrs ->
    shr_m (iter_pos shr_1 p mrs) = shr_m mrs / 2 ^ Zpos p.
Proof.
  assert (Hnn : forall a b, 0 <= a -> 0 < b -> 0 <= a / b)
    by (intros; apply Z.div_pos; lia).
  assert (Hp : forall q, 0 < 2 ^ Zpos q) by (intros; apply Z.pow_pos_nonneg; lia).
  induction p as [p IH|p IH|]; intros mrs H; simpl iter_pos.
  - assert (H1 : 0 <= shr_m (shr_1 mrs))
      by (rewrite shr_1_m by auto; apply Hnn; lia).
    assert (H2 : 0 <= shr_m (iter_pos shr_1 p (shr_1 mrs)))
      by (rewrite IH by auto; apply Hnn; auto).
    rewrite IH, IH, shr_1_m by auto.
    rewrite !Z.div_div by (specialize (Hp p); lia).
    rewrite pow2_xI. reflexivity.
  - assert (H2 : 0 <= shr_m (iter_pos shr_1 p mrs))
      by (rewrite IH by auto; apply Hnn; auto).
    rewrite IH, IH by auto.
    rewrite !Z.div_div by (specialize (Hp p); lia).
    rewrite pow2_xO. reflexivity.
  - rewrite shr_1_m by auto. reflexivity.
Qed.

(** One alignment step keeps the mantissa non-negative, does not raise
    the magnitude, and moves the exponent to [fexp] at most. *)
Lemma shr_fexp_bound m e l K :
  0 <= m -> Zdigits2 m + e <= K -> 0 <= K ->
  0 <= shr_m (fst (shr_fexp prec emax m e l)) /\
  Zdigits2 (shr_m (fst (shr_fexp prec emax m e l)))
    + snd (shr_fexp prec emax m e l) <= K /\
  snd (shr_fexp prec emax m e l) <= Z.max e (K - 53).
Proof.
  intros Hm HK K0. unfold shr_fexp, shr. rewrite fexp_eq.
  destruct (Z.max (Zdigits2 m + e - 53) (-1074) - e) as [|p|p] eqn:En;
    cbn [fst snd]; rewrite ?shr_record_of_loc_m.
  - repeat split; lia.
  - rewrite iter_shr_1_m by (rewrite shr_record_of_loc_m; exact Hm).
    rewrite shr_record_of_loc_m.
    assert (P2 : 0 < 2 ^ Zpos p) by (apply Z.pow_pos_nonneg; lia).
    assert (Q0 : 0 <= m / 2 ^ Zpos p) by (apply Z.div_pos; lia).
    pose proof (Zdigits2_gt m Hm) as G.
    pose proof (Zdigits2_nonneg m) as D0.
    split; [exact Q0|]. split; [|lia].
    destruct (Z_le_gt_dec (Zpos p) (Zdigits2 m)) as [Le|Gt].
    + assert (Zdigits2 (m / 2 ^ Zpos p) <= Zdigits2 m - Zpos p); [|lia].
      apply Zdigits2_le; [|lia]. split; [exact Q0|].
      apply Z.div_lt_upper_bound; [lia|].
      rewrite <- Z.pow_add_r by lia.
      replace (Zpos p + (Zdigits2 m - Zpos p)) with (Zdigits2 m) by lia. exact G.
    + rewrite Z.div_small.
      * simpl Zdigits2. lia.
      * split; [exact Hm|]. eapply Z.lt_le_trans; [exact G|].
        apply Z.pow_le_mono_r; lia.
  - repeat split; lia.
Qed.

Lemma round_nearest_even_bound m l :
  0 <= m ->
  0 <= round_nearest_even m l /\
  Zdigits2 (round_nearest_even m l) <= Zdigits2 m + 1.
Proof.
  intros Hm.
  assert (C : round_nearest_even m l = m \/ round_nearest_even m l = m + 1).
  { destruct l as [|[]]; simpl; auto. destruct (Z.even m); auto. }
  pose proof (Zdigits2_gt m Hm) as G.
  pose proof (Zdigits2_nonneg m) as D0.
  destruct C as [-> | ->]; split; try lia.
  apply Zdigits2_le; [|lia]. rewrite Z.pow_add_r by lia. lia.
Qed.


(** Rounding a number of magnitude below [2 ^ K], [K <= 1023], gives a
    zero or a finite float: it does not overflow. *)
Lemma binary_round_aux_bounded s m e l K :
  0 <= m -> Zdigits2 m + e <= K -> 0 <= K -> K <= 1023 -> e <= 971 ->
  bounded_float (K + 1) (binary_round_aux prec emax s m e l).
Proof.
  intros Hm HK K0 K1 He. unfold binary_round_aux.
  pose proof (shr_fexp_bound m e l K Hm HK K0) as (A1 & A2 & A3).
  destruct (shr_fexp prec emax m e l) as [mrs1 e1]; cbn [fst snd] in *.
  pose proof (round_nearest_even_bound (shr_m mrs1) (loc_of_shr_record mrs1) A1)
    as (B1 & B2).
  set (m2 := round_nearest_even (shr_m mrs1) (loc_of_shr_record mrs1)) in *.
  assert (HK2 : Zdigits2 m2 + e1 <= K + 1) by lia.
  pose proof (shr_fexp_bound m2 e1 loc_Exact (K + 1) B1 HK2 ltac:(lia))
    as (C1 & C2 & C3).
  destruct (shr_fexp prec emax m2 e1 loc_Exact) as [mrs2 e2]; cbn [fst snd] in *.
  destruct (shr_m mrs2) as [|p|p] eqn:Em; simpl; try exact I; try lia.
  assert (L : e2 <= 971) by lia.
  apply Z.leb_le in L. change (emax - prec) with 971. rewrite L.
  simpl. apply Z.leb_le in L. split; [exact C2 | exact L].
Qed.


Lemma digits2_iter_xO d m :
  Zpos (digits2_pos (Pos.iter xO m d)) = Zpos (digits2_pos m) + Zpos d.
Proof.
  induction d as [|d IH] using Pos.peano_ind.
  - simpl. lia.
  - rewrite Pos.iter_succ. simpl digits2_pos. lia.
Qed.

Lemma binary_normalize_bounded n K :
  0 <= n < 2 ^ K -> 0 <= K -> K <= 1023 ->
  bounded_float (K + 1) (binary_normalize prec emax n 0 false).
Proof.
  intros [N0 NK] K0 K1.
  destruct n as [|m|m]; [exact I| |lia].
  unfold binary_normalize, binary_round, shl_align. rewrite fexp_eq.
  pose proof (Zdigits2_le (Zpos m) K (conj N0 NK) K0) as D. simpl Zdigits2 in D.
  destruct (Z.max (Zpos (digits2_pos m) + 0 - 53) (-1074) - 0) as [|d|d] eqn:E.
  - apply binary_round_aux_bounded; simpl Zdigits2; lia.
  - apply binary_round_aux_bounded; simpl Zdigits2; lia.
  - apply binary_round_aux_bounded; simpl Zdigits2;
      rewrite ?digits2_iter_xO; lia.
Qed.

Lemma bounded_not_infinite K f : bounded_float K f -> is_infinite f = false.
Proof. destruct f; simpl; intros H; try reflexivity; contradiction. Qed.

Lemma float_of_int_fits n :
  0 <= n <= max_size ->
  float_of_int n = ret (binary_normalize prec emax n 0 false).
Proof.
  intros H. unfold float_of_int.
  rewrite (bounded_not_infinite 64); [reflexivity|].
  apply (binary_normalize_bounded n 63); unfold max_size in H; lia.
Qed.


Lemma Zdigits2_mul a b :
  0 <= a -> 0 <= b -> Zdigits2 (a * b) <= Zdigits2 a + Zdigits2 b.
Proof.
  intros A B. pose proof (Zdigits2_gt a A). pose proof (Zdigits2_gt b B).
  pose proof (Zdigits2_nonneg a). pose proof (Zdigits2_nonneg b).
  apply Zdigits2_le; [|lia]. rewrite Z.pow_add_r by lia. nia.
Qed.

Lemma scaled_count_bounded n :
  0 <= n <= max_size -> bounded_float 64 (scaled_count n).
Proof.
  intros H. unfold scaled_count.
  pose proof (binary_normalize_bounded n 63) as B.
  unfold max_size in H. specialize (B ltac:(lia) ltac:(lia) ltac:(lia)).
  destruct (binary_normalize prec emax n 0 false) as [s| | |s m e];
    try contradiction; [exact I|].
  destruct B as [B1 B2]. unfold float_0_3, SFmul.
  apply (binary_round_aux_bounded _ _ _ _ 63); try lia.
  change (Zpos (m * 5404319552844595)) with (Zpos m * 5404319552844595).
  pose proof (Zdigits2_mul (Zpos m) 5404319552844595 ltac:(lia) ltac:(lia)) as M.
  change (Zdigits2 5404319552844595) with 53 in M. lia.
Qed.

Lemma int_mul_float_fits n :
  0 <= n <= max_size -> int_mul_float n float_0_3 = ret (scaled_count n).
Proof.
  intros H. unfold int_mul_float. rewrite float_of_int_fits by exact H.
  reflexivity.
Qed.

(** A quotient of at most one does not overflow. *)
Lemma int_truediv_fits p t :
  0 <= p <= t -> 0 < t ->
  int_truediv p t = ret (SFdiv prec emax (raw_of_Z p) (raw_of_Z t))
  /\ bounded_float 2 (SFdiv prec emax (raw_of_Z p) (raw_of_Z t)).
Proof.
  intros Hp Ht.
  assert (B : bounded_float 2 (SFdiv prec emax (raw_of_Z p) (raw_of_Z t))).
  { destruct t as [|mt|mt]; try lia. destruct p as [|mp|mp]; try lia; [exact I|].
    unfold raw_of_Z, SFdiv, SFdiv_core_binary. rewrite fexp_eq.
    set (e' := Z.min _ (0 - 0)).
    assert (E0 : e' <= 0) by (subst e'; lia).
    set (m' := match 0 - 0 - e' with Z0 => Zpos mp | Zpos _ => Z.shiftl (Zpos mp) (0 - 0 - e') | Zneg _ => 0 end).
    assert (M : m' = Zpos mp * 2 ^ (- e')).
    { subst m'. destruct (0 - 0 - e') as [|s|s] eqn:Es.
      - replace (- e') with 0 by lia. lia.
      - rewrite Z.shiftl_mul_pow2 by lia. f_equal. f_equal. lia.
      - lia. }
    assert (P2 : 0 < 2 ^ (- e')) by (apply Z.pow_pos_nonneg; lia).
    pose proof (Z_div_mod m' (Zpos mt) ltac:(lia)) as DM.
    destruct (Z.div_eucl m' (Zpos mt)) as [q r]. destruct DM as [DM1 DM2].
    assert (Q0 : 0 <= q) by nia.
    assert (Q1 : q <= 2 ^ (- e')) by nia.
    apply (binary_round_aux_bounded _ _ _ _ 1); try lia.
    assert (Zdigits2 q <= - e' + 1); [|lia].
    apply Zdigits2_le; [|lia]. rewrite Z.pow_add_r by lia. lia. }
  split; [|exact B].
  unfold int_truediv. replace (t =? 0) with false by (symmetry; apply Z.eqb_neq; lia).
  rewrite (bounded_not_infinite 2) by exact B. reflexivity.
Qed.

(** Comparing an integer with a float is comparing it with the ceiling
    of the float. *)
Lemma float_compare_int_ceil K x z :
  bounded_float K x ->
  float_compare_int x z = Some (float_ceil x ?= z) \/
  (float_compare_int x z = Some Lt /\ float_ceil x <= z).
Proof.
  intros B. destruct x as [s| | |s m e]; try contradiction.
  - left. reflexivity.
  - unfold float_compare_int, float_ceil.
    set (v := if s then Zneg m else Zpos m).
    destruct (0 <=? e) eqn:E; [left; reflexivity|].
    apply Z.leb_gt in E.
    assert (P2 : 0 < 2 ^ (- e)) by (apply Z.pow_pos_nonneg; lia).
    set (k := 2 ^ (- e)) in *.
    pose proof (Z_div_mod_eq_full (- v) k) as DM.
    pose proof (Z.mod_pos_bound (- v) k P2) as MB.
    set (c := - (- v / k)) in *.
    destruct (v ?= z * k) eqn:C1;
      [apply Z.compare_eq_iff in C1 | rewrite Z.compare_lt_iff in C1
       | rewrite Z.compare_gt_iff in C1].
    + left. f_equal. symmetry. apply Z.compare_eq_iff. nia.
    + right. split; [reflexivity | nia].
    + left. f_equal. symmetry. apply Z.compare_gt_iff. nia.
Qed.

Lemma float_gt_int_ceil K x z :
  bounded_float K x -> float_gt_int x z = (z <? float_ceil x).
Proof.
  intros B. unfold float_gt_int.
  destruct (float_compare_int_ceil K x z B) as [-> | [-> L]].
  - rewrite Z.ltb_compare, (Z.compare_antisym (float_ceil x) z).
    destruct (float_ceil x ?= z); reflexivity.
  - symmetry. apply Z.ltb_ge. exact L.
Qed.

Lemma int_ge_float_ceil K x z :
  bounded_float K x -> int_ge_float z x = (float_ceil x <=? z).
Proof.
  intros B. unfold int_ge_float.
  destruct (float_compare_int_ceil K x z B) as [-> | [-> L]].
  - rewrite Z.leb_compare. destruct (float_ceil x ?= z); reflexivity.
  - symmetry. apply Z.leb_le. exact L.
Qed.

(** [count >= max(2, x)] compares [count] with [max(2, ceil(x))]. *)
Lemma int_ge_py_max K x count :
  bounded_float K x ->
  int_ge count (py_max 2 x) = (Z.max 2 (float_ceil x) <=? count).
Proof.
  intros B. unfold py_max. rewrite (float_gt_int_ceil K) by exact B.
  destruct (2 <? float_ceil x) eqn:C; simpl.
  - apply Z.ltb_lt in C. rewrite (int_ge_float_ceil K) by exact B.
    f_equal. lia.
  - apply Z.ltb_ge in C. f_equal. lia.
Qed.

End FloatBounds.
(** ** Reading the fields of an article record *)

Lemma dict_lookup_app {A} k (d1 d2 : list (string * A)) :
  dict_lookup k (d1 ++ d2) =
  match dict_lookup k d1 with
  | Some v => Some v
  | None => dict_lookup k d2
  end.
Proof.
  induction d1 as [|[k' v] d1 IH]; simpl; [reflexivity|].
  destruct (String.eqb k k'); [reflexivity | exact IH].
Qed.

Lemma dict_lookup_without k ks d :
  str_mem k ks = true -> dict_lookup k (without ks d) = None.
Proof.
  intros Hk. induction d as [|[k' v] d IH]; simpl; [reflexivity|].
  destruct (str_mem k' ks) eqn:E; simpl; [exact IH|].
  destruct (String.eqb k k') eqn:Ek; [|exact IH].
  apply String.eqb_eq in Ek. subst k'. congruence.
Qed.

Lemma get_sentiment a :
  py_get (to_py a) "sentiment" (PDict []) =
  ret (match sentiment a with
       | Some s => sentiment_to_py s
       | None => PDict []
       end).
Proof.
  unfold to_py, py_get. rewrite !dict_lookup_app.
  destruct (title a), (sentiment a), (topics a); simpl;
    rewrite ?dict_lookup_without by reflexivity; reflexivity.
Qed.

Lemma sentiment_label_to_py a default :
  sentiment_label (to_py a) default =
  ret (match label_of a with
       | Some l => PStr l
       | None => default
       end).
Proof.
  unfold sentiment_label. rewrite get_sentiment. unfold label_of.
  destruct (sentiment a) as [s|]; simpl; [|reflexivity].
  rewrite dict_lookup_app.
  destruct (label s); simpl;
    rewrite ?dict_lookup_without by reflexivity; reflexivity.
Qed.

Lemma get_title a default :
  py_get (to_py a) "title" default =
  ret (match title a with
       | Some t => PStr t
       | None => default
       end).
Proof.
  unfold to_py, py_get. rewrite !dict_lookup_app.
  destruct (title a), (sentiment a), (topics a); simpl;
    rewrite ?dict_lookup_without by reflexivity; reflexivity.
Qed.

Lemma get_topics a :
  py_get (to_py a) "topics" (PList []) = ret (PList (map PStr (topics_of a))).
Proof.
  unfold to_py, py_get, topics_of. rewrite !dict_lookup_app.
  destruct (title a), (sentiment a), (topics a); simpl;
    rewrite ?dict_lookup_without by reflexivity; reflexivity.
Qed.

Lemma in_topics a : py_in "topics" (to_py a) = ret (has_topics a).
Proof.
  unfold to_py, py_in, has_topics. rewrite !dict_lookup_app.
  destruct (title a), (sentiment a), (topics a); simpl;
    rewrite ?dict_lookup_without by reflexivity; reflexivity.
Qed.

Lemma label_eqb_eq x y : label_eqb x y = true <-> x = y.
Proof.
  destruct x as [s|], y as [t|]; simpl; try (split; congruence).
  rewrite String.eqb_eq. split; congruence.
Qed.

Lemma py_eq_compared a b :
  py_eq (compared_label a) (compared_label b) =
  label_eqb (label_of a) (label_of b).
Proof.
  unfold compared_label. destruct (label_of a), (label_of b); reflexivity.
Qed.

Lemma py_eq_has_label name a :
  py_eq (compared_label a) (PStr name) = has_label name a.
Proof.
  unfold compared_label, has_label. destruct (label_of a); reflexivity.
Qed.

Lemma has_label_eq name a : has_label name a = true <-> label_of a = Some name.
Proof.
  unfold has_label. destruct (label_of a) as [l|]; [|split; discriminate].
  rewrite String.eqb_eq. split; congruence.
Qed.

(** ** The sentiment counts of a batch *)

Lemma count_label_from name articles acc :
  foldM (fun (n : Z) (a : pyval) =>
           l <- sentiment_label a PNone ;;
           ret (if py_eq l (PStr name) then n + 1 else n)%Z)
        acc (map to_py articles)
  = ret (acc + count_of name articles)%Z.
Proof.
  revert acc. induction articles as [|a articles IH]; intros acc.
  - simpl. unfold count_of. simpl. f_equal. lia.
  - simpl. rewrite sentiment_label_to_py. simpl.
    fold (compared_label a). rewrite py_eq_has_label, IH.
    unfold count_of. simpl filter.
    destruct (has_label name a); simpl List.length; f_equal; lia.
Qed.

Lemma count_label_batch name articles :
  count_label (map to_py articles) name = ret (count_of name articles).
Proof. unfold count_label. rewrite count_label_from. reflexivity. Qed.

(** ** The topic sets of a batch *)

Lemma mapM_to_hashable ts : mapM to_hashable (map PStr ts) = ret (map HStr ts).
Proof.
  induction ts as [|t ts IH]; simpl; [reflexivity|]. rewrite IH. reflexivity.
Qed.

Lemma py_set_strs ts :
  py_set (PList (map PStr ts)) = ret (set_of_list (map HStr ts)).
Proof. unfold py_set. simpl. rewrite mapM_to_hashable. reflexivity. Qed.

Lemma topic_sets_batch articles :
  topic_sets (map to_py articles) = ret (all_topics_of articles).
Proof.
  unfold all_topics_of, topic_bearing.
  induction articles as [|a articles IH]; [reflexivity|].
  cbn [map topic_sets]. rewrite in_topics. cbn [bind ret].
  simpl filter. destruct (has_topics a).
  - rewrite get_topics. cbn [bind ret]. rewrite py_set_strs. cbn [bind ret].
    rewrite IH. reflexivity.
  - exact IH.
Qed.

(** ** The pair loop on a batch *)

Lemma mapM_as_str ts : mapM as_str (map PStr ts) = ret ts.
Proof.
  induction ts as [|t ts IH]; simpl; [reflexivity|]. rewrite IH. reflexivity.
Qed.

Lemma py_join_strs sep ts : py_join sep (PList (map PStr ts)) = ret (join sep ts).
Proof. unfold py_join. simpl. rewrite mapM_as_str. reflexivity. Qed.

Lemma about_topics a :
  (if py_truthy (PList (firstn 3 (map PStr (topics_of a))))
   then py_join ", " (PList (firstn 3 (map PStr (topics_of a))))
   else ret "the subject")
  = ret (about a).
Proof.
  unfold about. rewrite firstn_map.
  destruct (firstn 3 (topics_of a)) as [|t ts] eqn:E; [reflexivity|].
  rewrite py_join_strs. reflexivity.
Qed.

Lemma py_index_batch articles i :
  i < List.length articles ->
  py_index (map to_py articles) i = ret (to_py (article_at articles i)).
Proof.
  intros H. unfold py_index, article_at.
  rewrite nth_error_map.
  rewrite (nth_error_nth' articles empty_article H). reflexivity.
Qed.

Lemma shown_label_to_py a :
  sentiment_label (to_py a) (PStr "Unknown") = ret (PStr (shown_label a)).
Proof.
  rewrite sentiment_label_to_py. unfold shown_label.
  destruct (label_of a); reflexivity.
Qed.

Lemma coverage_difference_batch articles i j :
  i < List.length articles -> j < List.length articles ->
  coverage_difference (map to_py articles) i j =
  ret (if negb (label_eqb (label_of (article_at articles i))
                          (label_of (article_at articles j)))
       then Some (difference_at articles (i, j))
       else None).
Proof.
  intros Hi Hj. unfold coverage_difference.
  rewrite !py_index_batch by assumption. cbn [bind ret].
  set (a := article_at articles i). set (b := article_at articles j).
  rewrite !shown_label_to_py, !sentiment_label_to_py. cbn [bind ret].
  fold (compared_label a). fold (compared_label b).
  rewrite py_eq_compared.
  destruct (label_eqb (label_of a) (label_of b)); [reflexivity|].
  cbn [negb]. rewrite !get_topics. cbn [bind ret py_slice_to].
  rewrite !get_title. cbn [bind ret].
  rewrite !about_topics. cbn [bind ret].
  unfold difference_at, comparison_text, title_or. cbn [fst snd].
  fold a. fold b.
  destruct (title a), (title b); reflexivity.
Qed.

Lemma foldM_collect {A B} (f : A -> M (option B)) (g : A -> option B) l acc :
  (forall x, In x l -> f x = ret (g x)) ->
  foldM (fun acc x =>
           d <- f x ;;
           ret (match d with
                | Some c => acc ++ [c]
                | None => acc
                end)) acc l
  = ret (acc ++ flat_map (fun x => match g x with
                                   | Some c => [c]
                                   | None => []
                                   end) l).
Proof.
  revert acc. induction l as [|x l IH]; intros acc H.
  - simpl. rewrite app_nil_r. reflexivity.
  - cbn [foldM flat_map]. rewrite (H x (or_introl eq_refl)). cbn [bind ret].
    rewrite IH by (intros y Hy; apply H; right; exact Hy).
    destruct (g x); simpl; rewrite <- ?app_assoc; reflexivity.
Qed.

Lemma foldM_append {A B} (h : list B -> A -> M (list B)) (F : A -> list B) l acc :
  (forall x acc, In x l -> h acc x = ret (acc ++ F x)) ->
  foldM h acc l = ret (acc ++ flat_map F l).
Proof.
  revert acc. induction l as [|x l IH]; intros acc H.
  - simpl. rewrite app_nil_r. reflexivity.
  - cbn [foldM flat_map]. rewrite (H x acc (or_introl eq_refl)). cbn [bind ret].
    rewrite IH by (intros y acc' Hy; apply H; right; exact Hy).
    rewrite <- app_assoc. reflexivity.
Qed.

Lemma range_window i n :
  i < n ->
  range (i + 1) (Nat.min (i + 3) n) = filter (fun j => Nat.ltb j n) [i + 1; i + 2].
Proof.
  intros H. unfold range. simpl filter.
  destruct (Nat.ltb (i + 1) n) eqn:E1; destruct (Nat.ltb (i + 2) n) eqn:E2;
    rewrite ?Nat.ltb_lt, ?Nat.ltb_ge in *.
  - replace (Nat.min (i + 3) n - (i + 1)) with 2 by lia.
    simpl. repeat f_equal; lia.
  - replace (Nat.min (i + 3) n - (i + 1)) with 1 by lia. reflexivity.
  - lia.
  - replace (Nat.min (i + 3) n - (i + 1)) with 0 by lia. reflexivity.
Qed.

Lemma filter_flat_map {A B} (P : B -> bool) (f : A -> list B) l :
  filter P (flat_map f l) = flat_map (fun x => filter P (f x)) l.
Proof.
  induction l as [|x l IH]; simpl; [reflexivity|].
  rewrite filter_app, IH. reflexivity.
Qed.

Lemma map_of_flat_map {A B C} (g : B -> C) (f : A -> list B) l :
  map g (flat_map f l) = flat_map (fun x => map g (f x)) l.
Proof.
  induction l as [|x l IH]; simpl; [reflexivity|].
  rewrite map_app, IH. reflexivity.
Qed.

Lemma flat_map_ext_In {A B} (f g : A -> list B) l :
  (forall x, In x l -> f x = g x) -> flat_map f l = flat_map g l.
Proof.
  induction l as [|x l IH]; intros H; simpl; [reflexivity|].
  rewrite (H x (or_introl eq_refl)), IH; [reflexivity|].
  intros y Hy. apply H. right. exact Hy.
Qed.

Lemma flat_map_option {A B C} (P : C -> bool) (h : C -> B) (k : A -> C) l :
  flat_map (fun x => match (if P (k x) then Some (h (k x)) else None) with
                     | Some c => [c]
                     | None => []
                     end) l
  = map h (filter P (map k l)).
Proof.
  induction l as [|x l IH]; simpl; [reflexivity|].
  destruct (P (k x)); simpl; rewrite IH; reflexivity.
Qed.

Lemma coverage_loop_batch articles :
  coverage_loop (map to_py articles) =
  ret (map (difference_at articles) (divergent_pairs articles)).
Proof.
  unfold coverage_loop. rewrite length_map.
  set (n := List.length articles).
  set (P := fun p : nat * nat =>
              negb (label_eqb (label_of (article_at articles (fst p)))
                              (label_of (article_at articles (snd p))))).
  rewrite (foldM_append _
             (fun i => map (difference_at articles)
                           (filter P (map (pair i)
                                          (filter (fun j => Nat.ltb j n)
                                                  [i + 1; i + 2]))))).
  - unfold divergent_pairs, window_pairs. fold n. fold P.
    rewrite filter_flat_map, map_of_flat_map.
    unfold range. rewrite Nat.sub_0_r. reflexivity.
  - intros i acc Hi. unfold range in Hi. apply in_seq in Hi.
    rewrite (foldM_collect _
               (fun j => if P (i, j) then Some (difference_at articles (i, j))
                         else None)).
    + rewrite range_window by lia.
      rewrite (flat_map_option P (difference_at articles) (pair i)). reflexivity.
    + intros j Hj. rewrite range_window in Hj by lia.
      apply filter_In in Hj. destruct Hj as [_ Hj]. apply Nat.ltb_lt in Hj.
      apply coverage_difference_batch; fold n; lia.
Qed.

(** ** [compare_articles] on a batch of article records *)

Section Batch.
Context {order : SetOrder}.

Lemma set_iter_nil : set_iter [] = [].
Proof. apply Permutation_nil, Permutation_sym, set_iter_perm. Qed.

Lemma topic_bearing_fits articles :
  fits articles ->
  (0 <= Z.of_nat (List.length (all_topics_of articles)) <= max_size)%Z.
Proof.
  unfold fits, all_topics_of, topic_bearing. intros H. rewrite length_map.
  pose proof (filter_length_le has_topics articles). lia.
Qed.

Lemma compare_articles_body_batch articles :
  fits articles ->
  compare_articles_body (map to_py articles) = ret (analysis_of articles).
Proof.
  intros F. unfold compare_articles_body.
  rewrite !count_label_batch. cbn [bind ret].
  rewrite topic_sets_batch. cbn [bind ret].
  rewrite coverage_loop_batch.
  unfold analysis_of, common_of, fallback_topics.
  pose proof (topic_bearing_fits articles F) as B.
  destruct (all_topics_of articles) as [|s rest] eqn:E; [reflexivity|].
  destruct (set_intersection (s :: rest)) as [|c common] eqn:I.
  - rewrite int_mul_float_fits by exact B. reflexivity.
  - reflexivity.
Qed.

(** Under [fits], nothing in the [try] block raises on a batch of
    article records, and the result is the one computed field by
    field. *)
Lemma compare_articles_batch articles :
  fits articles -> compare_articles (batch articles) = analysis_of articles.
Proof.
  intros F. unfold compare_articles, batch.
  destruct articles as [|a articles].
  - cbn [py_truthy map negb].
    unfold analysis_of, common_of, all_topics_of, topic_bearing.
    cbn [filter map]. rewrite set_iter_nil. reflexivity.
  - cbn [py_truthy map negb py_iter bind ret].
    change (to_py a :: map to_py articles) with (map to_py (a :: articles)).
    rewrite compare_articles_body_batch by exact F. reflexivity.
Qed.

End Batch.

(** ** The look-ahead window *)

Lemma window_pairs_In n i j :
  In (i, j) (window_pairs n) <-> (j = i + 1 \/ j = i + 2) /\ j < n.
Proof.
  unfold window_pairs. rewrite in_flat_map. split.
  - intros (x & Hx & H). apply in_map_iff in H. destruct H as (y & E & Hy).
    inversion E; subst x y. apply filter_In in Hy. destruct Hy as [Hy Hn].
    apply Nat.ltb_lt in Hn. simpl in Hy. intuition lia.
  - intros [Hj Hn]. exists i. split; [apply in_seq; lia|].
    apply in_map, filter_In. split; [simpl; intuition lia|].
    apply Nat.ltb_lt. exact Hn.
Qed.

Lemma StronglySorted_app {A} (R : A -> A -> Prop) l1 l2 :
  StronglySorted R l1 -> StronglySorted R l2 ->
  (forall x y, In x l1 -> In y l2 -> R x y) ->
  StronglySorted R (l1 ++ l2).
Proof.
  induction l1 as [|a l1 IH]; intros S1 S2 H; simpl; [exact S2|].
  apply StronglySorted_inv in S1. destruct S1 as [S1 F].
  constructor.
  - apply IH; [exact S1 | exact S2 |]. intros x y Hx Hy. apply H; [right|]; assumption.
  - apply Forall_app. split; [exact F|].
    apply Forall_forall. intros y Hy. apply H; [left; reflexivity | exact Hy].
Qed.

Lemma StronglySorted_filter {A} (R : A -> A -> Prop) (P : A -> bool) l :
  StronglySorted R l -> StronglySorted R (filter P l).
Proof.
  induction 1 as [|a l S IH F]; simpl; [constructor|].
  destruct (P a); [|exact IH].
  constructor; [exact IH|].
  apply Forall_forall. intros y Hy. apply filter_In in Hy.
  rewrite Forall_forall in F. apply F, Hy.
Qed.

Lemma window_sorted_from n len :
  forall start,
    StronglySorted pair_lt
      (flat_map (fun i => map (pair i)
                              (filter (fun j => Nat.ltb j n) [i + 1; i + 2]))
                (seq start len)).
Proof.
  induction len as [|len IH]; intros start; [constructor|].
  cbn [seq flat_map]. apply StronglySorted_app.
  - simpl filter.
    destruct (Nat.ltb (start + 1) n), (Nat.ltb (start + 2) n); simpl;
      repeat constructor; unfold pair_lt; simpl; lia.
  - apply IH.
  - intros [x1 x2] [y1 y2] Hx Hy.
    apply in_map_iff in Hx. destruct Hx as (j & E & _). inversion E; subst.
    apply in_flat_map in Hy. destruct Hy as (i & Hi & Hy).
    apply in_map_iff in Hy. destruct Hy as (j' & E' & _). inversion E'; subst.
    apply in_seq in Hi. left. simpl. lia.
Qed.

Lemma divergent_pairs_sorted articles :
  StronglySorted pair_lt (divergent_pairs articles).
Proof.
  unfold divergent_pairs, window_pairs.
  apply StronglySorted_filter, window_sorted_from.
Qed.

Lemma divergent_pairs_In articles i j :
  In (i, j) (divergent_pairs articles) <->
  (j = i + 1 \/ j = i + 2) /\ j < List.length articles
  /\ label_of (article_at articles i) <> label_of (article_at articles j).
Proof.
  unfold divergent_pairs. rewrite filter_In, window_pairs_In. cbn [fst snd].
  rewrite negb_true_iff, <- not_true_iff_false, label_eqb_eq. tauto.
Qed.

(** ** C1 *)

(** C1.  On every batch of article records (that [fits] a Python
    list), the Coverage Differences of [compare_articles] are the first five entries of the list that has
    one CoverageDifference per pair [(i, j)] with [j] among [i + 1] and
    [i + 2], [j < N] and differing labels (a label that is absent
    compares as [None]), taken in increasing index order; so there are
    at most five. *)
Theorem coverage_differences_are_first_five_divergent_pairs
    (order : SetOrder) (articles : list ArticleRecord) :
  fits articles ->
  Coverage_Differences (compare_articles (batch articles))
  = firstn 5 (map (difference_at articles) (divergent_pairs articles))
  /\ (forall i j,
        In (i, j) (divergent_pairs articles) <->
        (j = i + 1 \/ j = i + 2) /\ j < List.length articles
        /\ label_of (article_at articles i) <> label_of (article_at articles j))
  /\ StronglySorted pair_lt (divergent_pairs articles)
  /\ List.length (Coverage_Differences (compare_articles (batch articles))) <= 5.
Proof.
  intros F. rewrite compare_articles_batch by exact F.
  cbn [analysis_of Coverage_Differences].
  split; [reflexivity|]. split; [|split].
  - intros i j. apply divergent_pairs_In.
  - apply divergent_pairs_sorted.
  - apply firstn_le_length.
Qed.

(** ** C3 *)

Lemma py_eq_str s t : py_eq (PStr s) (PStr t) = String.eqb s t.
Proof. reflexivity. Qed.

(** The two descriptions of lower case agree on each of the 256
    characters. *)
Lemma lower_char_small_letter c : lower_char c = lowercase_char c.
Proof.
  destruct c as [b0 b1 b2 b3 b4 b5 b6 b7].
  destruct b0, b1, b2, b3, b4, b5, b6, b7; vm_compute; reflexivity.
Qed.

Lemma lower_lowercase s : lower s = lowercase s.
Proof.
  induction s as [|c s IH]; simpl; [reflexivity|].
  rewrite lower_char_small_letter, IH. reflexivity.
Qed.

(** The decision table on two records. *)
Lemma impact_of_records a b :
  generate_impact_analysis (to_py a) (to_py b)
  = impact_table (shown_label a) (shown_label b).
Proof.
  unfold generate_impact_analysis, generate_impact_analysis_body.
  rewrite !shown_label_to_py. cbn [bind ret].
  generalize (shown_label a) (shown_label b). intros s1 s2.
  unfold impact_table, counterbalance. cbn [existsb]. rewrite !py_eq_str.
  destruct (String.eqb s1 s2); [reflexivity|].
  destruct (String.eqb s1 "Positive" && String.eqb s2 "Negative"); [reflexivity|].
  destruct (String.eqb s1 "Negative" && String.eqb s2 "Positive"); [reflexivity|].
  destruct (String.eqb s2 "Neutral"), (String.eqb s1 "Neutral");
    cbn [orb py_lower bind ret try_except]; rewrite ?lower_lowercase;
    reflexivity.
Qed.

(** C3.  For every pair of article records, [generate_impact_analysis]
    returns the narrative the decision table selects, first match
    first, on the two labels as it resolves them (["Unknown"] for an
    absent one): the shared-perception text for equal labels, the
    market-uncertainty text for (Positive, Negative), the
    multiple-interpretations text for (Negative, Positive), the
    counterbalance template with the other label in lower case when one
    label is Neutral, and the generic fallback otherwise.  Lower case
    is the one of the table of capital and small letters, which is
    what [str.lower] computes; the rows are written out for the labels
    of the data model, and for a label with an accented capital (the
    character 201, whose small letter is the character 233). *)
Theorem generate_impact_analysis_follows_the_table (a1 a2 : ArticleRecord) :
  generate_impact_analysis (to_py a1) (to_py a2)
  = impact_table (shown_label a1) (shown_label a2)
  /\ (forall l, impact_table l l
                = "Both articles share similar sentiment, reinforcing the same perception.")
  /\ impact_table "Positive" "Negative"
     = ("The conflicting sentiment between these articles may create market uncertainty. "
        ++ "Investors might need to evaluate both perspectives before making decisions.")%string
  /\ impact_table "Negative" "Positive"
     = ("The contrasting views present a complex picture. "
        ++ "This divergence suggests the company's situation has multiple interpretations.")%string
  /\ impact_table "Positive" "Neutral"
     = "The positive sentiment in one article is counterbalanced by a neutral perspective in the other."
  /\ impact_table "Neutral" "Negative"
     = "The negative sentiment in one article is counterbalanced by a neutral perspective in the other."
  /\ impact_table "Unknown" "Neutral"
     = "The unknown sentiment in one article is counterbalanced by a neutral perspective in the other."
  /\ impact_table "Neutral" (String (ascii_of_nat 201) "LAN")
     = ("The " ++ String (ascii_of_nat 233) "lan"
        ++ " sentiment in one article is counterbalanced by a neutral perspective in the other.")%string
  /\ impact_table "Positive" "Unknown"
     = "The articles present different aspects of the company's situation."
  /\ (forall l, lower l = lowercase l)
  /\ lower "Positive" = "positive"
  /\ lower "MiXed 42 & Co" = "mixed 42 & co".
Proof.
  split; [apply impact_of_records|].
  split.
  { intros l. unfold impact_table. rewrite String.eqb_refl. reflexivity. }
  repeat split; try reflexivity. apply lower_lowercase.
Qed.

(** ** C8 *)

Lemma has_label_exclusive a :
  (count_of "Positive" [a] + count_of "Negative" [a] + count_of "Neutral" [a]
   = if counted a then 1 else 0)%Z.
Proof.
  unfold count_of, counted, has_label. simpl filter.
  destruct (label_of a) as [l|]; [|reflexivity].
  destruct (String.eqb l "Positive") eqn:E1.
  { apply String.eqb_eq in E1. subst l. reflexivity. }
  destruct (String.eqb l "Negative") eqn:E2.
  { apply String.eqb_eq in E2. subst l. reflexivity. }
  destruct (String.eqb l "Neutral"); reflexivity.
Qed.

Lemma count_of_cons name a articles :
  count_of name (a :: articles) = (count_of name [a] + count_of name articles)%Z.
Proof.
  unfold count_of. simpl filter. destruct (has_label name a); simpl List.length; lia.
Qed.

Lemma counts_sum articles :
  (count_of "Positive" articles + count_of "Negative" articles
   + count_of "Neutral" articles
   = Z.of_nat (List.length (filter counted articles)))%Z.
Proof.
  induction articles as [|a articles IH]; [reflexivity|].
  rewrite !(count_of_cons _ a articles).
  pose proof (has_label_exclusive a) as E. simpl filter.
  destruct (counted a); simpl List.length; lia.
Qed.

Lemma filter_length_all {A} (P : A -> bool) l :
  List.length (filter P l) = List.length l <-> (forall x, In x l -> P x = true).
Proof.
  induction l as [|a l IH]; simpl; [tauto|].
  pose proof (filter_length_le P l) as L.
  destruct (P a) eqn:E; simpl.
  - split.
    + intros H x [-> | Hx]; [exact E|]. apply IH; [lia | exact Hx].
    + intros H. f_equal. apply IH. intros x Hx. apply H. right. exact Hx.
  - split; [lia|]. intros H. specialize (H a (or_introl eq_refl)). congruence.
Qed.

(** C8, as the code has it.  The three counts are the numbers of
    articles whose label is exactly ["Positive"], ["Negative"],
    ["Neutral"]; an article is counted in at most one of them, so their
    sum is the number of articles whose label is one of the three, at
    most the length of the batch, and equal to it exactly when every
    label is one of the three; the three keys are always there. *)
Theorem sentiment_distribution_counts_exact_labels
    (order : SetOrder) (articles : list ArticleRecord) :
  fits articles ->
  Positive (Sentiment_Distribution (compare_articles (batch articles)))
    = count_of "Positive" articles
  /\ Negative (Sentiment_Distribution (compare_articles (batch articles)))
    = count_of "Negative" articles
  /\ Neutral (Sentiment_Distribution (compare_articles (batch articles)))
    = count_of "Neutral" articles
  /\ total (Sentiment_Distribution (compare_articles (batch articles)))
    = Z.of_nat (List.length (filter counted articles))
  /\ (total (Sentiment_Distribution (compare_articles (batch articles)))
      <= Z.of_nat (List.length articles))%Z
  /\ (total (Sentiment_Distribution (compare_articles (batch articles)))
      = Z.of_nat (List.length articles)
      <-> forall a, In a articles -> counted a = true)
  /\ py_keys (distribution_to_py
                (Sentiment_Distribution (compare_articles (batch articles))))
     = ["Positive"; "Negative"; "Neutral"].
Proof.
  intros F. rewrite compare_articles_batch by exact F.
  cbn [analysis_of Sentiment_Distribution Positive Negative Neutral].
  unfold total. cbn [Positive Negative Neutral]. rewrite counts_sum.
  pose proof (filter_length_le counted articles) as L.
  repeat (split; [reflexivity || lia|]).
  split; [|reflexivity].
  rewrite <- filter_length_all. lia.
Qed.

(** ** Sets *)

Lemma hashable_eqb_eq a b : hashable_eqb a b = true <-> a = b.
Proof.
  destruct a, b; simpl; try (split; congruence).
  - rewrite Z.eqb_eq. split; congruence.
  - rewrite String.eqb_eq. split; congruence.
Qed.

Lemma hashable_eqb_refl a : hashable_eqb a a = true.
Proof. apply hashable_eqb_eq. reflexivity. Qed.

Lemma set_mem_In x s : set_mem x s = true <-> In x s.
Proof.
  unfold set_mem. rewrite existsb_exists. split.
  - intros (y & Hy & E). apply hashable_eqb_eq in E. subst y. exact Hy.
  - intros H. exists x. split; [exact H | apply hashable_eqb_refl].
Qed.

Lemma set_mem_false x s : set_mem x s = false <-> ~ In x s.
Proof. rewrite <- set_mem_In. destruct (set_mem x s); split; congruence. Qed.

Lemma set_of_list_fresh l acc : fold_left set_add l acc = acc ++ fresh acc l.
Proof.
  revert acc. induction l as [|x l IH]; intros acc; simpl.
  - rewrite app_nil_r. reflexivity.
  - unfold set_add at 2. destruct (set_mem x acc); rewrite IH; [reflexivity|].
    rewrite <- app_assoc. reflexivity.
Qed.

Lemma fresh_In x acc l : In x (fresh acc l) <-> In x l /\ ~ In x acc.
Proof.
  revert acc. induction l as [|y l IH]; intros acc; simpl; [tauto|].
  destruct (set_mem y acc) eqn:E.
  - apply set_mem_In in E. rewrite IH. split; [tauto|].
    intros [[-> | H] N]; tauto.
  - apply set_mem_false in E. simpl. rewrite IH, in_app_iff. simpl. split.
    + intros [-> | [H N]]; tauto.
    + intros [[-> | H] N]; [tauto|].
      destruct (hashable_eqb y x) eqn:Q.
      * apply hashable_eqb_eq in Q. tauto.
      * right. split; [exact H|]. intros [H1 | [-> | []]]; [tauto|].
        rewrite hashable_eqb_refl in Q. discriminate.
Qed.

Lemma fresh_NoDup acc l : NoDup (fresh acc l).
Proof.
  revert acc. induction l as [|y l IH]; intros acc; simpl; [constructor|].
  destruct (set_mem y acc); [apply IH|].
  constructor; [|apply IH]. rewrite fresh_In, in_app_iff. simpl. tauto.
Qed.

Lemma set_of_list_In x l : In x (set_of_list l) <-> In x l.
Proof.
  unfold set_of_list. rewrite set_of_list_fresh. simpl. rewrite fresh_In.
  simpl. tauto.
Qed.

Lemma set_of_list_NoDup l : NoDup (set_of_list l).
Proof. unfold set_of_list. rewrite set_of_list_fresh. apply fresh_NoDup. Qed.

Lemma set_diff_In x s t : In x (set_diff s t) <-> In x s /\ ~ In x t.
Proof.
  unfold set_diff. rewrite filter_In, negb_true_iff, set_mem_false. tauto.
Qed.

Lemma set_inter_In x s t : In x (set_inter s t) <-> In x s /\ In x t.
Proof. unfold set_inter. rewrite filter_In, set_mem_In. tauto. Qed.

Lemma fold_set_inter_In x rest :
  forall s, In x (fold_left set_inter rest s) <->
            In x s /\ Forall (fun t => In x t) rest.
Proof.
  induction rest as [|t rest IH]; intros s; simpl.
  - split; [intros H; split; [exact H | constructor] | tauto].
  - rewrite IH, set_inter_In. split.
    + intros [[H1 H2] H3]. split; [exact H1|]. constructor; assumption.
    + intros [H1 H2]. inversion H2; subst. tauto.
Qed.

Lemma set_intersection_In x s rest :
  In x (set_intersection (s :: rest)) <-> Forall (fun t => In x t) (s :: rest).
Proof.
  simpl. rewrite fold_set_inter_In. split.
  - intros [H1 H2]. constructor; assumption.
  - intros H. inversion H; subst. tauto.
Qed.

Lemma in_order_filter_fresh (P : hashable -> bool) l :
  forall acc, in_order (filter P (fresh acc l)) l.
Proof.
  induction l as [|x l IH]; intros acc; simpl; [constructor|].
  destruct (set_mem x acc); [apply in_order_skip, IH|].
  simpl. destruct (P x); [apply in_order_keep | apply in_order_skip]; apply IH.
Qed.

Lemma in_order_set_diff l common : in_order (set_diff (set_of_list l) common) l.
Proof.
  unfold set_diff, set_of_list. rewrite set_of_list_fresh. simpl.
  apply in_order_filter_fresh.
Qed.

Section SetIteration.
Context {order : SetOrder}.

Lemma set_iter_In x s : In x (set_iter s) <-> In x s.
Proof.
  split; apply Permutation_in;
    [apply set_iter_perm | apply Permutation_sym, set_iter_perm].
Qed.

Lemma set_iter_NoDup s : NoDup s -> NoDup (set_iter s).
Proof.
  intros H. apply (Permutation_NoDup (l := s)); [|exact H].
  apply Permutation_sym, set_iter_perm.
Qed.

End SetIteration.

Lemma topic_set_of_In h a :
  In h (topic_set_of a) <-> exists t, h = HStr t /\ In t (topics_of a).
Proof.
  unfold topic_set_of. rewrite set_of_list_In, in_map_iff. split.
  - intros (t & E & H). exists t. split; [congruence | exact H].
  - intros (t & E & H). exists t. split; [congruence | exact H].
Qed.

(** ** C5 *)

(** C5.  The Unique Topics sequence has one entry per topic-bearing
    article, in input order; the entry of article [i] holds exactly the
    topics of the article that are not Common Topics, so together with
    the Common Topics it covers the article's topics, and it shares no
    topic with them. *)
Theorem unique_topics_are_topics_minus_common
    (order : SetOrder) (articles : list ArticleRecord) :
  fits articles ->
  List.length (Unique_Topics (Topic_Overlap (compare_articles (batch articles))))
  = List.length (topic_bearing articles)
  /\ forall i a,
       nth_error (topic_bearing articles) i = Some a ->
       exists unique,
         nth_error
           (Unique_Topics (Topic_Overlap (compare_articles (batch articles)))) i
         = Some unique
         /\ (forall h,
               In h unique <->
               (exists t, h = HStr t /\ In t (topics_of a))
               /\ ~ In h (Common_Topics
                            (Topic_Overlap (compare_articles (batch articles)))))
         /\ (forall t,
               In t (topics_of a) ->
               In (HStr t) unique
               \/ In (HStr t)
                     (Common_Topics
                        (Topic_Overlap (compare_articles (batch articles)))))
         /\ (forall h,
               In h unique ->
               ~ In h (Common_Topics
                         (Topic_Overlap (compare_articles (batch articles))))).
Proof.
  intros F. rewrite compare_articles_batch by exact F.
  cbn [analysis_of Topic_Overlap Unique_Topics Common_Topics].
  unfold all_topics_of. rewrite !length_map. split; [reflexivity|].
  intros i a Ha.
  exists (set_iter (set_diff (topic_set_of a) (common_of articles))).
  assert (M : forall h,
             In h (set_iter (set_diff (topic_set_of a) (common_of articles))) <->
             (exists t, h = HStr t /\ In t (topics_of a))
             /\ ~ In h (set_iter (common_of articles))).
  { intros h. rewrite !set_iter_In, set_diff_In, topic_set_of_In. tauto. }
  split; [|split; [exact M | split]].
  - rewrite map_map.
    apply (map_nth_error
             (fun x => set_iter (set_diff (topic_set_of x) (common_of articles)))
             i (topic_bearing articles) Ha).
  - intros t Ht.
    destruct (set_mem (HStr t) (set_iter (common_of articles))) eqn:E.
    + right. apply set_mem_In. exact E.
    + left. apply M. split; [exists t; tauto|]. apply set_mem_false. exact E.
  - intros h Hh. apply M in Hh. tauto.
Qed.

(** ** C9 *)

(** C9, as the code has it.  The Unique Topics entry of a topic-bearing
    article lists each of its topics outside the Common Topics exactly
    once.  It is a rearrangement of the listing of those topics in
    input order: the entry is [list(set)], and its order is that of the
    iteration of a Python set. *)
Theorem unique_topics_entry_rearranges_input_order
    (order : SetOrder) (articles : list ArticleRecord) :
  fits articles ->
  forall i a,
    nth_error (topic_bearing articles) i = Some a ->
    exists unique listing,
      nth_error
        (Unique_Topics (Topic_Overlap (compare_articles (batch articles)))) i
      = Some unique
      /\ NoDup unique
      /\ Permutation unique listing
      /\ in_order listing (map HStr (topics_of a))
      /\ (forall h,
            In h listing <->
            (exists t, h = HStr t /\ In t (topics_of a))
            /\ ~ In h (Common_Topics
                         (Topic_Overlap (compare_articles (batch articles))))).
Proof.
  intros F i a Ha. rewrite compare_articles_batch by exact F.
  cbn [analysis_of Topic_Overlap Unique_Topics Common_Topics].
  set (listing := set_diff (topic_set_of a) (common_of articles)).
  exists (set_iter listing), listing.
  split; [|split; [|split; [|split]]].
  - unfold all_topics_of. rewrite map_map.
    apply (map_nth_error
             (fun x => set_iter (set_diff (topic_set_of x) (common_of articles)))
             i (topic_bearing articles) Ha).
  - apply set_iter_NoDup. unfold listing, set_diff.
    apply NoDup_filter, set_of_list_NoDup.
  - apply set_iter_perm.
  - apply in_order_set_diff.
  - intros h. unfold listing.
    rewrite set_diff_In, topic_set_of_In, set_iter_In. tauto.
Qed.

Lemma unique_topics_entry_rearranges_input_order_witness :
  fits sharing_X
  /\ forall i a,
       nth_error (topic_bearing sharing_X) i = Some a ->
       exists unique listing,
         nth_error
           (Unique_Topics
              (Topic_Overlap
                 (compare_articles (order := reversed_order) (batch sharing_X)))) i
         = Some unique
         /\ NoDup unique
         /\ Permutation unique listing
         /\ in_order listing (map HStr (topics_of a))
         /\ (forall h,
               In h listing <->
               (exists t, h = HStr t /\ In t (topics_of a))
               /\ ~ In h (Common_Topics
                            (Topic_Overlap
                               (compare_articles (order := reversed_order)
                                                 (batch sharing_X))))).
Proof.
  split; [fits_now|].
  apply (unique_topics_entry_rearranges_input_order reversed_order sharing_X).
  fits_now.
Defined.

(** Under the reversed iteration order the unique topics of the first
    article of [sharing_X], whose topics are X, A, B, come out as B, A. *)
Lemma unique_topics_not_in_input_order :
  fits sharing_X
  /\ Unique_Topics
       (Topic_Overlap
          (compare_articles (order := reversed_order) (batch sharing_X)))
     = [[HStr "B"; HStr "A"]; []]
  /\ ~ in_order [HStr "B"; HStr "A"] (map HStr ["X"; "A"; "B"]).
Proof.
  split; [fits_now|]. split; [vm_compute; reflexivity|].
  intros H.
  repeat match goal with
         | [ H : in_order _ _ |- _ ] => inversion H; clear H; subst
         end.
Qed.

(** ** C10 *)

Lemma impact_of_equal_shown_labels a b :
  shown_label a = shown_label b ->
  generate_impact_analysis (to_py a) (to_py b) = shared_perception.
Proof.
  intros E. unfold generate_impact_analysis, generate_impact_analysis_body.
  rewrite !shown_label_to_py. cbn [bind ret]. rewrite E, py_eq_str, String.eqb_refl.
  reflexivity.
Qed.

(** C10, as the code has it.  A pair of the window made of an article
    without a label and an article labelled ["Unknown"] is a divergent
    pair: the generator compares [None] with ["Unknown"].  Its
    Comparison shows ["Unknown"] for both articles.  Its Impact is the
    shared-perception text: [generate_impact_analysis] resolves the
    absent label to ["Unknown"], so the first row of its table
    matches. *)
Theorem absent_and_unknown_labels_diverge
    (articles : list ArticleRecord) (i j : nat) :
  (j = i + 1 \/ j = i + 2) -> j < List.length articles ->
  (label_of (article_at articles i) = None
   /\ label_of (article_at articles j) = Some "Unknown")
  \/ (label_of (article_at articles i) = Some "Unknown"
      /\ label_of (article_at articles j) = None) ->
  In (i, j) (divergent_pairs articles)
  /\ coverage_difference (map to_py articles) i j
     = ret (Some
              {| Comparison :=
                   ("Article '" ++ title_or (article_at articles i) i
                    ++ "' has Unknown sentiment about "
                    ++ about (article_at articles i) ++ ", while "
                    ++ "Article '" ++ title_or (article_at articles j) j
                    ++ "' has Unknown sentiment about "
                    ++ about (article_at articles j) ++ ".")%string;
                 Impact := shared_perception |}).
Proof.
  intros W Hj L.
  assert (D : label_of (article_at articles i) <> label_of (article_at articles j))
    by (destruct L as [[-> ->] | [-> ->]]; discriminate).
  split; [apply divergent_pairs_In; tauto|].
  rewrite coverage_difference_batch by lia.
  destruct (label_eqb (label_of (article_at articles i))
                      (label_of (article_at articles j))) eqn:E;
    [apply label_eqb_eq in E; contradiction|].
  cbn [negb]. unfold difference_at. cbn [fst snd].
  rewrite impact_of_equal_shown_labels
    by (unfold shown_label; destruct L as [[-> ->] | [-> ->]]; reflexivity).
  unfold comparison_text, shown_label.
  destruct L as [[-> ->] | [-> ->]]; reflexivity.
Qed.

(** ** The frequency table of the fallback *)

Lemma count_for_count_topic h x tc :
  count_for h (count_topic x tc)
  = (count_for h tc + if hashable_eqb h x then 1 else 0)%Z.
Proof.
  induction tc as [|[t c] tc IH]; simpl.
  - destruct (hashable_eqb h x); reflexivity.
  - destruct (hashable_eqb x t) eqn:E; simpl.
    + apply hashable_eqb_eq in E. subst t.
      destruct (hashable_eqb h x); lia.
    + destruct (hashable_eqb h t) eqn:E2; [|exact IH].
      apply hashable_eqb_eq in E2. subst t.
      destruct (hashable_eqb h x) eqn:E3; [|lia].
      apply hashable_eqb_eq in E3. subst x.
      rewrite hashable_eqb_refl in E. discriminate.
Qed.

Lemma count_topic_keys h x tc :
  In h (map fst (count_topic x tc)) <-> h = x \/ In h (map fst tc).
Proof.
  induction tc as [|[t c] tc IH]; simpl; [intuition congruence|].
  destruct (hashable_eqb x t) eqn:E; simpl.
  - apply hashable_eqb_eq in E. subst t. intuition congruence.
  - rewrite IH. intuition congruence.
Qed.

Lemma count_topic_ok x tc : table_ok tc -> table_ok (count_topic x tc).
Proof.
  unfold table_ok. induction tc as [|[t c] tc IH]; simpl; intros [N P].
  - split.
    + constructor; [simpl; tauto | constructor].
    + constructor; [simpl; lia | constructor].
  - inversion N as [|? ? N1 N2]; subst. inversion P as [|? ? P1 P2]; subst.
    simpl in P1. destruct (hashable_eqb x t) eqn:E; simpl.
    + split; constructor; simpl; try assumption; lia.
    + destruct (IH (conj N2 P2)) as [N' P'].
      split; constructor; simpl; try assumption.
      rewrite count_topic_keys. intros [-> | H]; [|tauto].
      rewrite hashable_eqb_refl in E. discriminate.
Qed.

Lemma table_ok_entry h c tc :
  table_ok tc -> (In (h, c) tc <-> c = count_for h tc /\ (0 < c)%Z).
Proof.
  unfold table_ok. induction tc as [|[t c'] tc IH]; simpl; intros [N P].
  - split; [tauto | lia].
  - inversion N as [|? ? N1 N2]; subst. inversion P as [|? ? P1 P2]; subst.
    simpl in P1. specialize (IH (conj N2 P2)).
    destruct (hashable_eqb h t) eqn:E.
    + apply hashable_eqb_eq in E. subst t. split.
      * intros [Q | Q]; [inversion Q; subst; lia|].
        exfalso. apply N1. apply (in_map fst) in Q. exact Q.
      * intros [-> _]. left. reflexivity.
    + rewrite <- IH. split; [|tauto].
      intros [Q | Q]; [|exact Q]. inversion Q; subst.
      rewrite hashable_eqb_refl in E. discriminate.
Qed.

Lemma set_mem_cons h x l :
  set_mem h (x :: l) = hashable_eqb h x || set_mem h l.
Proof. reflexivity. Qed.

Lemma count_for_visit h l :
  NoDup l ->
  forall tc,
    count_for h (fold_left (fun tc topic => count_topic topic tc) l tc)
    = (count_for h tc + if set_mem h l then 1 else 0)%Z.
Proof.
  induction 1 as [|x l Hx N IH]; intros tc; simpl fold_left.
  - simpl. lia.
  - rewrite IH, count_for_count_topic, set_mem_cons.
    destruct (hashable_eqb h x) eqn:E; simpl.
    + apply hashable_eqb_eq in E. subst x.
      apply set_mem_false in Hx. rewrite Hx. lia.
    + destruct (set_mem h l); lia.
Qed.

Lemma visit_ok l :
  forall tc, table_ok tc ->
             table_ok (fold_left (fun tc topic => count_topic topic tc) l tc).
Proof.
  induction l as [|x l IH]; intros tc H; simpl; [exact H|].
  apply IH, count_topic_ok, H.
Qed.

Section Frequencies.
Context {order : SetOrder}.

Lemma set_mem_set_iter h s : set_mem h (set_iter s) = set_mem h s.
Proof.
  apply Bool.eq_iff_eq_true. rewrite !set_mem_In. apply set_iter_In.
Qed.

Lemma count_topics_from h sets :
  Forall (@NoDup hashable) sets ->
  forall tc,
    table_ok tc ->
    table_ok (fold_left
                (fun tc topic_set =>
                   fold_left (fun tc topic => count_topic topic tc)
                             (set_iter topic_set) tc) sets tc)
    /\ count_for h
         (fold_left
            (fun tc topic_set =>
               fold_left (fun tc topic => count_topic topic tc)
                         (set_iter topic_set) tc) sets tc)
       = (count_for h tc + count_in h sets)%Z.
Proof.
  induction 1 as [|s sets Hs F IH]; intros tc Ok; simpl fold_left.
  - split; [exact Ok|]. unfold count_in. simpl. lia.
  - destruct (IH _ (visit_ok (set_iter s) tc Ok)) as [Ok' E].
    split; [exact Ok'|]. rewrite E.
    rewrite count_for_visit by (apply set_iter_NoDup; exact Hs).
    rewrite set_mem_set_iter. unfold count_in. simpl filter.
    destruct (set_mem h s); simpl List.length; lia.
Qed.

Lemma count_topics_spec h sets :
  Forall (@NoDup hashable) sets ->
  table_ok (count_topics sets)
  /\ count_for h (count_topics sets) = count_in h sets.
Proof.
  intros F. unfold count_topics.
  destruct (count_topics_from h sets F []) as [Ok E].
  - split; constructor.
  - split; [exact Ok|]. rewrite E. reflexivity.
Qed.

(** The fallback keeps the topics that are in at least
    [max(2, ceil(0.3 * n))] of the [n] topic sets. *)
Lemma fallback_topics_In h sets :
  Forall (@NoDup hashable) sets ->
  (0 <= Z.of_nat (List.length sets) <= max_size)%Z ->
  In h (fallback_topics sets) <->
  (spec_threshold (Z.of_nat (List.length sets)) <= count_in h sets)%Z.
Proof.
  intros F B. unfold fallback_topics.
  rewrite set_of_list_In, in_map_iff.
  destruct (count_topics_spec h sets F) as [Ok E].
  pose proof (scaled_count_bounded _ B) as SB.
  unfold spec_threshold. split.
  - intros ([h' c] & Eh & Hin). simpl in Eh. subst h'.
    apply filter_In in Hin. destruct Hin as [Hin G]. simpl in G.
    apply (table_ok_entry h c _ Ok) in Hin. destruct Hin as [-> _].
    rewrite (int_ge_py_max 64) in G by exact SB.
    apply Z.leb_le in G. rewrite E in G. exact G.
  - intros G. exists (h, count_in h sets). split; [reflexivity|].
    apply filter_In. split.
    + apply (table_ok_entry h _ _ Ok). rewrite E. split; [reflexivity | lia].
    + simpl. rewrite (int_ge_py_max 64) by exact SB. apply Z.leb_le. exact G.
Qed.

End Frequencies.

(** ** C2 *)

Lemma zrange_In z len :
  forall start, In z (zrange start len) <-> (start <= z < start + Z.of_nat len)%Z.
Proof.
  induction len as [|len IH]; intros start; cbn [zrange In].
  - lia.
  - rewrite IH. lia.
Qed.

Lemma thresholds_agree_sound k :
  thresholds_agree_upto k = true ->
  forall n, (0 <= n <= k)%Z -> spec_threshold n = exact_threshold n.
Proof.
  unfold thresholds_agree_upto. intros H n Hn.
  rewrite forallb_forall in H. apply Z.eqb_eq, H, zrange_In.
  rewrite Z2Nat.id by lia. lia.
Qed.

Lemma thresholds_agree_10000 : thresholds_agree_upto 10000 = true.
Proof. vm_compute. reflexivity. Qed.

(** Up to ten thousand topic sets the binary64 product gives the
    ceiling of [3 n / 10] exactly. *)
Lemma spec_threshold_exact n :
  (0 <= n <= 10000)%Z -> spec_threshold n = exact_threshold n.
Proof. exact (thresholds_agree_sound 10000 thresholds_agree_10000 n). Qed.

Lemma filter_map_length {A B} (P : B -> bool) (f : A -> B) l :
  List.length (filter P (map f l)) = List.length (filter (fun x => P (f x)) l).
Proof.
  induction l as [|x l IH]; simpl; [reflexivity|].
  destruct (P (f x)); simpl; rewrite IH; reflexivity.
Qed.

Lemma set_mem_topic_set t a : set_mem (HStr t) (topic_set_of a) = mentions t a.
Proof.
  apply Bool.eq_iff_eq_true. unfold mentions.
  rewrite set_mem_In, topic_set_of_In, existsb_exists. split.
  - intros (t' & E & H). inversion E; subst t'. exists t.
    split; [exact H | apply String.eqb_refl].
  - intros (t' & H & E). apply String.eqb_eq in E. subst t'.
    exists t. split; [reflexivity | exact H].
Qed.

Lemma count_in_frequency t articles :
  count_in (HStr t) (all_topics_of articles) = frequency t articles.
Proof.
  unfold count_in, frequency, all_topics_of. rewrite filter_map_length.
  f_equal. f_equal. apply filter_ext. intros a. apply set_mem_topic_set.
Qed.

Lemma count_in_positive h sets :
  (0 < count_in h sets)%Z -> exists s, In s sets /\ In h s.
Proof.
  unfold count_in. intros H.
  destruct (filter (set_mem h) sets) as [|s l] eqn:E; [simpl in H; lia|].
  assert (I : In s (filter (set_mem h) sets)) by (rewrite E; left; reflexivity).
  apply filter_In in I. destruct I as [I M]. apply set_mem_In in M.
  exists s. tauto.
Qed.

Lemma all_topics_NoDup articles : Forall (@NoDup hashable) (all_topics_of articles).
Proof.
  apply Forall_forall. intros s H. unfold all_topics_of in H.
  apply in_map_iff in H. destruct H as (a & <- & _).
  apply set_of_list_NoDup.
Qed.

(** C2.  When at least one article bears topics and no topic is in all
    the topic sets, the Common Topics are the topics whose frequency
    across the topic sets is at least [max(2, ceil(0.3 * n))], [n]
    being the number of topic-bearing articles; the product is the
    binary64 one, and up to ten thousand topic sets its ceiling is that
    of [3 n / 10]. *)
Theorem common_topics_fallback_threshold
    (order : SetOrder) (articles : list ArticleRecord) :
  fits articles ->
  topic_bearing articles <> [] ->
  (forall t, ~ Forall (fun a => In t (topics_of a)) (topic_bearing articles)) ->
  (forall h,
     In h (Common_Topics (Topic_Overlap (compare_articles (batch articles)))) <->
     exists t,
       h = HStr t
       /\ (spec_threshold (number_of_topic_sets articles)
           <= frequency t articles)%Z)
  /\ ((number_of_topic_sets articles <= 10000)%Z ->
      spec_threshold (number_of_topic_sets articles)
      = exact_threshold (number_of_topic_sets articles)).
Proof.
  intros F NE Empty. split.
  2:{ intros H. apply spec_threshold_exact. unfold number_of_topic_sets in *. lia. }
  intros h. rewrite compare_articles_batch by exact F.
  cbn [analysis_of Topic_Overlap Common_Topics]. rewrite set_iter_In.
  unfold common_of.
  pose proof (topic_bearing_fits articles F) as B.
  pose proof (all_topics_NoDup articles) as ND.
  assert (L : List.length (all_topics_of articles)
              = List.length (topic_bearing articles))
    by (unfold all_topics_of; apply length_map).
  destruct (all_topics_of articles) as [|s rest] eqn:E.
  { destruct (topic_bearing articles); [contradiction | discriminate]. }
  destruct (set_intersection (s :: rest)) as [|c common] eqn:I.
  - rewrite fallback_topics_In by assumption.
    unfold pyset in *. rewrite L. fold (number_of_topic_sets articles). split.
    + intros G.
      assert (P : (0 < count_in h (s :: rest))%Z)
        by (unfold spec_threshold in G; lia).
      apply count_in_positive in P. destruct P as (s' & Hs' & Hh).
      rewrite <- E in Hs'. unfold all_topics_of in Hs'.
      apply in_map_iff in Hs'. destruct Hs' as (a & <- & _).
      apply topic_set_of_In in Hh. destruct Hh as (t & -> & _).
      exists t. split; [reflexivity|].
      rewrite <- count_in_frequency, E. exact G.
    + intros (t & -> & G). rewrite <- count_in_frequency, E in G. exact G.
  - exfalso.
    assert (C : In c (set_intersection (s :: rest))) by (rewrite I; left; reflexivity).
    apply set_intersection_In in C. rewrite <- E in C.
    unfold all_topics_of in C. rewrite Forall_map in C.
    destruct (topic_bearing articles) as [|a0 l] eqn:TB; [contradiction|].
    assert (C0 := C). apply Forall_inv in C0.
    apply topic_set_of_In in C0. destruct C0 as (t & -> & _).
    apply (Empty t). eapply Forall_impl; [|exact C].
    intros a Ha. apply topic_set_of_In in Ha. destruct Ha as (t' & Q & Ha).
    inversion Q; subst t'. exact Ha.
Qed.

(** ** C4 *)

Lemma py_sum_values_distribution d :
  py_sum_values (distribution_to_py d) = ret (total d).
Proof. destruct d as [p n u]. reflexivity. Qed.

Lemma ratios_agree_sound k :
  ratios_agree_upto k = true ->
  forall p t,
    (1 <= t <= k)%Z -> (0 <= p <= t)%Z ->
    ratio_gt float_0_6 p t = (6 * t <? 10 * p)%Z
    /\ ratio_gt float_0_4 p t = (4 * t <? 10 * p)%Z.
Proof.
  unfold ratios_agree_upto. intros H p t Ht Hp.
  rewrite forallb_forall in H. specialize (H t).
  rewrite zrange_In, Z2Nat.id in H by lia. specialize (H ltac:(lia)).
  rewrite forallb_forall in H. specialize (H p).
  rewrite zrange_In, Z2Nat.id in H by lia. specialize (H ltac:(lia)).
  apply andb_prop in H. destruct H as [H1 H2].
  apply Bool.eqb_prop in H1, H2. tauto.
Qed.

Lemma ratios_agree_200 : ratios_agree_upto 200 = true.
Proof. vm_compute. reflexivity. Qed.

Lemma ratio_gt_of_quotient x p t q :
  int_truediv p t = ret q -> ratio_gt x p t = float_gt q x.
Proof. unfold ratio_gt. intros ->. reflexivity. Qed.

(** C4.  For a distribution of non-negative counts with a positive
    total, [get_overall_sentiment] computes the two ratios and returns
    the verdict of the table: positive ratio above 0.6, above 0.4,
    negative ratio above 0.6, above 0.4, else Mixed or Neutral, in this
    order and with strict comparisons, which 0.6 and 0.4 themselves do
    not pass.  The ratios are binary64 quotients; up to a total of 200
    the comparisons are those of the exact ratios. *)
Theorem overall_sentiment_follows_ratio_thresholds
    (data : list (string * pyval)) (d : SentimentDistribution) :
  dict_lookup "Sentiment Distribution" data = Some (distribution_to_py d) ->
  (0 <= Positive d)%Z -> (0 <= Negative d)%Z -> (0 <= Neutral d)%Z ->
  (0 < total d)%Z ->
  exists positive_ratio negative_ratio,
    int_truediv (Positive d) (total d) = ret positive_ratio
    /\ int_truediv (Negative d) (total d) = ret negative_ratio
    /\ get_overall_sentiment (PDict data)
       = verdict_of_ratios positive_ratio negative_ratio
    /\ float_gt float_0_6 float_0_6 = false
    /\ float_gt float_0_4 float_0_4 = false
    /\ ((total d <= 200)%Z ->
        get_overall_sentiment (PDict data)
        = exact_verdict (Positive d) (Negative d) (total d)).
Proof.
  intros L P N U T.
  assert (HP : (0 <= Positive d <= total d)%Z) by (unfold total in *; lia).
  assert (HN : (0 <= Negative d <= total d)%Z) by (unfold total in *; lia).
  destruct (int_truediv_fits _ _ HP T) as [EP _].
  destruct (int_truediv_fits _ _ HN T) as [EN _].
  set (positive_ratio := SFdiv prec emax (raw_of_Z (Positive d)) (raw_of_Z (total d))) in *.
  set (negative_ratio := SFdiv prec emax (raw_of_Z (Negative d)) (raw_of_Z (total d))) in *.
  exists positive_ratio, negative_ratio.
  assert (V : get_overall_sentiment (PDict data)
              = verdict_of_ratios positive_ratio negative_ratio).
  { unfold get_overall_sentiment, get_overall_sentiment_body.
    destruct data as [|kv data]; [discriminate|].
    cbn [py_truthy negb py_get]. rewrite L. cbn [bind ret].
    rewrite py_sum_values_distribution. cbn [bind ret].
    replace (total d =? 0)%Z with false by (symmetry; apply Z.eqb_neq; lia).
    destruct d as [p n u]. cbn [distribution_to_py py_get dict_lookup].
    cbn [Positive Negative] in *.
    change (String.eqb "Positive" "Positive") with true.
    change (String.eqb "Negative" "Positive") with false.
    change (String.eqb "Negative" "Negative") with true.
    cbn [bind ret py_truediv]. rewrite EP. cbn [bind ret]. rewrite EN.
    cbn [bind ret]. unfold verdict_of_ratios.
    destruct (float_gt positive_ratio float_0_6); [reflexivity|].
    destruct (float_gt positive_ratio float_0_4); [reflexivity|].
    destruct (float_gt negative_ratio float_0_6); [reflexivity|].
    destruct (float_gt negative_ratio float_0_4); reflexivity. }
  repeat (split; [assumption || reflexivity|]).
  intros T200. rewrite V.
  destruct (ratios_agree_sound 200 ratios_agree_200 (Positive d) (total d)
              ltac:(lia) HP) as [A1 A2].
  destruct (ratios_agree_sound 200 ratios_agree_200 (Negative d) (total d)
              ltac:(lia) HN) as [B1 B2].
  rewrite (ratio_gt_of_quotient _ _ _ _ EP) in A1.
  rewrite (ratio_gt_of_quotient _ _ _ _ EP) in A2.
  rewrite (ratio_gt_of_quotient _ _ _ _ EN) in B1.
  rewrite (ratio_gt_of_quotient _ _ _ _ EN) in B2.
  unfold verdict_of_ratios, exact_verdict. rewrite A1, A2, B1, B2. reflexivity.
Qed.

(** ** C7 *)

Lemma foldM_raises {A S} (f : S -> A -> M S) l :
  Exists (fun a => forall s, exists e, f s a = raise e) l ->
  forall s, exists e, foldM f s l = raise e.
Proof.
  induction 1 as [a l H | a l H IH]; intros s; cbn [foldM].
  - destruct (H s) as [e ->]. exists e. reflexivity.
  - destruct (f s a) as [e | s']; [exists e; reflexivity|].
    cbn [bind]. apply IH.
Qed.

Lemma overall_body_values data s :
  get_overall_sentiment_body data = ret s -> In s ("Neutral" :: verdicts).
Proof.
  unfold get_overall_sentiment_body. intros H.
  step_bind H. step_bind H.
  destruct (Z.eqb _ 0); [inversion H; subst; simpl; tauto|].
  step_bind H. step_bind H. step_bind H. step_bind H.
  repeat match type of H with
         | (if ?c then _ else _) = _ => destruct c
         end;
    inversion H; subst; simpl; tauto.
Qed.

Lemma overall_of_dict d :
  get_overall_sentiment (PDict d)
  = match dict_lookup "Sentiment Distribution" d with
    | Some v =>
        try_except
          (get_overall_sentiment_body (PDict [("Sentiment Distribution", v)]))
          (fun _ => "Neutral")
    | None => "Neutral"
    end.
Proof.
  unfold get_overall_sentiment.
  destruct d as [|kv d]; [reflexivity|].
  cbn [py_truthy negb]. unfold get_overall_sentiment_body. cbn [py_get].
  destruct (dict_lookup "Sentiment Distribution" (kv :: d)); reflexivity.
Qed.

Lemma overall_of_distribution data d :
  dict_lookup "Sentiment Distribution" data = Some (distribution_to_py d) ->
  (0 <= Positive d)%Z -> (0 <= Negative d)%Z -> (0 <= Neutral d)%Z ->
  (0 < total d)%Z ->
  In (get_overall_sentiment (PDict data)) verdicts.
Proof.
  intros L P N U T.
  assert (HP : (0 <= Positive d <= total d)%Z) by (unfold total in *; lia).
  assert (HN : (0 <= Negative d <= total d)%Z) by (unfold total in *; lia).
  destruct (int_truediv_fits _ _ HP T) as [EP _].
  destruct (int_truediv_fits _ _ HN T) as [EN _].
  unfold get_overall_sentiment, get_overall_sentiment_body.
  destruct data as [|kv data]; [discriminate|].
  cbn [py_truthy negb py_get]. rewrite L. cbn [bind ret].
  rewrite py_sum_values_distribution. cbn [bind ret].
  replace (total d =? 0)%Z with false by (symmetry; apply Z.eqb_neq; lia).
  destruct d as [p n u]. cbn [distribution_to_py py_get dict_lookup].
  cbn [Positive Negative] in *.
  change (String.eqb "Positive" "Positive") with true.
  change (String.eqb "Negative" "Positive") with false.
  change (String.eqb "Negative" "Negative") with true.
  cbn [bind ret py_truediv]. rewrite EP. cbn [bind ret]. rewrite EN.
  cbn [bind ret].
  repeat match goal with
         | |- context [if ?c then _ else _] => destruct c
         end; simpl; tauto.
Qed.

Lemma neutral_is_no_verdict : ~ In "Neutral" verdicts.
Proof.
  simpl. intros H.
  repeat (destruct H as [H | H]; [discriminate|]). exact H.
Qed.

(** What the [try] block returns, and on which path. *)
Lemma overall_body_cases data s :
  get_overall_sentiment_body data = ret s ->
  exists dist total,
    py_get data "Sentiment Distribution" (PDict []) = ret dist
    /\ py_sum_values dist = ret total
    /\ ((total = 0%Z /\ s = "Neutral") \/ (total <> 0%Z /\ In s verdicts)).
Proof.
  unfold get_overall_sentiment_body. intros H.
  step_bind H. step_bind H. exists p, z.
  split; [assumption || reflexivity|]. split; [assumption || reflexivity|].
  destruct (Z.eqb z 0) eqn:Z0.
  - left. apply Z.eqb_eq in Z0. inversion H. split; [exact Z0 | reflexivity].
  - right. apply Z.eqb_neq in Z0. split; [exact Z0|].
    step_bind H. step_bind H. step_bind H. step_bind H.
    repeat match type of H with
           | (if ?c then _ else _) = _ => destruct c
           end;
      inversion H; subst; simpl; tauto.
Qed.

Lemma overall_body_zero data dist :
  py_get data "Sentiment Distribution" (PDict []) = ret dist ->
  py_sum_values dist = ret 0%Z ->
  get_overall_sentiment_body data = ret "Neutral".
Proof.
  intros G S. unfold get_overall_sentiment_body. rewrite G. cbn [bind ret].
  rewrite S. reflexivity.
Qed.

Lemma overall_neutral_iff data :
  get_overall_sentiment data = "Neutral" <->
  py_truthy data = false
  \/ (exists e, get_overall_sentiment_body data = raise e)
  \/ (exists dist,
        py_get data "Sentiment Distribution" (PDict []) = ret dist
        /\ py_sum_values dist = ret 0%Z).
Proof.
  unfold get_overall_sentiment. destruct (py_truthy data) eqn:T; cbn [negb].
  - destruct (get_overall_sentiment_body data) as [e|s] eqn:B; cbn [try_except].
    + split; [|reflexivity]. intros _. right. left. exists e. reflexivity.
    + split.
      * intros ->. right. right.
        destruct (overall_body_cases data "Neutral" B)
          as (dist & total & G & S & [[Z0 _] | [_ V]]).
        -- exists dist. subst total. split; assumption.
        -- exfalso. apply neutral_is_no_verdict, V.
      * intros [F | [[e E] | (dist & G & S)]]; try discriminate.
        rewrite (overall_body_zero data dist G S) in B.
        inversion B. reflexivity.
  - split; [|reflexivity]. intros _. left. reflexivity.
Qed.

Lemma py_sum_values_not_int d :
  Exists (fun v => forall z, v <> PInt z) (dict_values d) ->
  exists e, py_sum_values (PDict d) = raise e.
Proof.
  intros H. unfold py_sum_values. apply foldM_raises.
  eapply Exists_impl; [|exact H]. intros v Hv acc.
  destruct v; try (exists TypeError; reflexivity).
  exfalso. apply (Hv z). reflexivity.
Qed.

(** C7, as the code has it.  [get_overall_sentiment] returns one of the
    five verdicts or ["Neutral"].  It returns ["Neutral"] exactly for
    empty (falsy) analysis data, for a distribution whose total is 0 and
    when its [try] block raises, as it does for analysis data that is
    not a dictionary, for a Sentiment Distribution that is not one, and
    for a count that is not an integer; with non-negative counts of a
    positive total it returns one of the five.  Its value is determined
    by the Sentiment Distribution entry of the analysis data alone. *)
Theorem overall_sentiment_is_a_verdict_or_neutral :
  (forall analysis_data,
     In (get_overall_sentiment analysis_data) ("Neutral" :: verdicts))
  /\ (forall analysis_data,
        get_overall_sentiment analysis_data = "Neutral" <->
        py_truthy analysis_data = false
        \/ (exists e, get_overall_sentiment_body analysis_data = raise e)
        \/ (exists sentiment_dist,
              py_get analysis_data "Sentiment Distribution" (PDict [])
              = ret sentiment_dist
              /\ py_sum_values sentiment_dist = ret 0%Z))
  /\ get_overall_sentiment PNone = "Neutral"
  /\ get_overall_sentiment (PDict []) = "Neutral"
  /\ (forall data,
        dict_lookup "Sentiment Distribution" data = None ->
        get_overall_sentiment (PDict data) = "Neutral")
  /\ (forall data d,
        dict_lookup "Sentiment Distribution" data = Some (distribution_to_py d) ->
        total d = 0%Z ->
        get_overall_sentiment (PDict data) = "Neutral")
  /\ (forall z, get_overall_sentiment (PInt z) = "Neutral")
  /\ (forall s, get_overall_sentiment (PStr s) = "Neutral")
  /\ (forall l, get_overall_sentiment (PList l) = "Neutral")
  /\ (forall data v,
        dict_lookup "Sentiment Distribution" data = Some v ->
        (forall d, v <> PDict d) ->
        get_overall_sentiment (PDict data) = "Neutral")
  /\ (forall data d,
        dict_lookup "Sentiment Distribution" data = Some (PDict d) ->
        Exists (fun count => forall z, count <> PInt z) (dict_values d) ->
        get_overall_sentiment (PDict data) = "Neutral")
  /\ (forall data d,
        dict_lookup "Sentiment Distribution" data = Some (distribution_to_py d) ->
        (0 <= Positive d)%Z -> (0 <= Negative d)%Z -> (0 <= Neutral d)%Z ->
        (0 < total d)%Z ->
        In (get_overall_sentiment (PDict data)) verdicts
        /\ get_overall_sentiment (PDict data) <> "Neutral")
  /\ (forall d1 d2,
        dict_lookup "Sentiment Distribution" d1
        = dict_lookup "Sentiment Distribution" d2 ->
        get_overall_sentiment (PDict d1) = get_overall_sentiment (PDict d2)).
Proof.
  split.
  { intros data. unfold get_overall_sentiment.
    destruct (negb (py_truthy data)); [simpl; tauto|].
    destruct (get_overall_sentiment_body data) as [e|s] eqn:E.
    - simpl. tauto.
    - cbn [try_except]. apply (overall_body_values data). exact E. }
  split; [exact overall_neutral_iff|].
  split; [reflexivity|]. split; [reflexivity|].
  split.
  { intros data L. apply overall_neutral_iff. right. right.
    exists (PDict []). cbn [py_get]. rewrite L. split; reflexivity. }
  split.
  { intros data d L T. apply overall_neutral_iff. right. right.
    exists (distribution_to_py d). cbn [py_get]. rewrite L.
    split; [reflexivity|]. rewrite py_sum_values_distribution, T. reflexivity. }
  split.
  { intros z. unfold get_overall_sentiment.
    destruct (negb (py_truthy (PInt z))); reflexivity. }
  split.
  { intros s. unfold get_overall_sentiment.
    destruct (negb (py_truthy (PStr s))); reflexivity. }
  split.
  { intros l. unfold get_overall_sentiment.
    destruct (negb (py_truthy (PList l))); reflexivity. }
  split.
  { intros data v L NV. rewrite overall_of_dict, L.
    unfold get_overall_sentiment_body. cbn [py_get dict_lookup].
    rewrite String.eqb_refl. cbn [bind ret].
    destruct v as [|z|s|l|d]; try reflexivity.
    exfalso. apply (NV d). reflexivity. }
  split.
  { intros data d L NI. rewrite overall_of_dict, L.
    unfold get_overall_sentiment_body. cbn [py_get dict_lookup].
    rewrite String.eqb_refl. cbn [bind ret].
    destruct (py_sum_values_not_int d NI) as [e ->]. reflexivity. }
  split.
  { intros data d L P N U T.
    pose proof (overall_of_distribution data d L P N U T) as V.
    split; [exact V|]. intros E. rewrite E in V.
    apply neutral_is_no_verdict, V. }
  intros d1 d2 H. rewrite !overall_of_dict, H. reflexivity.
Qed.

(** ** C6 *)



Section Boundary.
Context {order : SetOrder}.



End Boundary.



Section Handlers.
Context {order : SetOrder}.



End Handlers.




(** ** The theorems at sample batches *)

Lemma coverage_differences_are_first_five_divergent_pairs_witness :
  fits alternating
  /\ (Coverage_Differences
        (compare_articles (order := insertion_order) (batch alternating))
      = firstn 5 (map (difference_at alternating) (divergent_pairs alternating))
      /\ (forall i j,
            In (i, j) (divergent_pairs alternating) <->
            (j = i + 1 \/ j = i + 2) /\ j < List.length alternating
            /\ label_of (article_at alternating i)
               <> label_of (article_at alternating j))
      /\ StronglySorted pair_lt (divergent_pairs alternating)
      /\ List.length
           (Coverage_Differences
              (compare_articles (order := insertion_order) (batch alternating)))
         <= 5).
Proof.
  split; [fits_now|].
  apply (coverage_differences_are_first_five_divergent_pairs
           insertion_order alternating).
  fits_now.
Defined.

Lemma five_topic_sets_share_nothing :
  forall t, ~ Forall (fun a => In t (topics_of a)) (topic_bearing five_topic_sets).
Proof.
  intros t H. rewrite Forall_forall in H.
  pose proof (H (article None (Some "Neutral") (Some ["c"]))
                ltac:(simpl; tauto)) as Hc.
  pose proof (H (article None (Some "Neutral") (Some ["e"]))
                ltac:(simpl; tauto)) as He.
  simpl in Hc, He. destruct Hc as [<- | []]. destruct He as [E | []].
  discriminate.
Defined.

Lemma common_topics_fallback_threshold_witness :
  fits five_topic_sets
  /\ topic_bearing five_topic_sets <> []
  /\ (forall t,
        ~ Forall (fun a => In t (topics_of a)) (topic_bearing five_topic_sets))
  /\ (forall h,
        In h (Common_Topics
                (Topic_Overlap
                   (compare_articles (order := insertion_order)
                                     (batch five_topic_sets)))) <->
        exists t,
          h = HStr t
          /\ (spec_threshold (number_of_topic_sets five_topic_sets)
              <= frequency t five_topic_sets)%Z)
  /\ ((number_of_topic_sets five_topic_sets <= 10000)%Z ->
      spec_threshold (number_of_topic_sets five_topic_sets)
      = exact_threshold (number_of_topic_sets five_topic_sets)).
Proof.
  split; [fits_now|]. split; [discriminate|].
  split; [exact five_topic_sets_share_nothing|].
  apply (common_topics_fallback_threshold insertion_order five_topic_sets).
  - fits_now.
  - discriminate.
  - exact five_topic_sets_share_nothing.
Defined.

Lemma overall_sentiment_follows_ratio_thresholds_witness :
  exists positive_ratio negative_ratio,
    int_truediv 8 10 = ret positive_ratio
    /\ int_truediv 1 10 = ret negative_ratio
    /\ get_overall_sentiment
         (analysis_to_py
            {| Sentiment_Distribution :=
                 {| Positive := 8; Negative := 1; Neutral := 1 |};
               Coverage_Differences := [];
               Topic_Overlap := {| Common_Topics := []; Unique_Topics := [] |} |})
       = verdict_of_ratios positive_ratio negative_ratio
    /\ float_gt float_0_6 float_0_6 = false
    /\ float_gt float_0_4 float_0_4 = false
    /\ ((10 <= 200)%Z ->
        get_overall_sentiment
          (analysis_to_py
             {| Sentiment_Distribution :=
                  {| Positive := 8; Negative := 1; Neutral := 1 |};
                Coverage_Differences := [];
                Topic_Overlap := {| Common_Topics := []; Unique_Topics := [] |} |})
        = exact_verdict 8 1 10).
Proof.
  apply (overall_sentiment_follows_ratio_thresholds
           [("Sentiment Distribution",
              distribution_to_py {| Positive := 8; Negative := 1; Neutral := 1 |});
            ("Coverage Differences", PList []);
            ("Topic Overlap",
              overlap_to_py {| Common_Topics := []; Unique_Topics := [] |})]
           {| Positive := 8; Negative := 1; Neutral := 1 |});
    [reflexivity | simpl; lia | simpl; lia | simpl; lia | unfold total; simpl; lia].
Defined.

Lemma unique_topics_are_topics_minus_common_witness :
  fits sharing_X
  /\ (List.length
        (Unique_Topics
           (Topic_Overlap
              (compare_articles (order := reversed_order) (batch sharing_X))))
      = List.length (topic_bearing sharing_X)
      /\ forall i a,
           nth_error (topic_bearing sharing_X) i = Some a ->
           exists unique,
             nth_error
               (Unique_Topics
                  (Topic_Overlap
                     (compare_articles (order := reversed_order)
                                       (batch sharing_X)))) i
             = Some unique
             /\ (forall h,
                   In h unique <->
                   (exists t, h = HStr t /\ In t (topics_of a))
                   /\ ~ In h (Common_Topics
                                (Topic_Overlap
                                   (compare_articles (order := reversed_order)
                                                     (batch sharing_X)))))
             /\ (forall t,
                   In t (topics_of a) ->
                   In (HStr t) unique
                   \/ In (HStr t)
                         (Common_Topics
                            (Topic_Overlap
                               (compare_articles (order := reversed_order)
                                                 (batch sharing_X)))))
             /\ (forall h,
                   In h unique ->
                   ~ In h (Common_Topics
                             (Topic_Overlap
                                (compare_articles (order := reversed_order)
                                                  (batch sharing_X)))))).
Proof.
  split; [fits_now|].
  apply (unique_topics_are_topics_minus_common reversed_order sharing_X).
  fits_now.
Defined.

Lemma sentiment_distribution_counts_exact_labels_witness :
  fits alternating
  /\ (Positive
        (Sentiment_Distribution
           (compare_articles (order := insertion_order) (batch alternating)))
      = count_of "Positive" alternating
      /\ Negative
           (Sentiment_Distribution
              (compare_articles (order := insertion_order) (batch alternating)))
         = count_of "Negative" alternating
      /\ Neutral
           (Sentiment_Distribution
              (compare_articles (order := insertion_order) (batch alternating)))
         = count_of "Neutral" alternating
      /\ total
           (Sentiment_Distribution
              (compare_articles (order := insertion_order) (batch alternating)))
         = Z.of_nat (List.length (filter counted alternating))
      /\ (total
            (Sentiment_Distribution
               (compare_articles (order := insertion_order) (batch alternating)))
          <= Z.of_nat (List.length alternating))%Z
      /\ (total
            (Sentiment_Distribution
               (compare_articles (order := insertion_order) (batch alternating)))
          = Z.of_nat (List.length alternating)
          <-> forall a, In a alternating -> counted a = true)
      /\ py_keys (distribution_to_py
                    (Sentiment_Distribution
                       (compare_articles (order := insertion_order)
                                         (batch alternating))))
         = ["Positive"; "Negative"; "Neutral"]).
Proof.
  split; [fits_now|].
  apply (sentiment_distribution_counts_exact_labels insertion_order alternating).
  fits_now.
Defined.

Lemma absent_and_unknown_labels_diverge_witness :
  In (0, 1) (divergent_pairs absent_then_unknown)
  /\ coverage_difference (map to_py absent_then_unknown) 0 1
     = ret (Some
              {| Comparison :=
                   ("Article 'Article 1' has Unknown sentiment about X, a, "
                    ++ "while Article 'Second' has Unknown sentiment about "
                    ++ "X, b, c.")%string;
                 Impact := shared_perception |}).
Proof.
  apply (absent_and_unknown_labels_diverge absent_then_unknown 0 1).
  - left. reflexivity.
  - simpl. lia.
  - left. split; reflexivity.
Defined.

(** ** Where the claims as stated fail *)

(** C7 as stated: of the default distribution, all zero, the verdict is
    ["Neutral"], which is none of the five. *)
Lemma overall_sentiment_neutral_is_not_a_verdict :
  get_overall_sentiment (analysis_to_py default_analysis) = "Neutral"
  /\ ~ In "Neutral" verdicts.
Proof.
  split; [reflexivity|]. simpl. intros H.
  repeat (destruct H as [H | H]; [discriminate|]). exact H.
Qed.

(** C8 as stated: every article of [one_unknown] has a label, and the
    counts sum to 0, not to the length of the batch. *)
Lemma labelled_article_in_no_bucket :
  fits one_unknown
  /\ (forall a, In a one_unknown -> label_of a <> None)
  /\ total (Sentiment_Distribution
              (compare_articles (order := insertion_order) (batch one_unknown)))
     = 0%Z
  /\ Z.of_nat (List.length one_unknown) = 1%Z.
Proof.
  split; [fits_now|]. split; [|split; reflexivity].
  intros a [<- | []]. discriminate.
Qed.

(** C10 as stated: the pair of [absent_then_unknown] is emitted with
    ["Unknown"] shown for both articles, and its Impact is the
    shared-perception text, not the generic fallback. *)
Lemma absent_and_unknown_impact_is_not_the_fallback :
  Coverage_Differences
    (compare_articles (order := insertion_order) (batch absent_then_unknown))
  = [{| Comparison :=
          ("Article 'Article 1' has Unknown sentiment about X, a, "
           ++ "while Article 'Second' has Unknown sentiment about "
           ++ "X, b, c.")%string;
        Impact :=
          "Both articles share similar sentiment, reinforcing the same perception." |}]
  /\ "Both articles share similar sentiment, reinforcing the same perception."
     <> generic_fallback.
Proof. split; [vm_compute; reflexivity | discriminate]. Qed.

(** ** The scenarios of the specification *)

(** Scenario 1: a Positive and a Negative article that share topic A. *)
Example scenario_positive_then_negative :
  let r := compare_articles (order := insertion_order)
             (batch [article None (Some "Positive") (Some ["A"; "B"]);
                     article None (Some "Negative") (Some ["A"; "C"])]) in
  Sentiment_Distribution r = {| Positive := 1; Negative := 1; Neutral := 0 |}
  /\ Common_Topics (Topic_Overlap r) = [HStr "A"]
  /\ Unique_Topics (Topic_Overlap r) = [[HStr "B"]; [HStr "C"]]
  /\ Coverage_Differences r
     = [{| Comparison :=
             ("Article 'Article 1' has Positive sentiment about A, B, "
              ++ "while Article 'Article 2' has Negative sentiment about A, C.")%string;
           Impact := market_uncertainty |}].
Proof. vm_compute. repeat split. Qed.

(** Scenario 2: three Neutral articles. *)
Example scenario_three_neutral :
  let r := compare_articles (order := insertion_order)
             (batch [article None (Some "Neutral") None;
                     article None (Some "Neutral") None;
                     article None (Some "Neutral") None]) in
  Coverage_Differences r = []
  /\ get_overall_sentiment (analysis_to_py r) = "Mixed or Neutral".
Proof. vm_compute. split; reflexivity. Qed.

(** Scenario 3, and the two boundaries: 3 of 5 is not above 0.6, 2 of 5
    is not above 0.4. *)
Example scenario_ratios :
  get_overall_sentiment
    (PDict [("Sentiment Distribution",
              distribution_to_py {| Positive := 8; Negative := 1; Neutral := 1 |})])
  = "Very Positive"
  /\ get_overall_sentiment
       (PDict [("Sentiment Distribution",
                 distribution_to_py {| Positive := 3; Negative := 1; Neutral := 1 |})])
     = "Moderately Positive"
  /\ get_overall_sentiment
       (PDict [("Sentiment Distribution",
                 distribution_to_py {| Positive := 2; Negative := 2; Neutral := 1 |})])
     = "Mixed or Neutral"
  /\ int_truediv 3 5 = ret float_0_6
  /\ int_truediv 2 5 = ret float_0_4.
Proof. vm_compute. repeat split. Qed.

(** Scenarios 4 and 5: the empty batch, and its narrative. *)
Example scenario_empty_batch :
  compare_articles (order := insertion_order) (batch []) = default_analysis
  /\ generate_final_sentiment_text
       (PStr "Acme")
       (analysis_to_py (compare_articles (order := insertion_order) (batch [])))
     = "No reliable sentiment data available for Acme.".
Proof. vm_compute. split; reflexivity. Qed.

(** Scenario 6: of six articles five bear topics, no topic is in all
    five sets, ["X"] is in three; the threshold is [max(2, 1.5)] and
    ["X"] is the one Common Topic. *)
Example scenario_fallback :
  Common_Topics
    (Topic_Overlap
       (compare_articles (order := insertion_order) (batch five_topic_sets)))
  = [HStr "X"]
  /\ number_of_topic_sets five_topic_sets = 5%Z
  /\ spec_threshold 5 = 2%Z.
Proof. vm_compute. repeat split. Qed.

(** A [topics] field that cannot be made a set, analysis data that is
    not a dictionary: the handlers answer. *)
Example scenario_malformed :
  compare_articles (order := insertion_order)
    (PList [PDict [("sentiment", PDict [("label", PStr "Positive")]);
                   ("topics", PNone)]])
  = default_analysis
  /\ compare_articles (order := insertion_order) PNone = default_analysis
  /\ generate_final_sentiment_text (PStr "Acme") PNone
     = "Analysis of Acme's recent news coverage is inconclusive."
  /\ generate_final_sentiment_text
       (PStr "Acme")
       (PDict [("Sentiment Distribution", PDict [("Positive", PStr "many")])])
     = "Analysis of Acme's recent news coverage is inconclusive.".
Proof. vm_compute. repeat split. Qed.

(** * Further properties *)

(** ** [sanitize_text] *)

Lemma string_app_assoc (a b c : string) : ((a ++ b) ++ c = a ++ (b ++ c))%string.
Proof. induction a as [|x a IH]; simpl; [reflexivity | rewrite IH; reflexivity]. Qed.

Lemma string_app_nil_r (a : string) : (a ++ "")%string = a.
Proof. induction a as [|x a IH]; simpl; [reflexivity | rewrite IH; reflexivity]. Qed.

Lemma has_space_app a b : has_space (a ++ b) = has_space a || has_space b.
Proof.
  induction a as [|x a IH]; simpl; [reflexivity|].
  rewrite IH, orb_assoc. reflexivity.
Qed.

Lemma rstrip_no_space w : has_space w = false -> rstrip w = w.
Proof.
  induction w as [|c w IH]; simpl; [reflexivity|].
  intros H. apply orb_false_iff in H. destruct H as [Hc Hw].
  rewrite (IH Hw), Hc. destruct w; reflexivity.
Qed.

(** A prefix stays when what follows does not vanish. *)
Lemma rstrip_app pre x :
  rstrip x <> "" -> rstrip (pre ++ x) = (pre ++ rstrip x)%string.
Proof.
  intros H. induction pre as [|c pre IH]; simpl; [reflexivity|].
  rewrite IH. destruct (pre ++ rstrip x)%string eqn:E; [|reflexivity].
  destruct pre; simpl in E; [contradiction | discriminate].
Qed.

Lemma rstrip_app_space w :
  has_space w = false -> rstrip (w ++ " ") = w.
Proof.
  intros H. destruct w as [|c w]; [reflexivity|].
  transitivity (String c w ++ rstrip "")%string; [|apply string_app_nil_r].
  induction (String c w) as [|d u IH] in H |- *; [reflexivity|].
  simpl in H. apply orb_false_iff in H. destruct H as [Hd Hu].
  simpl. rewrite (IH Hu). simpl. rewrite Hd.
  destruct (u ++ "")%string eqn:E; reflexivity.
Qed.

Lemma split_from_nonempty w s : w <> "" -> split_from w s <> [].
Proof.
  revert w. induction s as [|c s IH]; intros w H; simpl.
  - destruct w; [contradiction | discriminate].
  - destruct (is_space c).
    + destruct w; [contradiction | discriminate].
    + apply IH. destruct w; discriminate.
Qed.

Lemma join_cons sep p rest :
  rest <> [] -> join sep (p :: rest) = (p ++ sep ++ join sep rest)%string.
Proof. destruct rest; [contradiction | reflexivity]. Qed.

Lemma join_space_nonempty w rest : w <> "" -> join " " (w :: rest) <> "".
Proof.
  intros H. destruct rest; simpl; destruct w; try contradiction; discriminate.
Qed.

Lemma split_from_head w s :
  w <> "" -> exists w' rest, split_from w s = w' :: rest /\ w' <> "".
Proof.
  revert w. induction s as [|c s IH]; intros w H; simpl.
  - destruct w; [contradiction|]. eexists _, _. split; [reflexivity | discriminate].
  - destruct (is_space c).
    + destruct w; [contradiction|]. eexists _, _. split; [reflexivity | discriminate].
    + apply IH. destruct w; discriminate.
Qed.

(** Inside a word, and after the space that follows a word. *)
Lemma rstrip_collapse s :
  (forall w, has_space w = false -> w <> "" ->
             rstrip (w ++ collapse_from false s) = join " " (split_from w s))
  /\ (forall w, has_space w = false -> w <> "" ->
                rstrip (w ++ " " ++ collapse_from true s)
                = join " " (w :: split_from "" s)).
Proof.
  induction s as [|c s [IH1 IH2]]; split; intros w Hw Hn.
  - simpl. rewrite string_app_nil_r, rstrip_no_space by exact Hw.
    destruct w; [contradiction | reflexivity].
  - simpl. apply rstrip_app_space, Hw.
  - simpl. destruct (is_space c) eqn:Ec.
    + destruct w as [|x w'] eqn:Ew; [contradiction|]. rewrite <- Ew in *.
      rewrite <- IH2 by assumption. reflexivity.
    + change (String c (collapse_from false s))
        with (String c "" ++ collapse_from false s)%string.
      rewrite <- string_app_assoc. apply IH1.
      * rewrite has_space_app, Hw. simpl. rewrite Ec. reflexivity.
      * destruct w; discriminate.
  - cbn [collapse_from split_from]. destruct (is_space c) eqn:Ec.
    + apply IH2; assumption.
    + assert (Hc : has_space (String c "") = false) by (simpl; rewrite Ec; reflexivity).
      assert (Nc : String c "" <> "") by discriminate.
      specialize (IH1 (String c "") Hc Nc).
      destruct (split_from_head (String c "") s Nc) as (w' & rest & E & Nw').
      change ("" ++ String c "")%string with (String c "").
      rewrite join_cons by (rewrite E; discriminate).
      change (w ++ " " ++ String c (collapse_from false s))%string
        with (w ++ (" " ++ (String c "" ++ collapse_from false s)))%string.
      rewrite <- string_app_assoc, rstrip_app.
      * rewrite IH1, string_app_assoc. reflexivity.
      * rewrite IH1, E. apply join_space_nonempty, Nw'.
Qed.

Lemma strip_collapse s b :
  rstrip (lstrip (collapse_from b s)) = join " " (py_split s).
Proof.
  unfold py_split. revert b. induction s as [|c s IH]; intros b; [reflexivity|].
  simpl. destruct (is_space c) eqn:Ec.
  - destruct b; [apply IH|]. simpl. apply IH.
  - simpl. rewrite Ec.
    destruct (rstrip_collapse s) as [H _].
    apply (H (String c "")); [simpl; rewrite Ec; reflexivity | discriminate].
Qed.

(** The words of a text have no white space and are not empty, and
    together they are its visible characters. *)
Lemma split_from_words w s :
  has_space w = false ->
  Forall (fun x => x <> "" /\ has_space x = false) (split_from w s).
Proof.
  revert w. induction s as [|c s IH]; intros w Hw; simpl.
  - destruct w; constructor; [split; [discriminate | exact Hw] | constructor].
  - destruct (is_space c) eqn:Ec.
    + destruct w; [apply IH; reflexivity|].
      constructor; [split; [discriminate | exact Hw] | apply IH; reflexivity].
    + apply IH. rewrite has_space_app, Hw. simpl. rewrite Ec. reflexivity.
Qed.

Lemma split_from_visible w s :
  string_concat (split_from w s) = (w ++ visible s)%string.
Proof.
  revert w. induction s as [|c s IH]; intros w; simpl.
  - destruct w; simpl; [reflexivity|]. rewrite !string_app_nil_r. reflexivity.
  - destruct (is_space c).
    + destruct w; [apply IH|]. simpl. rewrite IH. reflexivity.
    + rewrite IH, string_app_assoc. reflexivity.
Qed.

(** Splitting what was joined gives the words back. *)
Lemma split_from_word_app w x s :
  has_space x = false ->
  split_from w (x ++ s) = split_from (w ++ x) s.
Proof.
  revert w. induction x as [|c x IH]; intros w H; simpl.
  - rewrite string_app_nil_r. reflexivity.
  - simpl in H. apply orb_false_iff in H. destruct H as [Hc Hx].
    rewrite Hc, IH by exact Hx. rewrite string_app_assoc. reflexivity.
Qed.

Lemma split_join words :
  Forall (fun x => x <> "" /\ has_space x = false) words ->
  py_split (join " " words) = words.
Proof.
  unfold py_split. induction 1 as [|w rest [Nw Hw] F IH]; [reflexivity|].
  destruct rest as [|w' rest].
  - simpl. rewrite <- (string_app_nil_r w) at 1.
    rewrite split_from_word_app by exact Hw. simpl.
    destruct w; [contradiction | reflexivity].
  - rewrite join_cons by discriminate.
    rewrite split_from_word_app by exact Hw.
    cbn [append split_from]. change (is_space " ") with true. cbv iota.
    destruct w; [contradiction|]. rewrite IH. reflexivity.
Qed.

Lemma sanitize_text_str s :
  sanitize_text (PStr s) = ret (join " " (py_split s)).
Proof.
  unfold sanitize_text, strip, re_sub_spaces. simpl.
  destruct (String.eqb s "") eqn:E.
  - apply String.eqb_eq in E. subst s. reflexivity.
  - simpl. rewrite strip_collapse. reflexivity.
Qed.

(** X1.  On every string, [sanitize_text] returns the words of the text
    (its maximal runs of characters that are not white space, what
    [text.split()] gives) joined by single spaces: no word is empty or
    holds white space, and the words together are the characters of the
    text that are not white space, in order. *)
Theorem sanitize_text_joins_the_words (s : string) :
  sanitize_text (PStr s) = ret (join " " (py_split s))
  /\ Forall (fun w => w <> "" /\ has_space w = false) (py_split s)
  /\ string_concat (py_split s) = visible s.
Proof.
  split; [apply sanitize_text_str|]. split.
  - apply split_from_words. reflexivity.
  - apply (split_from_visible "" s).
Qed.

(** X2.  [sanitize_text] is idempotent: cleaning a cleaned text changes
    nothing, whatever the first argument was (on an argument it
    rejects, both sides raise). *)
Theorem sanitize_text_is_idempotent (text : pyval) :
  (cleaned <- sanitize_text text ;; sanitize_text (PStr cleaned))
  = sanitize_text text.
Proof.
  assert (S : forall s, (cleaned <- sanitize_text (PStr s) ;; sanitize_text (PStr cleaned))
                        = sanitize_text (PStr s)).
  { intros s. rewrite sanitize_text_str. cbn [bind ret].
    rewrite sanitize_text_str, split_join; [reflexivity|].
    apply split_from_words. reflexivity. }
  destruct text as [|z|s|l|d]; try apply S; try reflexivity.
  - unfold sanitize_text. simpl. destruct (Z.eqb z 0); reflexivity.
  - destruct l; reflexivity.
  - destruct d; reflexivity.
Qed.

(** ** [fetch_news_feeds] and [search_news_articles] *)

Lemma slice_to_length {A} k (l : list A) :
  (0 <= k)%Z -> (Z.of_nat (List.length (slice_to k l)) <= k)%Z.
Proof.
  intros H. unfold slice_to.
  replace (k <? 0)%Z with false by (symmetry; apply Z.ltb_ge; exact H).
  pose proof (firstn_le_length (Z.to_nat k) l).
  rewrite length_firstn. lia.
Qed.

Lemma slice_to_all {A} k (l : list A) :
  (Z.of_nat (List.length l) <= k)%Z -> slice_to k l = l.
Proof.
  intros H. unfold slice_to.
  replace (k <? 0)%Z with false by (symmetry; apply Z.ltb_ge; lia).
  apply firstn_all2. lia.
Qed.

Section FeedsFacts.
Variable quote : pyval -> M string.
Variable parse_entries : string -> M (list FeedEntry).
Variable today : nat -> nat -> string.

Lemma article_of_entry_complete i k entry :
  complete_entry entry = true ->
  exists a, article_of_entry today i k entry = ret a.
Proof.
  unfold complete_entry, article_of_entry.
  destruct (entry_title entry), (entry_link entry); try discriminate.
  intros _. eexists. reflexivity.
Qed.

Lemma article_of_entry_incomplete i k entry :
  complete_entry entry = false ->
  exists e, article_of_entry today i k entry = raise e.
Proof.
  unfold complete_entry, article_of_entry.
  destruct (entry_title entry), (entry_link entry); try discriminate;
    intros _; eexists; reflexivity.
Qed.

Lemma append_entries_app i entries :
  forall k articles,
    append_entries today i k entries articles
    = articles ++ append_entries today i k entries [].
Proof.
  induction entries as [|entry rest IH]; intros k articles; simpl.
  - rewrite app_nil_r. reflexivity.
  - destruct (article_of_entry today i k entry) as [e|a].
    + rewrite app_nil_r. reflexivity.
    + rewrite (IH (S k) (articles ++ [a])), (IH (S k) [a]), app_assoc.
      reflexivity.
Qed.

Lemma append_entries_readable i entries :
  forall k,
    articles_of today i k (readable entries)
    = ret (append_entries today i k entries []).
Proof.
  induction entries as [|entry rest IH]; intros k; simpl; [reflexivity|].
  destruct (complete_entry entry) eqn:C.
  - destruct (article_of_entry_complete i k entry C) as [a Ea].
    cbn [articles_of]. rewrite Ea. cbn [bind ret].
    rewrite IH. cbn [bind ret].
    rewrite (append_entries_app i rest (S k) [a]). reflexivity.
  - destruct (article_of_entry_incomplete i k entry C) as [e Ee].
    rewrite Ee. reflexivity.
Qed.

Lemma append_entries_length i entries :
  forall k,
    List.length (append_entries today i k entries []) <= List.length entries.
Proof.
  induction entries as [|entry rest IH]; intros k; simpl; [lia|].
  destruct (article_of_entry today i k entry) as [e|a]; simpl; [lia|].
  rewrite (append_entries_app i rest (S k) [a]). simpl.
  specialize (IH (S k)). lia.
Qed.

Lemma read_source_app i url_template query num_results articles :
  read_source quote parse_entries today i url_template query num_results articles
  = articles
    ++ read_source quote parse_entries today i url_template query num_results [].
Proof.
  unfold read_source.
  destruct (q <- quote query ;;
            entries <- parse_entries (url_template q) ;;
            ret (slice_to (num_results / 2) entries)) as [e|entries].
  - rewrite app_nil_r. reflexivity.
  - apply append_entries_app.
Qed.

Lemma read_source_length i url_template query num_results :
  (0 <= num_results)%Z ->
  (Z.of_nat
     (List.length
        (read_source quote parse_entries today i url_template query num_results []))
   <= num_results / 2)%Z.
Proof.
  intros H.
  assert (H2 : (0 <= num_results / 2)%Z) by (apply Z.div_pos; lia).
  unfold read_source.
  destruct (quote query) as [e|q]; cbn [bind]; [simpl; lia|].
  destruct (parse_entries (url_template q)) as [e|entries]; cbn [bind ret];
    [simpl; lia|].
  pose proof (append_entries_length i (slice_to (num_results / 2) entries) 0).
  pose proof (slice_to_length (num_results / 2) entries H2). lia.
Qed.

Lemma fetch_news_feeds_parts query num_results :
  fetch_news_feeds quote parse_entries today query num_results
  = read_source quote parse_entries today 0 (snd (nth 0 NEWS_SOURCES ("", id)))
                query num_results []
    ++ read_source quote parse_entries today 1 (snd (nth 1 NEWS_SOURCES ("", id)))
                   query num_results [].
Proof.
  unfold fetch_news_feeds. cbn [NEWS_SOURCES read_sources nth snd].
  apply read_source_app.
Qed.

Lemma fetch_news_feeds_length query num_results :
  (0 <= num_results)%Z ->
  (Z.of_nat
     (List.length (fetch_news_feeds quote parse_entries today query num_results))
   <= 2 * (num_results / 2))%Z.
Proof.
  intros H. rewrite fetch_news_feeds_parts, length_app, Nat2Z.inj_add.
  pose proof (read_source_length 0 (snd (nth 0 NEWS_SOURCES ("", id)))
                                 query num_results H).
  pose proof (read_source_length 1 (snd (nth 1 NEWS_SOURCES ("", id)))
                                 query num_results H).
  lia.
Qed.

End FeedsFacts.

(** X3.  For a non-negative number of articles asked for,
    [search_news_articles] returns what [fetch_news_feeds] has read,
    its final slice cutting nothing: the two sources give at most
    [num_articles // 2] articles each, so at most [2 * (num_articles // 2)]
    in all, which is one fewer than asked for when the number is odd
    (14 for the default of 15). *)
Theorem search_news_articles_returns_at_most_twice_half
    (quote : pyval -> M string) (parse_entries : string -> M (list FeedEntry))
    (today : nat -> nat -> string) (company_name : pyval) (num_articles : Z) :
  (0 <= num_articles)%Z ->
  search_news_articles quote parse_entries today company_name num_articles
  = fetch_news_feeds quote parse_entries today company_name num_articles
  /\ (Z.of_nat
        (List.length
           (search_news_articles quote parse_entries today company_name num_articles))
      <= 2 * (num_articles / 2) <= num_articles)%Z
  /\ (Z.odd num_articles = true ->
      (Z.of_nat
         (List.length
            (search_news_articles quote parse_entries today company_name num_articles))
       < num_articles)%Z).
Proof.
  intros H.
  pose proof (fetch_news_feeds_length quote parse_entries today
                company_name num_articles H) as L.
  pose proof (Z.mul_div_le num_articles 2 ltac:(lia)) as D.
  assert (E : search_news_articles quote parse_entries today company_name num_articles
              = fetch_news_feeds quote parse_entries today company_name num_articles).
  { unfold search_news_articles. apply slice_to_all. lia. }
  rewrite E. split; [reflexivity|]. split; [lia|].
  intros O.
  assert (M2 : (num_articles mod 2 = 1)%Z)
    by (rewrite <- Z.bit0_mod, Z.bit0_odd, O; reflexivity).
  pose proof (Z.div_mod num_articles 2 ltac:(lia)). lia.
Qed.

(** X4.  The two sources of [fetch_news_feeds] are read independently of
    each other, Google News first: the result is what the first source
    gives followed by what the second gives.  A source whose URL cannot
    be built or whose feed cannot be parsed gives nothing; a source
    whose feed is parsed gives the articles of the first
    [num_results // 2] entries up to, and without, the first entry that
    lacks a title or a link.  No failure reaches the caller. *)
Theorem fetch_news_feeds_reads_each_source_on_its_own
    (quote : pyval -> M string) (parse_entries : string -> M (list FeedEntry))
    (today : nat -> nat -> string) (query : pyval) (num_results : Z) :
  let from i url_template :=
    read_source quote parse_entries today i url_template query num_results [] in
  fetch_news_feeds quote parse_entries today query num_results
  = from 0 (fun q => "https://news.google.com/rss/search?q=" ++ q)%string
    ++ from 1 (fun q => "https://www.bing.com/news/search?q=" ++ q ++ "&format=rss")%string
  /\ (forall i url_template,
        match quote query with
        | inl _ => from i url_template = []
        | inr q =>
            match parse_entries (url_template q) with
            | inl _ => from i url_template = []
            | inr entries =>
                articles_of today i 0 (readable (slice_to (num_results / 2) entries))
                = ret (from i url_template)
            end
        end).
Proof.
  intros from. split; [apply fetch_news_feeds_parts|].
  intros i url_template. unfold from, read_source.
  destruct (quote query) as [e|q]; cbn [bind]; [reflexivity|].
  destruct (parse_entries (url_template q)) as [e|entries]; cbn [bind ret];
    [reflexivity|].
  apply append_entries_readable.
Qed.

(** ** [summarize_text] *)

Lemma mapM_ret {A B} (f : A -> M B) (g : A -> B) l :
  (forall a, f a = ret (g a)) -> mapM f l = ret (map g l).
Proof.
  intros H. induction l as [|a l IH]; simpl; [reflexivity|].
  rewrite H, IH. reflexivity.
Qed.

Lemma substring_app_l n m s t :
  n + m <= String.length s ->
  String.substring n m (s ++ t) = String.substring n m s.
Proof.
  revert n m. induction s as [|c s IH]; intros n m H; simpl in H.
  - assert (n = 0) by lia. assert (m = 0) by lia. subst. simpl.
    destruct t; reflexivity.
  - destruct n as [|n]; simpl.
    + destruct m as [|m]; [reflexivity|]. f_equal.
      apply (IH 0 m). lia.
    + apply IH. lia.
Qed.

Lemma string_length_app s t :
  String.length (s ++ t) = String.length s + String.length t.
Proof. induction s as [|c s IH]; simpl; [reflexivity | rewrite IH; reflexivity]. Qed.

Lemma text_chunks_str s :
  text_chunks (PStr s)
  = ret (map (fun i => PStr (String.substring i 1024 s))
             (range_step (String.length s) 1024)).
Proof.
  unfold text_chunks. cbn [py_len bind ret].
  apply mapM_ret. intros i. unfold py_slice.
  replace (i + 1024 - i) with 1024 by lia. reflexivity.
Qed.

(** The chunks that are summarized: the first two pieces of 1024
    characters, and the third when the text goes beyond them. *)
Lemma first_chunks_str s :
  1024 < String.length s ->
  firstn 3 (map (fun i => PStr (String.substring i 1024 s))
                (range_step (String.length s) 1024))
  = map PStr (first_chunks s).
Proof.
  intros H. unfold range_step, first_chunks.
  set (n := String.length s) in *.
  destruct (Nat.ltb 2048 n) eqn:E.
  - apply Nat.ltb_lt in E.
    assert (C : exists c, (n + 1024 - 1) / 1024 = 3 + c).
    { exists ((n + 1024 - 1) / 1024 - 3).
      assert (3 <= (n + 1024 - 1) / 1024)
        by (apply Nat.div_le_lower_bound; lia).
      lia. }
    destruct C as [c ->]. reflexivity.
  - apply Nat.ltb_ge in E.
    assert (C : (n + 1024 - 1) / 1024 = 2).
    { symmetry. apply Nat.div_unique with (r := n - 1025); lia. }
    rewrite C. reflexivity.
Qed.

Section SummariesFacts.
Variable load_summarizer : M unit.
Variable summarizer : nat -> pyval -> Z -> Z -> M pyval.
Variable sent_tokenize : pyval -> M (list string).

Lemma summarize_text_body_long s max_length :
  1024 < String.length s ->
  summarize_text_body load_summarizer summarizer (PStr s) max_length
  = (_ <- load_summarizer ;;
     summaries <-
       summarize_chunks summarizer 0 (map PStr (first_chunks s))
         (max_length / Z.of_nat (List.length (first_chunks s))) ;;
     joined <- py_join " " (PList summaries) ;;
     ret (PStr joined)).
Proof.
  intros H. unfold summarize_text_body.
  destruct load_summarizer as [e|[]]; [reflexivity|]. cbn [bind py_len ret].
  replace (Nat.ltb 1024 (String.length s)) with true
    by (symmetry; apply Nat.ltb_lt; exact H).
  rewrite text_chunks_str. cbn [bind ret].
  rewrite first_chunks_str by exact H. rewrite length_map. reflexivity.
Qed.

Lemma first_chunks_app s t t' :
  String.length s = 3072 -> first_chunks (s ++ t) = first_chunks (s ++ t').
Proof.
  intros H. unfold first_chunks. rewrite !string_length_app, H.
  replace (Nat.ltb 2048 (3072 + String.length t)) with true
    by (symmetry; apply Nat.ltb_lt; lia).
  replace (Nat.ltb 2048 (3072 + String.length t')) with true
    by (symmetry; apply Nat.ltb_lt; lia).
  rewrite !(substring_app_l _ _ s) by lia. reflexivity.
Qed.

Lemma summarize_text_of_body s max_length summary :
  100 <= String.length s ->
  summarize_text_body load_summarizer summarizer (PStr s) max_length = ret summary ->
  summarize_text load_summarizer summarizer sent_tokenize (PStr s) max_length
  = ret summary.
Proof.
  intros H E. unfold summarize_text.
  destruct s as [|c s]; [simpl in H; lia|].
  cbn [py_truthy String.eqb negb py_len bind ret].
  replace (Nat.ltb (String.length (String c s)) 100) with false
    by (symmetry; apply Nat.ltb_ge; exact H).
  rewrite E. reflexivity.
Qed.

End SummariesFacts.

(** X5.  A text of more than 1024 characters is summarized from its
    first three pieces of 1024 characters only: when the summarization
    model answers on a text that goes on after its first 3072
    characters [s], the summary is the same whatever follows them.
    (When the model fails, the fallback reads the sentences of the
    whole text.) *)
Theorem summarize_text_reads_the_first_3072_characters
    (load_summarizer : M unit) (summarizer : nat -> pyval -> Z -> Z -> M pyval)
    (sent_tokenize : pyval -> M (list string))
    (s t t' : string) (max_length : Z) (summary : pyval) :
  String.length s = 3072 ->
  summarize_text_body load_summarizer summarizer (PStr (s ++ t)) max_length
  = ret summary ->
  summarize_text load_summarizer summarizer sent_tokenize (PStr (s ++ t)) max_length
  = ret summary
  /\ summarize_text load_summarizer summarizer sent_tokenize (PStr (s ++ t')) max_length
     = ret summary.
Proof.
  intros L E.
  assert (B : summarize_text_body load_summarizer summarizer (PStr (s ++ t')) max_length
              = ret summary).
  { rewrite <- E. rewrite !summarize_text_body_long
      by (rewrite string_length_app; lia).
    rewrite (first_chunks_app s t t' L). reflexivity. }
  split; apply summarize_text_of_body; try assumption;
    rewrite string_length_app; lia.
Qed.

Lemma substring_length_le n m s : String.length (String.substring n m s) <= m.
Proof.
  revert n m. induction s as [|c s IH]; intros n m.
  - destruct n, m; simpl; lia.
  - destruct n as [|n]; simpl; [|apply IH].
    destruct m as [|m]; simpl; [lia|]. specialize (IH 0 m). lia.
Qed.

Lemma substring_length_full n m s :
  n + m <= String.length s -> String.length (String.substring n m s) = m.
Proof.
  revert n m. induction s as [|c s IH]; intros n m H; simpl in H.
  - assert (n = 0) by lia. assert (m = 0) by lia. subst. reflexivity.
  - destruct n as [|n]; simpl.
    + destruct m as [|m]; [reflexivity|]. simpl. f_equal. apply (IH 0 m). lia.
    + apply IH. lia.
Qed.

Lemma substring_length_pos n m s :
  n < String.length s -> 0 < m -> 1 <= String.length (String.substring n m s).
Proof.
  revert n. induction s as [|c s IH]; intros n Hn Hm; simpl in Hn; [lia|].
  destruct n as [|n]; simpl.
  - destruct m as [|m]; [lia|]. simpl. lia.
  - apply IH; lia.
Qed.

(** X6.  The calls [summarize_text] makes to the summarizer on a
    string, once the pipeline is loaded.  A text of at most 1024
    characters: one call on the text with the [max_length] given and
    [min_length] 50.  A text of 1025 to 2048 characters: one call on
    [text[0:1024]] and one on [text[1024:2048]], each with
    [max_length // 2] and [min_length] 30.  A longer text: one call on
    each of [text[0:1024]], [text[1024:2048]], [text[2048:3072]], each
    with [max_length // 3] and [min_length] 30.  The summaries of the
    chunks are joined by a space, and a call that raises ends the
    block.  Each chunk has 1024 characters, the last one 1 to 1024. *)
Theorem summarize_text_budget_per_chunk
    (load_summarizer : M unit) (summarizer : nat -> pyval -> Z -> Z -> M pyval)
    (s : string) (max_length : Z) :
  (String.length s <= 1024 ->
   summarize_text_body load_summarizer summarizer (PStr s) max_length
   = (_ <- load_summarizer ;;
      summarizer 0 (PStr s) max_length 50%Z))
  /\ (1024 < String.length s <= 2048 ->
      summarize_text_body load_summarizer summarizer (PStr s) max_length
      = (_ <- load_summarizer ;;
         first <- summarizer 0 (PStr (String.substring 0 1024 s))
                             (max_length / 2)%Z 30%Z ;;
         second <- summarizer 1 (PStr (String.substring 1024 1024 s))
                              (max_length / 2)%Z 30%Z ;;
         joined <- py_join " " (PList [first; second]) ;;
         ret (PStr joined))
      /\ String.length (String.substring 0 1024 s) = 1024
      /\ 1 <= String.length (String.substring 1024 1024 s) <= 1024)
  /\ (2048 < String.length s ->
      summarize_text_body load_summarizer summarizer (PStr s) max_length
      = (_ <- load_summarizer ;;
         first <- summarizer 0 (PStr (String.substring 0 1024 s))
                             (max_length / 3)%Z 30%Z ;;
         second <- summarizer 1 (PStr (String.substring 1024 1024 s))
                              (max_length / 3)%Z 30%Z ;;
         third <- summarizer 2 (PStr (String.substring 2048 1024 s))
                             (max_length / 3)%Z 30%Z ;;
         joined <- py_join " " (PList [first; second; third]) ;;
         ret (PStr joined))
      /\ String.length (String.substring 0 1024 s) = 1024
      /\ String.length (String.substring 1024 1024 s) = 1024
      /\ 1 <= String.length (String.substring 2048 1024 s) <= 1024).
Proof.
  split; [|split].
  - intros H. unfold summarize_text_body. cbn [py_len].
    destruct load_summarizer as [e|[]]; [reflexivity|]. cbn [bind ret].
    replace (Nat.ltb 1024 (String.length s)) with false
      by (symmetry; apply Nat.ltb_ge; exact H).
    reflexivity.
  - intros [H1 H2]. split; [|split; [|split]].
    + rewrite summarize_text_body_long by exact H1. unfold first_chunks.
      replace (Nat.ltb 2048 (String.length s)) with false
        by (symmetry; apply Nat.ltb_ge; exact H2).
      destruct load_summarizer as [e|[]]; [reflexivity|].
      cbn [bind ret app map List.length summarize_chunks Z.of_nat Pos.of_succ_nat
           Pos.succ].
      destruct (summarizer 0 (PStr (String.substring 0 1024 s)) (max_length / 2)%Z 30%Z)
        as [e|first]; [reflexivity|]. cbn [bind ret].
      destruct (summarizer 1 (PStr (String.substring 1024 1024 s)) (max_length / 2)%Z 30%Z)
        as [e|second]; reflexivity.
    + apply substring_length_full. lia.
    + apply substring_length_pos; lia.
    + apply substring_length_le.
  - intros H. split; [|split; [|split; [|split]]].
    + rewrite summarize_text_body_long by lia. unfold first_chunks.
      replace (Nat.ltb 2048 (String.length s)) with true
        by (symmetry; apply Nat.ltb_lt; exact H).
      destruct load_summarizer as [e|[]]; [reflexivity|].
      cbn [bind ret app map List.length summarize_chunks Z.of_nat Pos.of_succ_nat
           Pos.succ].
      destruct (summarizer 0 (PStr (String.substring 0 1024 s)) (max_length / 3)%Z 30%Z)
        as [e|first]; [reflexivity|]. cbn [bind ret].
      destruct (summarizer 1 (PStr (String.substring 1024 1024 s)) (max_length / 3)%Z 30%Z)
        as [e|second]; [reflexivity|]. cbn [bind ret].
      destruct (summarizer 2 (PStr (String.substring 2048 1024 s)) (max_length / 3)%Z 30%Z)
        as [e|third]; reflexivity.
    + apply substring_length_full. lia.
    + apply substring_length_full. lia.
    + apply substring_length_pos; lia.
    + apply substring_length_le.
Qed.

(** X7.  [summarize_text] returns a falsy text and a string of fewer
    than 100 characters as it is, without consulting the model.  On a
    string it raises only when the model path has failed and
    [nltk.sent_tokenize] of the handler raises as well, and then with
    the exception of the tokenizer: the handler is not itself
    protected. *)
Theorem summarize_text_raises_only_from_its_handler
    (load_summarizer : M unit) (summarizer : nat -> pyval -> Z -> Z -> M pyval)
    (sent_tokenize : pyval -> M (list string)) (max_length : Z) :
  let summarize text :=
    summarize_text load_summarizer summarizer sent_tokenize text max_length in
  (forall text, py_truthy text = false -> summarize text = ret text)
  /\ (forall s, String.length s < 100 -> summarize (PStr s) = ret (PStr s))
  /\ (forall s e,
        summarize (PStr s) = raise e <->
        100 <= String.length s
        /\ (exists e', summarize_text_body load_summarizer summarizer (PStr s) max_length
                       = raise e')
        /\ sent_tokenize (PStr s) = raise e).
Proof.
  intros summarize. unfold summarize, summarize_text. split; [|split].
  - intros text F. rewrite F. reflexivity.
  - intros s L. destruct (negb (py_truthy (PStr s))); [reflexivity|].
    cbn [py_len bind ret].
    replace (Nat.ltb (String.length s) 100) with true
      by (symmetry; apply Nat.ltb_lt; exact L).
    reflexivity.
  - intros s e. destruct s as [|c s].
    + simpl. split; [discriminate | intros [L _]; lia].
    + cbn [py_truthy String.eqb negb py_len bind ret].
      destruct (Nat.ltb (String.length (String c s)) 100) eqn:L.
      * apply Nat.ltb_lt in L. split; [discriminate | intros [L' _]; lia].
      * apply Nat.ltb_ge in L.
        destruct (summarize_text_body load_summarizer summarizer
                    (PStr (String c s)) max_length) as [e'|summary].
        -- unfold summarize_text_fallback.
           destruct (sent_tokenize (PStr (String c s))) as [e''|sentences];
             cbn [bind ret].
           ++ split.
              ** intros E. split; [exact L|]. split; [exists e'; reflexivity|].
                 unfold raise in *. congruence.
              ** intros (_ & _ & E). unfold raise in *. congruence.
           ++ split; [discriminate | intros (_ & _ & E); discriminate].
        -- split; [discriminate | intros (_ & [e' E] & _); discriminate].
Qed.

(** ** [analyze_sentiment] *)

Lemma counted_labelled_by r :
  In (result_label r) ["Positive"; "Negative"; "Neutral"] ->
  counted (labelled_by r) = true.
Proof.
  unfold counted, has_label, labelled_by, label_of. cbn [sentiment label].
  intros [<- | [<- | [<- | []]]]; reflexivity.
Qed.

(** X8.  Whatever VADER and the transformer classifier answer, and
    whether or not they raise, [analyze_sentiment] returns a result and
    its label is one of ["Positive"], ["Negative"], ["Neutral"], so an
    article carrying it is counted by the Sentiment Distribution of
    [compare_articles]; a falsy text is Neutral with score 0.0, and a
    not-a-number score is Neutral on either path. *)
Theorem analyze_sentiment_label_is_one_of_three
    (vader_compound : nat -> pyval -> M py_float)
    (classifier : pyval -> M (string * py_float)) (text : pyval) :
  let result := analyze_sentiment vader_compound classifier text in
  In (result_label result) ["Positive"; "Negative"; "Neutral"]
  /\ counted (labelled_by result) = true
  /\ (py_truthy text = false -> result = neutral_result)
  /\ (result_score result = S754_nan -> result_label result = "Neutral").
Proof.
  intros result.
  assert (L : In (result_label result) ["Positive"; "Negative"; "Neutral"]
              /\ (result_score result = S754_nan -> result_label result = "Neutral")).
  { unfold result, analyze_sentiment.
    destruct (negb (py_truthy text)); [simpl; tauto|].
    destruct (analyze_sentiment_body vader_compound classifier text)
      as [e|r] eqn:B.
    - unfold analyze_sentiment_fallback.
      destruct (vader_compound 1 text) as [e'|compound];
        cbn [bind ret try_except]; [simpl; tauto|].
      cbn [result_label result_score]. split.
      + destruct (float_gt compound float_0_05); [simpl; tauto|].
        destruct (float_lt compound (float_neg float_0_05)); simpl; tauto.
      + intros ->. reflexivity.
    - unfold analyze_sentiment_body in B.
      step_bind B. step_bind B. step_bind B.
      inversion B; subst r; clear B. cbn [result_label result_score]. split.
      + match goal with
        | |- In (if ?c then _ else _) _ => destruct c; [simpl; tauto|]
        end.
        match goal with
        | |- In (if ?c then _ else _) _ => destruct c; simpl; tauto
        end.
      + intros ->. reflexivity. }
  destruct L as [L N]. split; [exact L|]. split; [|split; [|exact N]].
  - apply counted_labelled_by, L.
  - intros F. unfold result, analyze_sentiment. rewrite F. reflexivity.
Qed.

(** ** [extract_topics] *)

Lemma firstn_incl {A} n (l : list A) x : In x (firstn n l) -> In x l.
Proof.
  revert n. induction l as [|a l IH]; intros n H; destruct n; simpl in *;
    try contradiction.
  destruct H as [H | H]; [left; exact H | right; apply (IH n), H].
Qed.

Lemma firstn_NoDup {A} n (l : list A) : NoDup l -> NoDup (firstn n l).
Proof.
  revert n. induction l as [|a l IH]; intros n H; destruct n; simpl;
    try constructor.
  - inversion H; subst. intros I. apply firstn_incl in I. contradiction.
  - inversion H; subst. apply IH. assumption.
Qed.

Lemma map_NoDup {A B} (f : A -> B) l :
  (forall x y, f x = f y -> x = y) -> NoDup l -> NoDup (map f l).
Proof.
  intros Inj. induction 1 as [|a l N D IH]; simpl; constructor; [|exact IH].
  intros I. apply in_map_iff in I. destruct I as (b & E & I).
  apply Inj in E. subst b. contradiction.
Qed.

Lemma slice_to_firstn {A} k (l : list A) :
  (0 <= k)%Z -> slice_to k l = firstn (Z.to_nat k) l.
Proof.
  intros H. unfold slice_to.
  replace (k <? 0)%Z with false by (symmetry; apply Z.ltb_ge; exact H).
  reflexivity.
Qed.

Lemma of_hashable_inj a b : of_hashable a = of_hashable b -> a = b.
Proof. destruct a, b; simpl; congruence. Qed.

Section TopicsFacts.
Context {order : SetOrder} {scores_order : ScoreOrder}.
Variable nlp_ents : pyval -> M (list (string * string)).
Variable tfidf_setup : M unit.
Variable tfidf : pyval -> M (list string * list py_float).

Lemma extract_topics_body_topics text num_topics topics :
  (0 <= num_topics)%Z ->
  extract_topics_body nlp_ents tfidf_setup tfidf text num_topics = ret topics ->
  NoDup topics
  /\ (Z.of_nat (List.length topics) <= num_topics)%Z
  /\ exists shortened ents,
       py_slice_to 5000 text = ret shortened
       /\ nlp_ents shortened = ret ents
       /\ forall topic,
            In topic topics ->
            exists name,
              topic = PStr name
              /\ ((exists label,
                     In (name, label) ents /\ In label entity_labels)
                  \/ In name (keywords_of tfidf text num_topics)).
Proof.
  intros N B. unfold extract_topics_body in B.
  step_bind B. step_bind B. step_bind B.
  inversion B; subst topics; clear B.
  rewrite slice_to_firstn by exact N.
  split; [|split].
  - apply firstn_NoDup, map_NoDup.
    + intros x y. apply of_hashable_inj.
    + apply set_iter_NoDup, set_of_list_NoDup.
  - rewrite length_firstn. lia.
  - exists p, l. split; [reflexivity|]. split; [assumption|].
    intros topic I. apply firstn_incl in I. apply in_map_iff in I.
    destruct I as (h & <- & I). rewrite set_iter_In, set_of_list_In in I.
    apply in_map_iff in I. destruct I as (name & <- & I).
    exists name. split; [reflexivity|].
    apply in_app_iff in I. destruct I as [I | I]; [left | right; exact I].
    apply in_map_iff in I. destruct I as ([name' label] & En & I).
    simpl in En. subst name'. apply filter_In in I. destruct I as [I L].
    exists label. split; [exact I|].
    change (str_mem label entity_labels = true) in L.
    unfold str_mem in L. apply existsb_exists in L.
    destruct L as (x & Ix & Ex). apply String.eqb_eq in Ex. subst x. exact Ix.
Qed.

End TopicsFacts.

(** X9.  On a string or [None], [extract_topics] never raises, for any
    behaviour of spaCy and TF-IDF and any iteration order of the set.
    For a non-negative [num_topics] it returns one of its two
    placeholders (["Not enough content"] for a falsy text or one of
    fewer than 100 characters, ["Topic extraction failed"] when the
    outer block raises), or a list without repetition of at most
    [num_topics] strings, each the text of an entity with one of the
    seven labels or one of the keywords.  A placeholder has one item
    also when [num_topics] is 0. *)
Theorem extract_topics_returns_a_placeholder_or_bounded_topics
    (order : SetOrder) (scores_order : ScoreOrder)
    (nlp_ents : pyval -> M (list (string * string))) (tfidf_setup : M unit)
    (tfidf : pyval -> M (list string * list py_float))
    (text : pyval) (num_topics : Z) :
  (0 <= num_topics)%Z ->
  (text = PNone \/ exists s, text = PStr s) ->
  exists topics,
    extract_topics nlp_ents tfidf_setup tfidf text num_topics = ret topics
    /\ (topics = not_enough_content
        \/ topics = topic_extraction_failed
        \/ (NoDup topics
            /\ (Z.of_nat (List.length topics) <= num_topics)%Z
            /\ exists shortened ents,
                 py_slice_to 5000 text = ret shortened
                 /\ nlp_ents shortened = ret ents
                 /\ forall topic,
                      In topic topics ->
                      exists name,
                        topic = PStr name
                        /\ ((exists label,
                               In (name, label) ents /\ In label entity_labels)
                            \/ In name (keywords_of tfidf text num_topics))))
    /\ ((py_truthy text = false \/ exists s, text = PStr s /\ String.length s < 100) ->
        topics = not_enough_content).
Proof.
  intros N T. unfold extract_topics.
  destruct (negb (py_truthy text)) eqn:F.
  - eexists. split; [reflexivity|]. split; [left; reflexivity | reflexivity].
  - apply negb_false_iff in F.
    destruct T as [-> | [s ->]]; [discriminate|].
    cbn [py_len bind ret].
    destruct (Nat.ltb (String.length s) 100) eqn:L.
    + eexists. split; [reflexivity|]. split; [left; reflexivity | reflexivity].
    + apply Nat.ltb_ge in L.
      eexists. split; [reflexivity|]. split.
      * destruct (extract_topics_body nlp_ents tfidf_setup tfidf (PStr s) num_topics)
          as [e|topics] eqn:B; cbn [try_except].
        -- right. left. reflexivity.
        -- right. right.
           apply (extract_topics_body_topics nlp_ents tfidf_setup tfidf
                    (PStr s) num_topics topics N B).
      * intros [F' | (s' & E & L')]; [congruence|].
        inversion E; subst s'. lia.
Qed.

(** ** More on the engine *)

Lemma impact_table_swap l1 l2 :
  impact_table l1 l2 = impact_table l2 l1 <->
  ~ ((l1 = "Positive" /\ l2 = "Negative") \/ (l1 = "Negative" /\ l2 = "Positive")).
Proof.
  unfold impact_table. rewrite (String.eqb_sym l2 l1).
  destruct (String.eqb l1 l2) eqn:E.
  - apply String.eqb_eq in E. subst l2. split; [|reflexivity].
    intros _ [[-> H] | [-> H]]; discriminate.
  - destruct (String.eqb l1 "Positive") eqn:P1.
    + apply String.eqb_eq in P1. subst l1.
      destruct (String.eqb l2 "Negative") eqn:N2.
      * apply String.eqb_eq in N2. subst l2. simpl. split.
        -- intros H. vm_compute in H. discriminate.
        -- intros H. exfalso. apply H. left. split; reflexivity.
      * simpl. destruct (String.eqb l2 "Positive") eqn:P2;
          [rewrite String.eqb_sym in E; simpl in E; congruence|].
        simpl. split.
        -- intros _ [[_ ->] | [H _]]; discriminate.
        -- intros _. destruct (String.eqb l2 "Neutral"); reflexivity.
    + destruct (String.eqb l1 "Negative") eqn:N1.
      * apply String.eqb_eq in N1. subst l1.
        destruct (String.eqb l2 "Positive") eqn:P2.
        -- apply String.eqb_eq in P2. subst l2. simpl. split.
           ++ intros H. vm_compute in H. discriminate.
           ++ intros H. exfalso. apply H. right. split; reflexivity.
        -- simpl. rewrite andb_false_r. simpl. split.
           ++ intros _ [[H _] | [_ ->]]; discriminate.
           ++ intros _. destruct (String.eqb l2 "Neutral"); reflexivity.
      * simpl. rewrite !andb_false_r. split.
        -- apply String.eqb_neq in P1, N1. intros _ [[H _] | [H _]]; contradiction.
        -- intros _.
           destruct (String.eqb l2 "Neutral") eqn:U2,
                    (String.eqb l1 "Neutral") eqn:U1; try reflexivity.
           apply String.eqb_eq in U1, U2. subst.
           rewrite String.eqb_refl in E. discriminate.
Qed.

(** X10.  The Impact of a pair does not depend on the order of the two
    articles, except for a Positive and a Negative one: there the two
    orders give the two different narratives (market uncertainty for
    Positive first, multiple interpretations for Negative first). *)
Theorem impact_depends_on_order_for_opposite_labels_only (a b : ArticleRecord) :
  generate_impact_analysis (to_py a) (to_py b)
  = generate_impact_analysis (to_py b) (to_py a)
  <-> ~ ((shown_label a = "Positive" /\ shown_label b = "Negative")
         \/ (shown_label a = "Negative" /\ shown_label b = "Positive")).
Proof. rewrite !impact_of_records. apply impact_table_swap. Qed.

(** *** No Coverage Difference means one label *)

Lemma firstn_nil_iff {A} n (l : list A) : firstn (S n) l = [] <-> l = [].
Proof. destruct l; simpl; split; congruence. Qed.

Lemma map_nil_iff {A B} (f : A -> B) l : map f l = [] <-> l = [].
Proof. destruct l; simpl; split; congruence. Qed.

Lemma label_dec (x y : option string) : {x = y} + {x <> y}.
Proof.
  destruct (label_eqb x y) eqn:E; [left; apply label_eqb_eq, E | right].
  intros H. apply label_eqb_eq in H. congruence.
Qed.

Lemma divergent_pairs_nil articles :
  divergent_pairs articles = [] <->
  forall i j, i < List.length articles -> j < List.length articles ->
              label_of (article_at articles i) = label_of (article_at articles j).
Proof.
  split.
  - intros E.
    assert (A : forall i, i < List.length articles ->
                          label_of (article_at articles i)
                          = label_of (article_at articles 0)).
    { induction i as [|i IH]; intros Hi; [reflexivity|].
      rewrite <- IH by lia.
      destruct (label_dec (label_of (article_at articles (S i)))
                          (label_of (article_at articles i))) as [Q|Q];
        [exact Q|].
      exfalso.
      assert (I : In (i, S i) (divergent_pairs articles)).
      { apply divergent_pairs_In. split; [left; lia|]. split; [exact Hi|].
        congruence. }
      rewrite E in I. exact I. }
    intros i j Hi Hj. rewrite (A i Hi), (A j Hj). reflexivity.
  - intros H. destruct (divergent_pairs articles) as [|[i j] rest] eqn:E;
      [reflexivity|].
    assert (I : In (i, j) (divergent_pairs articles))
      by (rewrite E; left; reflexivity).
    apply divergent_pairs_In in I. destruct I as (W & Hj & D).
    exfalso. apply D, H; lia.
Qed.

(** X11.  [compare_articles] reports no Coverage Difference exactly when
    all articles of the batch have the same label (an absent label
    being a label of its own): although only articles at most two
    apart are compared, any disagreement in the batch shows in some
    compared pair. *)
Theorem no_coverage_difference_iff_one_label
    (order : SetOrder) (articles : list ArticleRecord) :
  fits articles ->
  (Coverage_Differences (compare_articles (batch articles)) = [] <->
   forall i j, i < List.length articles -> j < List.length articles ->
               label_of (article_at articles i) = label_of (article_at articles j)).
Proof.
  intros F. rewrite compare_articles_batch by exact F.
  cbn [analysis_of Coverage_Differences].
  rewrite firstn_nil_iff, map_nil_iff. apply divergent_pairs_nil.
Qed.

(** *** Topics shared by all *)

Section SharedTopics.
Context {order : SetOrder}.

Lemma all_topics_of_Forall h articles :
  Forall (fun t => In h t) (all_topics_of articles) <->
  Forall (fun a => In h (topic_set_of a)) (topic_bearing articles).
Proof. unfold all_topics_of. rewrite Forall_map. reflexivity. Qed.

Lemma common_of_shared articles t0 :
  topic_bearing articles <> [] ->
  Forall (fun a => In t0 (topics_of a)) (topic_bearing articles) ->
  forall h,
    In h (common_of articles) <->
    exists t, h = HStr t
              /\ Forall (fun a => In t (topics_of a)) (topic_bearing articles).
Proof.
  intros NE S h. unfold common_of.
  destruct (all_topics_of articles) as [|s rest] eqn:E.
  - unfold all_topics_of in E. apply map_eq_nil in E. contradiction.
  - assert (I0 : In (HStr t0) (set_intersection (s :: rest))).
    { apply set_intersection_In. rewrite <- E. apply all_topics_of_Forall.
      eapply Forall_impl; [|exact S]. intros a Ha. apply topic_set_of_In.
      exists t0. split; [reflexivity | exact Ha]. }
    assert (C : In h (match set_intersection (s :: rest) with
                      | [] => fallback_topics (s :: rest)
                      | common => common
                      end)
                <-> In h (set_intersection (s :: rest))).
    { destruct (set_intersection (s :: rest)); [contradiction | reflexivity]. }
    rewrite C, set_intersection_In, <- E, all_topics_of_Forall. split.
    + intros H.
      destruct (topic_bearing articles) as [|a bearing]; [contradiction|].
      pose proof (Forall_inv H) as Ha. apply topic_set_of_In in Ha.
      destruct Ha as (t & -> & _). exists t. split; [reflexivity|].
      eapply Forall_impl; [|exact H]. intros b Hb.
      apply topic_set_of_In in Hb. destruct Hb as (t' & Et & Hb).
      inversion Et; subst t'. exact Hb.
    + intros (t & -> & H). eapply Forall_impl; [|exact H].
      intros a Ha. apply topic_set_of_In. exists t. split; [reflexivity | exact Ha].
Qed.

Lemma set_diff_self s : set_diff s s = [].
Proof.
  unfold set_diff. induction s as [|x s IH]; [reflexivity|].
  destruct (filter (fun y => negb (set_mem y (x :: s))) (x :: s)) as [|y l] eqn:E;
    [reflexivity|].
  assert (I : In y (filter (fun y => negb (set_mem y (x :: s))) (x :: s)))
    by (rewrite E; left; reflexivity).
  apply filter_In in I. destruct I as [I N].
  apply negb_true_iff, set_mem_false in N. contradiction.
Qed.

End SharedTopics.

(** X12.  When some topic occurs in the topics of every topic-bearing
    article, the Common Topics are exactly the topics that do: the
    frequency threshold of the fallback plays no part. *)
Theorem common_topics_are_the_topics_of_every_article
    (order : SetOrder) (articles : list ArticleRecord) (shared : string) :
  fits articles ->
  topic_bearing articles <> [] ->
  Forall (fun a => In shared (topics_of a)) (topic_bearing articles) ->
  forall h,
    In h (Common_Topics (Topic_Overlap (compare_articles (batch articles)))) <->
    exists t, h = HStr t
              /\ Forall (fun a => In t (topics_of a)) (topic_bearing articles).
Proof.
  intros F NE S h. rewrite compare_articles_batch by exact F.
  cbn [analysis_of Topic_Overlap Common_Topics].
  rewrite set_iter_In. apply (common_of_shared articles shared NE S).
Qed.

(** X13.  When exactly one article of the batch has a [topics] field,
    every topic of that article is a Common Topic and its Unique
    Topics entry is empty: with a single topic set, the intersection is
    the set itself. *)
Theorem single_topic_bearing_article_has_no_unique_topics
    (order : SetOrder) (articles : list ArticleRecord) (a : ArticleRecord) :
  fits articles ->
  topic_bearing articles = [a] ->
  (forall h,
     In h (Common_Topics (Topic_Overlap (compare_articles (batch articles)))) <->
     exists t, h = HStr t /\ In t (topics_of a))
  /\ Unique_Topics (Topic_Overlap (compare_articles (batch articles))) = [[]].
Proof.
  intros F B. rewrite compare_articles_batch by exact F.
  cbn [analysis_of Topic_Overlap Common_Topics Unique_Topics].
  assert (C : forall h, In h (common_of articles) <-> In h (topic_set_of a)).
  { intros h. unfold common_of, all_topics_of. rewrite B. cbn [map].
    change (set_intersection [topic_set_of a]) with (topic_set_of a).
    destruct (topic_set_of a) as [|x s] eqn:E; [|reflexivity].
    unfold fallback_topics, count_topics. cbn [fold_left].
    rewrite set_iter_nil. cbn [fold_left filter map]. reflexivity. }
  split.
  - intros h. rewrite set_iter_In, C. apply topic_set_of_In.
  - unfold all_topics_of. rewrite B. cbn [map]. f_equal.
    destruct (set_diff (topic_set_of a) (common_of articles)) as [|y l] eqn:E;
      [apply set_iter_nil|].
    assert (I : In y (set_diff (topic_set_of a) (common_of articles)))
      by (rewrite E; left; reflexivity).
    apply set_diff_In in I. destruct I as [I N]. apply C in I. contradiction.
Qed.

(** *** What the engine reads of a record *)

Lemma read_part_at articles articles' i :
  map read_part articles = map read_part articles' ->
  read_part (article_at articles i) = read_part (article_at articles' i).
Proof.
  intros E. unfold article_at.
  change (read_part (nth i articles empty_article))
    with ((fun a => read_part a) (nth i articles empty_article)).
  rewrite <- !(map_nth read_part). rewrite E. reflexivity.
Qed.

Lemma read_part_label a b : read_part a = read_part b -> label_of a = label_of b.
Proof. unfold read_part. congruence. Qed.

Lemma read_part_title a b : read_part a = read_part b -> title a = title b.
Proof. unfold read_part. congruence. Qed.

Lemma read_part_topics a b : read_part a = read_part b -> topics a = topics b.
Proof. unfold read_part. congruence. Qed.

Lemma count_of_read_part name articles :
  forall articles',
    map read_part articles = map read_part articles' ->
    count_of name articles = count_of name articles'.
Proof.
  unfold count_of.
  induction articles as [|a articles IH]; intros [|b articles'] E;
    try discriminate; [reflexivity|].
  simpl in E. inversion E as [[Et El Ets Er]].
  assert (L : has_label name a = has_label name b)
    by (unfold has_label; rewrite El; reflexivity).
  simpl. rewrite L. specialize (IH articles' Er).
  destruct (has_label name b); simpl; lia.
Qed.

Lemma all_topics_of_read_part articles :
  forall articles',
    map read_part articles = map read_part articles' ->
    all_topics_of articles = all_topics_of articles'.
Proof.
  unfold all_topics_of, topic_bearing.
  induction articles as [|a articles IH]; intros [|b articles'] E;
    try discriminate; [reflexivity|].
  simpl in E. inversion E as [[Et El Ets Er]].
  assert (H : has_topics a = has_topics b)
    by (unfold has_topics; rewrite Ets; reflexivity).
  assert (T : topic_set_of a = topic_set_of b)
    by (unfold topic_set_of, topics_of; rewrite Ets; reflexivity).
  cbn [filter]. rewrite H.
  destruct (has_topics b); cbn [map]; rewrite ?T, (IH articles' Er); reflexivity.
Qed.

Lemma difference_at_read_part articles articles' p :
  map read_part articles = map read_part articles' ->
  difference_at articles p = difference_at articles' p.
Proof.
  intros E. unfold difference_at.
  pose proof (read_part_at articles articles' (fst p) E) as A.
  pose proof (read_part_at articles articles' (snd p) E) as B.
  rewrite !impact_of_records.
  unfold comparison_text, title_or, shown_label, about, topics_of.
  rewrite (read_part_label _ _ A), (read_part_label _ _ B),
    (read_part_title _ _ A), (read_part_title _ _ B),
    (read_part_topics _ _ A), (read_part_topics _ _ B).
  reflexivity.
Qed.

Lemma divergent_pairs_read_part articles articles' :
  map read_part articles = map read_part articles' ->
  divergent_pairs articles = divergent_pairs articles'.
Proof.
  intros E. unfold divergent_pairs.
  assert (L : List.length articles = List.length articles')
    by (rewrite <- (length_map read_part articles), E; apply length_map).
  rewrite L. apply filter_ext. intros p.
  rewrite (read_part_label _ _ (read_part_at articles articles' (fst p) E)),
    (read_part_label _ _ (read_part_at articles articles' (snd p) E)).
  reflexivity.
Qed.

(** X14.  The result of [compare_articles] is determined by the titles,
    the sentiment labels and the topics of the articles: two batches
    that agree on these fields, whatever else their records carry
    (summary, score, date, source, URL), have the same analysis. *)
Theorem compare_articles_reads_title_label_and_topics_only
    (order : SetOrder) (articles articles' : list ArticleRecord) :
  fits articles ->
  map read_part articles = map read_part articles' ->
  compare_articles (batch articles) = compare_articles (batch articles').
Proof.
  intros F E.
  assert (F' : fits articles').
  { unfold fits in *.
    rewrite <- (length_map read_part articles'), <- E, length_map. exact F. }
  rewrite !compare_articles_batch by assumption.
  unfold analysis_of, common_of.
  rewrite !(count_of_read_part _ articles articles' E),
    (all_topics_of_read_part articles articles' E),
    (divergent_pairs_read_part articles articles' E).
  f_equal. f_equal. apply map_ext. intros p.
  apply difference_at_read_part, E.
Qed.

(** ** The final narrative *)

Lemma narrative_of_neutral name :
  narrative name "Neutral" = narrative name "Mixed or Neutral".
Proof. reflexivity. Qed.

Lemma final_text_body_cases name overall data text :
  generate_final_sentiment_text_body name overall data = ret text ->
  text = no_reliable_data (py_str name) \/ text = narrative (py_str name) overall.
Proof.
  unfold generate_final_sentiment_text_body. intros H.
  step_bind H. step_bind H.
  destruct (Z.eqb _ 0); [left; inversion H; reflexivity|].
  right. unfold narrative.
  repeat match type of H with
         | (if ?c then _ else _) = _ => destruct c
         end;
    inversion H; reflexivity.
Qed.

Lemma overall_values data :
  In (get_overall_sentiment data) ("Neutral" :: verdicts).
Proof.
  unfold get_overall_sentiment.
  destruct (negb (py_truthy data)); [simpl; tauto|].
  destruct (get_overall_sentiment_body data) as [e|s] eqn:E.
  - simpl. tauto.
  - cbn [try_except]. apply (overall_body_values data). exact E.
Qed.

(** X15.  For every company name and every analysis data,
    [generate_final_sentiment_text] returns one of seven texts about
    the company: the no-reliable-data sentence, the inconclusive
    sentence, or the narrative of one of the five verdicts.  The
    verdict ["Neutral"] that [get_overall_sentiment] gives on a failure
    has no narrative of its own: with a non-zero total it is rendered
    by the mixed-sentiment narrative. *)
Theorem final_sentiment_text_is_one_of_seven (company_name analysis_data : pyval) :
  In (generate_final_sentiment_text company_name analysis_data)
     (no_reliable_data (py_str company_name)
      :: inconclusive company_name
      :: map (narrative (py_str company_name)) verdicts)
  /\ narrative (py_str company_name) "Neutral"
     = narrative (py_str company_name) "Mixed or Neutral".
Proof.
  split; [|reflexivity].
  unfold generate_final_sentiment_text.
  destruct (generate_final_sentiment_text_body company_name
              (get_overall_sentiment analysis_data) analysis_data)
    as [e|text] eqn:B; cbn [try_except].
  - right. left. reflexivity.
  - apply final_text_body_cases in B. destruct B as [-> | ->].
    + left. reflexivity.
    + right. right.
      pose proof (overall_values analysis_data) as V.
      destruct V as [<- | V].
      * rewrite narrative_of_neutral. apply in_map. simpl. tauto.
      * apply in_map, V.
Qed.

(** *** From the batch to the narrative *)

Lemma final_text_of_distribution name data d :
  dict_lookup "Sentiment Distribution" data = Some (distribution_to_py d) ->
  generate_final_sentiment_text name (PDict data)
  = if (total d =? 0)%Z then no_reliable_data (py_str name)
    else narrative (py_str name) (get_overall_sentiment (PDict data)).
Proof.
  intros L. unfold generate_final_sentiment_text, generate_final_sentiment_text_body.
  cbn [py_get]. rewrite L. cbn [bind ret].
  rewrite py_sum_values_distribution. cbn [bind ret].
  destruct (total d =? 0)%Z; [reflexivity|].
  unfold narrative.
  repeat match goal with
         | |- context [if ?c then _ else _] => destruct c
         end; reflexivity.
Qed.

Lemma count_of_nonneg name articles : (0 <= count_of name articles)%Z.
Proof. unfold count_of. lia. Qed.

Lemma count_of_zero name articles :
  count_of name articles = 0%Z <->
  Forall (fun a => has_label name a = false) articles.
Proof.
  unfold count_of. induction articles as [|a articles IH]; simpl.
  - split; [constructor | reflexivity].
  - destruct (has_label name a) eqn:E; simpl.
    + split; [lia | intros H; inversion H; congruence].
    + rewrite IH. split; [intros H; constructor; assumption|].
      intros H. inversion H; assumption.
Qed.

Lemma total_zero_iff_none_counted articles :
  (count_of "Positive" articles + count_of "Negative" articles
   + count_of "Neutral" articles = 0)%Z
  <-> Forall (fun a => counted a = false) articles.
Proof.
  pose proof (count_of_nonneg "Positive" articles).
  pose proof (count_of_nonneg "Negative" articles).
  pose proof (count_of_nonneg "Neutral" articles).
  split.
  - intros T.
    assert (P : count_of "Positive" articles = 0%Z) by lia.
    assert (N : count_of "Negative" articles = 0%Z) by lia.
    assert (U : count_of "Neutral" articles = 0%Z) by lia.
    apply count_of_zero in P, N, U. rewrite Forall_forall in *.
    intros a Ha. unfold counted. rewrite (P a Ha), (N a Ha), (U a Ha). reflexivity.
  - intros C.
    assert (Z3 : forall name,
               In name ["Positive"; "Negative"; "Neutral"] ->
               count_of name articles = 0%Z).
    { intros name I. apply count_of_zero. eapply Forall_impl; [|exact C].
      intros a Ha. unfold counted in Ha.
      apply orb_false_iff in Ha. destruct Ha as [Ha U].
      apply orb_false_iff in Ha. destruct Ha as [P N].
      destruct I as [<- | [<- | [<- | []]]]; assumption. }
    rewrite !Z3 by (simpl; tauto). reflexivity.
Qed.

(** X16.  [generate_final_sentiment_text] on what [compare_articles]
    returns for a batch, as the analysis endpoint composes them: when no
    article has one of the three labels the text is the
    no-reliable-data sentence; otherwise [get_overall_sentiment] gives
    one of the five verdicts and the text is the narrative of that
    verdict.  The inconclusive sentence and the verdict ["Neutral"] do
    not occur. *)
Theorem final_text_of_a_batch_follows_the_verdict
    (order : SetOrder) (company_name : pyval) (articles : list ArticleRecord) :
  fits articles ->
  let analysis := analysis_to_py (compare_articles (batch articles)) in
  let text := generate_final_sentiment_text company_name analysis in
  (Forall (fun a => counted a = false) articles ->
   text = no_reliable_data (py_str company_name))
  /\ (Exists (fun a => counted a = true) articles ->
      In (get_overall_sentiment analysis) verdicts
      /\ text = narrative (py_str company_name) (get_overall_sentiment analysis)).
Proof.
  intros F analysis text. unfold text, analysis.
  rewrite compare_articles_batch by exact F.
  set (d := Sentiment_Distribution (analysis_of articles)).
  assert (L : dict_lookup "Sentiment Distribution"
                [("Sentiment Distribution", distribution_to_py d);
                 ("Coverage Differences",
                   PList (map difference_to_py
                              (Coverage_Differences (analysis_of articles))));
                 ("Topic Overlap", overlap_to_py (Topic_Overlap (analysis_of articles)))]
              = Some (distribution_to_py d)) by reflexivity.
  unfold analysis_to_py. fold d.
  rewrite (final_text_of_distribution company_name _ d L).
  assert (T : total d = (count_of "Positive" articles + count_of "Negative" articles
                         + count_of "Neutral" articles)%Z) by reflexivity.
  split.
  - intros C. apply total_zero_iff_none_counted in C. rewrite T, C. reflexivity.
  - intros C.
    assert (NZ : total d <> 0%Z).
    { rewrite T. intros Z0. apply total_zero_iff_none_counted in Z0.
      apply Exists_exists in C. destruct C as (a & Ha & Ca).
      rewrite Forall_forall in Z0. rewrite (Z0 a Ha) in Ca. discriminate. }
    pose proof (count_of_nonneg "Positive" articles).
    pose proof (count_of_nonneg "Negative" articles).
    pose proof (count_of_nonneg "Neutral" articles).
    replace (total d =? 0)%Z with false by (symmetry; apply Z.eqb_neq; exact NZ).
    split; [|reflexivity].
    apply (overall_of_distribution _ d L); unfold d; cbn [analysis_of
      Sentiment_Distribution Positive Negative Neutral]; try assumption.
    rewrite T in NZ. unfold total. cbn [Positive Negative Neutral]. lia.
Qed.

(** ** The further properties at sample inputs *)

Lemma search_news_articles_returns_at_most_twice_half_witness :
  (0 <= 3)%Z
  /\ search_news_articles as_str sample_parse sample_today (PStr "Acme") 3
     = fetch_news_feeds as_str sample_parse sample_today (PStr "Acme") 3
  /\ (Z.of_nat
        (List.length
           (search_news_articles as_str sample_parse sample_today (PStr "Acme") 3))
      <= 2 * (3 / 2) <= 3)%Z
  /\ (Z.odd 3 = true ->
      (Z.of_nat
         (List.length
            (search_news_articles as_str sample_parse sample_today (PStr "Acme") 3))
       < 3)%Z).
Proof.
  split; [lia|].
  apply (search_news_articles_returns_at_most_twice_half
           as_str sample_parse sample_today (PStr "Acme") 3).
  lia.
Defined.

Lemma summarize_text_reads_the_first_3072_characters_witness :
  String.length (replicate 3072 "a") = 3072
  /\ summarize_text_body (ret tt) sample_summarizer
       (PStr (replicate 3072 "a" ++ "b")) 150
     = ret (PStr "aaaaaaaa aaaaaaaa aaaaaaaa")
  /\ summarize_text (ret tt) sample_summarizer sample_sent_tokenize
       (PStr (replicate 3072 "a" ++ "b")) 150
     = ret (PStr "aaaaaaaa aaaaaaaa aaaaaaaa")
  /\ summarize_text (ret tt) sample_summarizer sample_sent_tokenize
       (PStr (replicate 3072 "a" ++ "another end")) 150
     = ret (PStr "aaaaaaaa aaaaaaaa aaaaaaaa").
Proof.
  split; [vm_compute; reflexivity|]. split; [vm_compute; reflexivity|].
  apply (summarize_text_reads_the_first_3072_characters
           (ret tt) sample_summarizer sample_sent_tokenize
           (replicate 3072 "a") "b" "another end" 150
           (PStr "aaaaaaaa aaaaaaaa aaaaaaaa"));
    vm_compute; reflexivity.
Defined.

Lemma extract_topics_returns_a_placeholder_or_bounded_topics_witness :
  (0 <= 2)%Z
  /\ (PStr (replicate 120 "a") = PNone
      \/ exists s, PStr (replicate 120 "a") = PStr s)
  /\ exists topics,
       extract_topics (order := insertion_order) (scores_order := falling_scores)
         sample_ents (ret tt) sample_tfidf (PStr (replicate 120 "a")) 2
       = ret topics
       /\ (Z.of_nat (List.length topics) <= 2)%Z.
Proof.
  split; [lia|].
  assert (T : PStr (replicate 120 "a") = PNone
              \/ exists s, PStr (replicate 120 "a") = PStr s)
    by (right; eexists; reflexivity).
  split; [exact T|].
  destruct (extract_topics_returns_a_placeholder_or_bounded_topics
              insertion_order falling_scores sample_ents (ret tt) sample_tfidf
              (PStr (replicate 120 "a")) 2 ltac:(lia) T)
    as (topics & E & [-> | [-> | (_ & L & _)]] & _);
    exists topics || eexists; (split; [exact E|]); simpl; lia.
Defined.

Lemma no_coverage_difference_iff_one_label_witness :
  fits sharing_X
  /\ (Coverage_Differences
        (compare_articles (order := insertion_order) (batch sharing_X)) = []
      <-> forall i j,
            i < List.length sharing_X -> j < List.length sharing_X ->
            label_of (article_at sharing_X i) = label_of (article_at sharing_X j)).
Proof.
  split; [fits_now|].
  apply (no_coverage_difference_iff_one_label insertion_order sharing_X).
  fits_now.
Defined.

Lemma sharing_X_shares_X :
  Forall (fun a => In "X" (topics_of a)) (topic_bearing sharing_X).
Proof. repeat constructor. Defined.

Lemma common_topics_are_the_topics_of_every_article_witness :
  fits sharing_X
  /\ topic_bearing sharing_X <> []
  /\ Forall (fun a => In "X" (topics_of a)) (topic_bearing sharing_X)
  /\ forall h,
       In h (Common_Topics
               (Topic_Overlap
                  (compare_articles (order := reversed_order) (batch sharing_X))))
       <-> exists t, h = HStr t
                     /\ Forall (fun a => In t (topics_of a)) (topic_bearing sharing_X).
Proof.
  split; [fits_now|]. split; [discriminate|]. split; [exact sharing_X_shares_X|].
  apply (common_topics_are_the_topics_of_every_article
           reversed_order sharing_X "X");
    [fits_now | discriminate | exact sharing_X_shares_X].
Defined.

Lemma single_topic_bearing_article_has_no_unique_topics_witness :
  fits single_topic_set
  /\ topic_bearing single_topic_set
     = [article (Some "First") (Some "Neutral") (Some ["X"; "Y"])]
  /\ (forall h,
        In h (Common_Topics
                (Topic_Overlap
                   (compare_articles (order := insertion_order)
                                     (batch single_topic_set))))
        <-> exists t, h = HStr t /\ In t ["X"; "Y"])
  /\ Unique_Topics
       (Topic_Overlap
          (compare_articles (order := insertion_order) (batch single_topic_set)))
     = [[]].
Proof.
  split; [fits_now|]. split; [reflexivity|].
  apply (single_topic_bearing_article_has_no_unique_topics
           insertion_order single_topic_set
           (article (Some "First") (Some "Neutral") (Some ["X"; "Y"])));
    [fits_now | reflexivity].
Defined.

Lemma compare_articles_reads_title_label_and_topics_only_witness :
  fits sharing_X
  /\ map read_part sharing_X = map read_part sharing_X_bare
  /\ compare_articles (order := insertion_order) (batch sharing_X)
     = compare_articles (order := insertion_order) (batch sharing_X_bare).
Proof.
  split; [fits_now|]. split; [reflexivity|].
  apply (compare_articles_reads_title_label_and_topics_only
           insertion_order sharing_X sharing_X_bare);
    [fits_now | reflexivity].
Defined.

Lemma final_text_of_a_batch_follows_the_verdict_witness :
  fits alternating
  /\ (Exists (fun a => counted a = true) alternating ->
      In (get_overall_sentiment
            (analysis_to_py
               (compare_articles (order := insertion_order) (batch alternating))))
         verdicts
      /\ generate_final_sentiment_text (PStr "Acme")
           (analysis_to_py
              (compare_articles (order := insertion_order) (batch alternating)))
         = narrative "Acme"
             (get_overall_sentiment
                (analysis_to_py
                   (compare_articles (order := insertion_order)
                                     (batch alternating))))).
Proof.
  assert (F : fits alternating) by fits_now.
  split; [exact F|].
  exact (proj2 (final_text_of_a_batch_follows_the_verdict
                  insertion_order (PStr "Acme") alternating F)).
Defined.

(** ** The cases of the test suite *)

Example scenario_sanitize_text :
  sanitize_text
    (PStr ("This  has  multiple   spaces " ++ String (ascii_of_nat 10) " and"
           ++ String (ascii_of_nat 9) "linebreaks"))
  = ret "This has multiple spaces and linebreaks"
  /\ sanitize_text PNone = ret ""
  /\ sanitize_text (PStr "") = ret "".
Proof. repeat split; reflexivity. Qed.

Example scenario_short_texts :
  summarize_text (ret tt) sample_summarizer sample_sent_tokenize
    (PStr "This is a short text.") 150
  = ret (PStr "This is a short text.")
  /\ summarize_text (ret tt) sample_summarizer sample_sent_tokenize PNone 150
     = ret PNone
  /\ extract_topics (order := insertion_order) (scores_order := falling_scores)
       sample_ents (ret tt) sample_tfidf PNone 3
     = ret [PStr "Not enough content"]
  /\ result_label (analyze_sentiment (fun _ _ => raise TypeError)
                                     (fun _ => raise TypeError) (PStr ""))
     = "Neutral".
Proof. repeat split; reflexivity. Qed.

Example scenario_feed :
  search_news_articles as_str sample_parse sample_today (PStr "Acme") 15
  = [PDict [("title", PStr "Acme rises"); ("url", PStr "https://example.org/1");
            ("published", PStr "2024-05-01")];
     PDict [("title", PStr "Acme falls"); ("url", PStr "https://example.org/2");
            ("published", PStr "2024-05-02")];
     PDict [("title", PStr "Acme rises"); ("url", PStr "https://example.org/1");
            ("published", PStr "2024-05-01")];
     PDict [("title", PStr "Acme falls"); ("url", PStr "https://example.org/2");
            ("published", PStr "2024-05-02")]].
Proof. reflexivity. Qed.

Example scenario_sorted_ties :
  sorted_by_score (ScoreOrder := falling_scores)
    [("a", float_0_3); ("b", float_0_6); ("c", float_0_3); ("d", float_0_6)]
  = [("b", float_0_6); ("d", float_0_6); ("a", float_0_3); ("c", float_0_3)].
Proof. reflexivity. Qed.

Example scenario_repr :
  py_repr (PList [PStr "it's"; PStr (String (ascii_of_nat 160) "x"); PInt (-3);
                  PNone; PDict [("k", PStr (String (ascii_of_nat 233) ""))]])
  = String (ascii_of_nat 91)
      (String (ascii_of_nat 34) "it's" ++ String (ascii_of_nat 34) ", '\xa0x', -3, None, {'k': '"
       ++ String (ascii_of_nat 233) "'}]").
Proof. reflexivity. Qed.
